(** * The terminal controller of [server.ts]: model and verification

    The development embeds the terminal front-end of [src/server.ts]
    (section "MODERN LIST-BASED TUI", together with the Store operations
    [customerOps] and [productOps] it calls) and the REST interface over
    the same Store, and proves properties of the key dispatcher, of the
    list filter, of the form controller, of the confirmation gate, of the
    Store operations and of the request handlers.

    Conventions of the embedding.
    - A JavaScript string is a [string]; a character is one code unit in
      the range U+0000..U+00FF (Latin-1), on which [toLowerCase] acts
      character by character.  The list filter is embedded once more for
      the Turkish letters outside that range (module [Turkish]).
    - A JavaScript number is carried as the exact decimal it denotes
      ([number]); rounding to binary64 is outside the model.
    - A JavaScript object used as a dictionary ([formData], a row of a
      table) is a [gmap string value]; an absent key reads [undefined].
    - The mutable globals ([tuiState], the database, the pending timers,
      the terminal) are the fields of one record [World], threaded through
      every function that the source runs for its effects. *)

From Stdlib Require Import ZArith NArith Ascii Bool Lia.
From Stdlib Require Import DecimalString DecimalN.
From stdpp Require Import gmap strings list fin_maps.

Local Open Scope Z_scope.

(** ** JavaScript strings *)

Module Js.

Definition code (c : ascii) : N := N_of_ascii c.

(** [String.prototype.toLowerCase] on one Latin-1 code unit: A-Z and
    U+00C0..U+00DE except the multiplication sign U+00D7 move by 32. *)
Definition lowerChar (c : ascii) : ascii :=
  let n := code c in
  if ((65 <=? n) && (n <=? 90))%N then ascii_of_N (n + 32)
  else if ((192 <=? n) && (n <=? 222) && negb (n =? 215))%N then ascii_of_N (n + 32)
  else c.

(** [String.prototype.toLowerCase] on a string of Latin-1 code units.  The
    letters outside Latin-1 are not strings of this type; for those of the
    Turkish alphabet see [Turkish.toLowerCase] below. *)
Fixpoint toLowerCase (s : string) : string :=
  match s with
  | EmptyString => EmptyString
  | String c r => String (lowerChar c) (toLowerCase r)
  end.

(** [t] is an initial segment of [s]. *)
Fixpoint startsWith (s t : string) {struct t} : bool :=
  match t, s with
  | EmptyString, _ => true
  | String a t', String b s' => if ascii_dec a b then startsWith s' t' else false
  | String _ _, EmptyString => false
  end.

(** [String.prototype.includes]: [t] occurs in [s] at some position. *)
Fixpoint includes (s t : string) : bool :=
  startsWith s t ||
  match s with
  | EmptyString => false
  | String _ s' => includes s' t
  end.

(** [s.slice(0, -1)]: all but the last character. *)
Fixpoint dropLast (s : string) : string :=
  match s with
  | EmptyString => EmptyString
  | String _ EmptyString => EmptyString
  | String c r => String c (dropLast r)
  end.

Fixpoint repeat0 (n : nat) : string :=
  match n with
  | O => EmptyString
  | S k => String "0" (repeat0 k)
  end.

Fixpoint takeS (n : nat) (s : string) : string :=
  match n, s with
  | S k, String c r => String c (takeS k r)
  | _, _ => EmptyString
  end.

Fixpoint dropS (n : nat) (s : string) : string :=
  match n, s with
  | S k, String _ r => dropS k r
  | _, _ => s
  end.

(** [s.split(sep)] for a separator of one character: the pieces between
    the occurrences of [sep], in order; there is always at least one. *)
Fixpoint split (sep : ascii) (s : string) : list string :=
  match s with
  | EmptyString => [EmptyString]
  | String c r =>
      if ascii_dec c sep then EmptyString :: split sep r
      else match split sep r with
           | piece :: rest => String c piece :: rest
           | [] => [String c EmptyString]
           end
  end.

(** [Array.prototype.slice(start, end)]: a negative index counts from the
    end, and both are clamped to the array. *)
Definition relativeIndex (len i : Z) : Z :=
  if i <? 0 then Z.max (len + i) 0 else Z.min i len.

Definition slice {A} (l : list A) (start stop : Z) : list A :=
  let len := Z.of_nat (length l) in
  let k := relativeIndex len start in
  let final := relativeIndex len stop in
  take (Z.to_nat (final - k)) (drop (Z.to_nat k) l).

(** ** JavaScript numbers

    [Finite neg m e] denotes [(-1)^neg * m * 10^e].  The canonical form
    has [e = 0] when [m = 0] and no factor 10 in [m] otherwise; every
    function below returns canonical numbers. *)

Inductive number : Type :=
  | NaN
  | Infinity (neg : bool)
  | Finite (neg : bool) (m : N) (e : Z).

Definition zero : number := Finite false 0 0.

Definition ofN (n : N) : number := Finite false n 0.

(** Truthiness of a number: [NaN], [0] and [-0] are falsy. *)
Definition truthyNum (x : number) : bool :=
  match x with
  | NaN => false
  | Infinity _ => true
  | Finite _ m _ => negb (m =? 0)%N
  end.

Definition digit (c : ascii) : option N :=
  let n := code c in
  if ((48 <=? n) && (n <=? 57))%N then Some (n - 48)%N else None.

(** The longest run of decimal digits at the head of [s], and the rest. *)
Fixpoint spanDigits (s : string) : list N * string :=
  match s with
  | EmptyString => ([], s)
  | String c r =>
      match digit c with
      | Some d => let '(ds, rest) := spanDigits r in (d :: ds, rest)
      | None => ([], s)
      end
  end.

Definition digitsValue (ds : list N) : N :=
  fold_left (fun acc d => (10 * acc + d)%N) ds 0%N.

Fixpoint dropZeros (ds : list N) : list N :=
  match ds with
  | d :: r => if (d =? 0)%N then dropZeros r else ds
  | [] => []
  end.

(** The canonical number with digits [ds] scaled by [10^e]. *)
Definition mkFinite (neg : bool) (ds : list N) (e : Z) : number :=
  let kept := rev (dropZeros (rev ds)) in
  let m := digitsValue kept in
  if (m =? 0)%N then Finite neg 0 0
  else Finite neg m (e + Z.of_nat (length ds) - Z.of_nat (length kept)).

(** StrWhiteSpaceChar within Latin-1: TAB, LF, VT, FF, CR, SP, NBSP. *)
Definition isWhite (c : ascii) : bool :=
  let n := code c in
  (((9 <=? n) && (n <=? 13)) || (n =? 32) || (n =? 160))%N.

Fixpoint trimStart (s : string) : string :=
  match s with
  | String c r => if isWhite c then trimStart r else s
  | EmptyString => s
  end.

(** ExponentPart: [e] or [E], an optional sign and at least one digit;
    anything else is left unread and counts as exponent 0. *)
Definition exponentPart (s : string) : Z :=
  match s with
  | String c r =>
      if ((code c =? 101) || (code c =? 69))%N then
        let '(neg, r') :=
          match r with
          | String "-" r' => (true, r')
          | String "+" r' => (false, r')
          | _ => (false, r)
          end in
        match fst (spanDigits r') with
        | [] => 0
        | ds => if neg : bool then - Z.of_N (digitsValue ds) else Z.of_N (digitsValue ds)
        end
      else 0
  | EmptyString => 0
  end.

(** A StrUnsignedDecimalLiteral at the head of [s]: [Infinity], or digits
    with an optional fraction and exponent; [NaN] when there is none. *)
Definition parseDecimal (neg : bool) (s : string) : number :=
  if startsWith s "Infinity" then Infinity neg
  else
    let '(ip, s2) := spanDigits s in
    let '(fp, s3) :=
      match s2 with
      | String "." r => spanDigits r
      | _ => ([], s2)
      end in
    match ip ++ fp with
    | [] => NaN
    | ds => mkFinite neg ds (exponentPart s3 - Z.of_nat (length fp))
    end.

(** The global [parseFloat]: the longest prefix of the trimmed string that
    is a StrDecimalLiteral, [NaN] when there is none. *)
Definition parseFloat (s : string) : number :=
  match trimStart s with
  | String "-" r => parseDecimal true r
  | String "+" r => parseDecimal false r
  | s0 => parseDecimal false s0
  end.

Definition decimal (n : N) : string := NilEmpty.string_of_uint (N.to_uint n).

(** [Number::toString] (radix 10) of a canonical number. *)
Definition numToString (x : number) : string :=
  match x with
  | NaN => "NaN"
  | Infinity neg => if neg then "-Infinity" else "Infinity"
  | Finite neg m e =>
      if (m =? 0)%N then "0"
      else
        let ds := decimal m in
        let k := Z.of_nat (String.length ds) in
        let n := e + k in
        let body :=
          if (k <=? n) && (n <=? 21) then ds +:+ repeat0 (Z.to_nat (n - k))
          else if (0 <? n) && (n <=? 21) then
            takeS (Z.to_nat n) ds +:+ "." +:+ dropS (Z.to_nat n) ds
          else if (-6 <? n) && (n <=? 0) then
            "0." +:+ repeat0 (Z.to_nat (- n)) +:+ ds
          else
            let sg := if n - 1 <? 0 then "-" else "+" in
            let ex := decimal (Z.to_N (Z.abs (n - 1))) in
            match ds with
            | String d EmptyString => String d ("e" +:+ sg +:+ ex)
            | String d rest => String d ("." +:+ rest +:+ "e" +:+ sg +:+ ex)
            | EmptyString => EmptyString
            end in
        if neg then "-" +:+ body else body
  end.

End Js.

(** ** JavaScript values and objects *)

Inductive value : Type :=
  | VNull
  | VStr (s : string)
  | VNum (x : Js.number)
  | VArr (l : list string).

#[global] Instance number_eq_dec : EqDecision Js.number.
Proof. solve_decision. Defined.

#[global] Instance value_eq_dec : EqDecision value.
Proof. solve_decision. Defined.

(** An object used as a dictionary; [o !! k = None] is [o.k === undefined]. *)
Abbreviation Obj := (gmap string value).

(** Truthiness of [o.k]. *)
Definition truthy (v : option value) : bool :=
  match v with
  | None | Some VNull => false
  | Some (VStr s) => negb (bool_decide (s = ""))
  | Some (VNum x) => Js.truthyNum x
  | Some (VArr _) => true
  end.

(** [a || b]. *)
Definition orElse (a b : option value) : option value :=
  if truthy a then a else b.

Fixpoint join (l : list string) : string :=
  match l with
  | [] => ""
  | [s] => s
  | s :: r => s +:+ "," +:+ join r
  end.

(** [String(v)]. *)
Definition toStr (v : value) : string :=
  match v with
  | VNull => "null"
  | VStr s => s
  | VNum x => Js.numToString x
  | VArr l => join l
  end.

(** [String(v || '')]. *)
Definition stringOrEmpty (v : option value) : string :=
  match v with
  | Some u => if truthy v then toStr u else ""
  | None => ""
  end.

(** [a || ''] read as the text it holds: the receivers of
    [.toLowerCase()] in [filterRecords] are cells of TEXT columns, which
    SQLite returns as NULL or text.  On a truthy value that is no string
    [.toLowerCase()] throws; [Throwing.filterRecords] below keeps that
    exception, and agrees with [filterRecords] on rows of text. *)
Definition textOrEmpty (v : option value) : string :=
  match v with
  | Some (VStr s) => s
  | _ => ""
  end.

(** ** The Store: two SQLite tables and the operations on them

    A table is the list of its rows in rowid order; a row is an object
    with one key per column.  Of SQLite the model keeps the constraints
    of the schema (PRIMARY KEY, NOT NULL, UNIQUE); a bound value is
    stored as it is, and the [created_at] column is left out.  The three
    JSON columns of a customer hold the value their JSON text denotes. *)

Record Db : Type := mkDb {
  customers : list Obj;
  products : list Obj;
  orders : list Obj;
  payments : list Obj
}.

Inductive SqlError : Type :=
  | NotNullViolation (column : string)
  | UniqueViolation (column : string).

Inductive JsError : Type :=
  | TypeError
  | SqliteError (e : SqlError).

(** A statement parameter: [undefined] binds as NULL. *)
Definition bind (v : option value) : value := default VNull v.

Definition hasId (id : option string) (row : Obj) : bool :=
  match id with
  | Some i => bool_decide (row !! "id" = Some (VStr i))
  | None => false
  end.

Definition isNull (v : value) : bool :=
  match v with VNull => true | _ => false end.

(** [crypto.randomUUID()]: the [n]-th identifier handed out. *)
Definition uuidOf (n : N) : string := "uuid-" +:+ Js.decimal n.

(** [JSON.parse(cell || '[]')]. *)
Definition parseJsonCell (v : option value) : value :=
  match v with
  | None | Some VNull => VArr []
  | Some u => u
  end.

(** [JSON.stringify(x || [])], as the stored cell. *)
Definition jsonCell (v : option value) : value :=
  match orElse v (Some (VArr [])) with
  | Some u => u
  | None => VArr []
  end.

(** Assigning columns of a row, left to right. *)
Definition setCols (cols : list (string * value)) (row : Obj) : Obj :=
  fold_left (fun r kv => <[kv.1 := kv.2]> r) cols row.

Module customerOps.

Definition textCols : list string :=
  ["CustomerName"; "CustomerPhone"; "CustomerAddress"; "CustomerTCKN"; "CustomerVD"].

Definition numCols : list string := ["CustomerDebt"; "CustomerBalance"].

Definition cols : list string := textCols ++ numCols.

Definition jsonCols : list string :=
  ["CustomerPayments"; "CustomerOrders"; "CustomerShipments"].

Definition parseRow (row : Obj) : Obj :=
  setCols (map (fun c => (c, parseJsonCell (row !! c))) jsonCols) row.

(** The constraint of the customers table on a row that is about to
    be written: [CustomerName] is NOT NULL. *)
Definition violation (row : Obj) : option SqlError :=
  if isNull (bind (row !! "CustomerName"))
  then Some (NotNullViolation "CustomerName")
  else None.

(** INSERT INTO customers; [id] is the primary key. *)
Definition insert (row : Obj) (rows : list Obj) : SqlError + list Obj :=
  if existsb (fun r => bool_decide (r !! "id" = row !! "id")) rows
  then inl (UniqueViolation "id")
  else match violation row with
       | Some e => inl e
       | None => inr (rows ++ [row])
       end.

Definition create (customer : Obj) (seed : N) (db : Db) : SqlError + (Obj * Db) :=
  let id := uuidOf seed in
  let row :=
    setCols (("id", VStr id)
             :: map (fun c => (c, bind (customer !! c))) cols
             ++ map (fun c => (c, jsonCell (customer !! c))) jsonCols) ∅ in
  match insert row (customers db) with
  | inl e => inl e
  | inr rows =>
      inr (customer ∪ {["id" := VStr id]},
           mkDb rows (products db) (orders db) (payments db))
  end.

Definition getAll (db : Db) : list Obj := map parseRow (customers db).

Definition getById (id : option string) (db : Db) : option Obj :=
  parseRow <$> List.find (hasId id) (customers db).

(** The parameters [updates.c || current.c] of the UPDATE statement. *)
Definition merged (updates current : Obj) : list (string * value) :=
  map (fun c => (c, bind (orElse (updates !! c) (current !! c)))) cols.

Definition update (id : option string) (updates : Obj) (db : Db)
  : SqlError + (option Obj * Db) :=
  match getById id db with
  | None => inr (None, db)
  | Some current =>
      let params := merged updates current in
      match violation (setCols params current) with
      | Some e => inl e
      | None =>
          let rows :=
            map (fun r => if hasId id r then setCols params r else r) (customers db) in
          let db' := mkDb rows (products db) (orders db) (payments db) in
          inr (getById id db', db')
      end
  end.

(** DELETE FROM customers WHERE id = ?; the result is [changes > 0]. *)
Definition delete (id : option string) (db : Db) : bool * Db :=
  let rows := List.filter (fun r => negb (hasId id r)) (customers db) in
  (existsb (hasId id) (customers db),
   mkDb rows (products db) (orders db) (payments db)).

End customerOps.

Module productOps.

Definition textCols : list string := ["ProductCode"; "Details"; "Barcode"].

Definition cols : list string :=
  ["ProductCode"; "Details"; "Barcode"; "Price"; "Category";
   "ActualInventory"; "ReservedInventory"; "AwaitingInventory"].

(** The constraints of the products table on a row that is about to be
    written, [others] being the rows it must differ from: [ProductCode]
    is UNIQUE NOT NULL and [Price] is NOT NULL. *)
Definition violation (row : Obj) (others : list Obj) : option SqlError :=
  if isNull (bind (row !! "ProductCode")) then Some (NotNullViolation "ProductCode")
  else if isNull (bind (row !! "Price")) then Some (NotNullViolation "Price")
  else if existsb (fun r => bool_decide (r !! "ProductCode" = row !! "ProductCode")) others
  then Some (UniqueViolation "ProductCode")
  else None.

Definition insert (row : Obj) (rows : list Obj) : SqlError + list Obj :=
  if existsb (fun r => bool_decide (r !! "id" = row !! "id")) rows
  then inl (UniqueViolation "id")
  else match violation row rows with
       | Some e => inl e
       | None => inr (rows ++ [row])
       end.

Definition create (product : Obj) (seed : N) (db : Db) : SqlError + (Obj * Db) :=
  let id := uuidOf seed in
  let row :=
    setCols (("id", VStr id) :: map (fun c => (c, bind (product !! c))) cols) ∅ in
  match insert row (products db) with
  | inl e => inl e
  | inr rows =>
      inr (product ∪ {["id" := VStr id]},
           mkDb (customers db) rows (orders db) (payments db))
  end.

Definition getAll (db : Db) : list Obj := products db.

Definition getById (id : option string) (db : Db) : option Obj :=
  List.find (hasId id) (products db).

(** SELECT * FROM products WHERE ProductCode = ?; the first such row. *)
Definition getByCode (code : string) (db : Db) : option Obj :=
  List.find (fun r => bool_decide (r !! "ProductCode" = Some (VStr code))) (products db).

Definition merged (updates current : Obj) : list (string * value) :=
  map (fun c => (c, bind (orElse (updates !! c) (current !! c)))) cols.

Definition update (id : option string) (updates : Obj) (db : Db)
  : SqlError + (option Obj * Db) :=
  match getById id db with
  | None => inr (None, db)
  | Some current =>
      let params := merged updates current in
      let others := List.filter (fun r => negb (hasId id r)) (products db) in
      match violation (setCols params current) others with
      | Some e => inl e
      | None =>
          let rows :=
            map (fun r => if hasId id r then setCols params r else r) (products db) in
          let db' := mkDb (customers db) rows (orders db) (payments db) in
          inr (getById id db', db')
      end
  end.

Definition delete (id : option string) (db : Db) : bool * Db :=
  let rows := List.filter (fun r => negb (hasId id r)) (products db) in
  (existsb (hasId id) (products db),
   mkDb (customers db) rows (orders db) (payments db)).

End productOps.

(** ** The session state *)

Inductive View : Type :=
  | Main | CustomerList | ProductList | CustomerForm | ProductForm | ConfirmAction.

Inductive Action : Type := Save | Delete.

#[global] Instance View_eq_dec : EqDecision View.
Proof. solve_decision. Defined.

#[global] Instance Action_eq_dec : EqDecision Action.
Proof. solve_decision. Defined.

(** [view.endsWith('-form')] and [view.endsWith('-list')]. *)
Definition endsWithForm (v : View) : bool :=
  match v with CustomerForm | ProductForm => true | _ => false end.

Definition endsWithList (v : View) : bool :=
  match v with CustomerList | ProductList => true | _ => false end.

(** The name shown in a confirmation question:
    [formData.CustomerName || 'Bu müşteriyi'] and its product twin. *)
Inductive RecordName : Type :=
  | Named (v : value)
  | ThisCustomer
  | ThisProduct.

(** The two templates of [confirmMessage]: the save question (asking to
    update when [editingId] is set, to create otherwise) and the delete
    question. *)
Inductive Question : Type :=
  | AskSave (name : RecordName) (isUpdate : bool)
  | AskDelete (name : RecordName).

Record TuiState : Type := mkTui {
  currentView : View;
  selectedIndex : Z;
  searchFilter : string;
  isSearching : bool;
  formData : Obj;
  formStep : nat;
  editingId : option string;
  inputBuffer : string;
  confirmIndex : nat;
  previousView : option View;
  confirmAction : option Action;
  confirmMessage : option Question
}.

Definition initialTui : TuiState :=
  mkTui Main 0 "" false ∅ 0 None "" 0 None None None.

Definition set_currentView (x : View) (s : TuiState) : TuiState :=
  mkTui x (selectedIndex s) (searchFilter s) (isSearching s) (formData s)
    (formStep s) (editingId s) (inputBuffer s) (confirmIndex s) (previousView s)
    (confirmAction s) (confirmMessage s).

Definition set_selectedIndex (x : Z) (s : TuiState) : TuiState :=
  mkTui (currentView s) x (searchFilter s) (isSearching s) (formData s)
    (formStep s) (editingId s) (inputBuffer s) (confirmIndex s) (previousView s)
    (confirmAction s) (confirmMessage s).

Definition set_searchFilter (x : string) (s : TuiState) : TuiState :=
  mkTui (currentView s) (selectedIndex s) x (isSearching s) (formData s)
    (formStep s) (editingId s) (inputBuffer s) (confirmIndex s) (previousView s)
    (confirmAction s) (confirmMessage s).

Definition set_isSearching (x : bool) (s : TuiState) : TuiState :=
  mkTui (currentView s) (selectedIndex s) (searchFilter s) x (formData s)
    (formStep s) (editingId s) (inputBuffer s) (confirmIndex s) (previousView s)
    (confirmAction s) (confirmMessage s).

Definition set_formData (x : Obj) (s : TuiState) : TuiState :=
  mkTui (currentView s) (selectedIndex s) (searchFilter s) (isSearching s) x
    (formStep s) (editingId s) (inputBuffer s) (confirmIndex s) (previousView s)
    (confirmAction s) (confirmMessage s).

Definition set_formStep (x : nat) (s : TuiState) : TuiState :=
  mkTui (currentView s) (selectedIndex s) (searchFilter s) (isSearching s) (formData s)
    x (editingId s) (inputBuffer s) (confirmIndex s) (previousView s)
    (confirmAction s) (confirmMessage s).

Definition set_editingId (x : option string) (s : TuiState) : TuiState :=
  mkTui (currentView s) (selectedIndex s) (searchFilter s) (isSearching s) (formData s)
    (formStep s) x (inputBuffer s) (confirmIndex s) (previousView s)
    (confirmAction s) (confirmMessage s).

Definition set_inputBuffer (x : string) (s : TuiState) : TuiState :=
  mkTui (currentView s) (selectedIndex s) (searchFilter s) (isSearching s) (formData s)
    (formStep s) (editingId s) x (confirmIndex s) (previousView s)
    (confirmAction s) (confirmMessage s).

Definition set_confirmIndex (x : nat) (s : TuiState) : TuiState :=
  mkTui (currentView s) (selectedIndex s) (searchFilter s) (isSearching s) (formData s)
    (formStep s) (editingId s) (inputBuffer s) x (previousView s)
    (confirmAction s) (confirmMessage s).

Definition set_previousView (x : option View) (s : TuiState) : TuiState :=
  mkTui (currentView s) (selectedIndex s) (searchFilter s) (isSearching s) (formData s)
    (formStep s) (editingId s) (inputBuffer s) (confirmIndex s) x
    (confirmAction s) (confirmMessage s).

Definition set_confirmAction (x : option Action) (s : TuiState) : TuiState :=
  mkTui (currentView s) (selectedIndex s) (searchFilter s) (isSearching s) (formData s)
    (formStep s) (editingId s) (inputBuffer s) (confirmIndex s) (previousView s)
    x (confirmMessage s).

Definition set_confirmMessage (x : option Question) (s : TuiState) : TuiState :=
  mkTui (currentView s) (selectedIndex s) (searchFilter s) (isSearching s) (formData s)
    (formStep s) (editingId s) (inputBuffer s) (confirmIndex s) (previousView s)
    (confirmAction s) x.

(** ** Form definitions *)

Record Step : Type := mkStep {
  field : string;
  required : bool;
  isNumber : bool     (* [type: 'number'] *)
}.

Definition customerFormSteps : list Step :=
  [ mkStep "CustomerName" true false;
    mkStep "CustomerPhone" false false;
    mkStep "CustomerAddress" false false;
    mkStep "CustomerTCKN" false false;
    mkStep "CustomerVD" false false;
    mkStep "CustomerDebt" false true;
    mkStep "CustomerBalance" false true ].

Definition productFormSteps : list Step :=
  [ mkStep "ProductCode" true false;
    mkStep "Details" false false;
    mkStep "Barcode" false false;
    mkStep "Price" true true;
    mkStep "Category" false false;
    mkStep "ActualInventory" false true;
    mkStep "ReservedInventory" false true;
    mkStep "AwaitingInventory" false true ].

(** ** The world: session state, Store, timers and what the terminal saw *)

Inductive Entity : Type := Customers | Products.

Inductive StoreCall : Type :=
  | GetAll (t : Entity)
  | Create (t : Entity) (fields : Obj)
  | Update (t : Entity) (id : option string) (updates : Obj)
  | Remove (t : Entity) (id : option string)
  | CountRows (table : string).

Inductive FormTitle : Type :=
  | NewCustomerTitle | EditCustomerTitle | NewProductTitle | EditProductTitle.

(** The texts handed to [showMessage]. *)
Inductive Notice : Type :=
  | CustomerUpdated | CustomerCreated | ProductUpdated | ProductCreated
  | CustomerDeleted | ProductDeleted
  | SaveFailed (e : JsError)       (* [`❌ Hata: ${error.message}`] *)
  | DeleteFailed (e : JsError).    (* [`❌ Silme hatası: ${error.message}`] *)

(** One call of a draw function, with its arguments.  The draw functions
    only write to the terminal; none assigns to [tuiState]. *)
Inductive Screen : Type :=
  | MainMenuScreen
  | ListScreen (isCustomer : bool) (records : list Obj)
  | FormScreen (title : FormTitle) (steps : list Step) (isEdit : bool)
  | ConfirmScreen (message : option Question) (action : Action)
  | MessageScreen (notice : Notice) (isError : bool)
  | StatsScreen (counts : list nat).

(** The callbacks handed to [setTimeout]. *)
Inductive Callback : Type := MessageReturn | StatsReturn.

Record Timer : Type := mkTimer { due : N; callback : Callback }.

Inductive Effect : Type :=
  | Paint (scr : Screen)
  | Store (call : StoreCall)
  | Cleanup
  | Fired (cb : Callback).

Inductive Status : Type := Running | Exited | Crashed.

#[global] Instance Status_eq_dec : EqDecision Status.
Proof. solve_decision. Defined.

Record World : Type := mkWorld {
  tui : TuiState;
  db : Db;
  uuidSeed : N;          (* identifiers handed out by [crypto.randomUUID] *)
  clock : N;             (* milliseconds since the process started *)
  timers : list Timer;   (* pending [setTimeout] callbacks, oldest first *)
  log : list Effect;     (* Store calls and repaints, oldest first *)
  status : Status
}.

Definition modify (f : TuiState -> TuiState) (w : World) : World :=
  mkWorld (f (tui w)) (db w) (uuidSeed w) (clock w) (timers w) (log w) (status w).

Definition set_db (d : Db) (w : World) : World :=
  mkWorld (tui w) d (uuidSeed w) (clock w) (timers w) (log w) (status w).

Definition set_uuidSeed (n : N) (w : World) : World :=
  mkWorld (tui w) (db w) n (clock w) (timers w) (log w) (status w).

Definition set_clock (t : N) (w : World) : World :=
  mkWorld (tui w) (db w) (uuidSeed w) t (timers w) (log w) (status w).

Definition set_timers (ts : list Timer) (w : World) : World :=
  mkWorld (tui w) (db w) (uuidSeed w) (clock w) ts (log w) (status w).

Definition set_status (st : Status) (w : World) : World :=
  mkWorld (tui w) (db w) (uuidSeed w) (clock w) (timers w) (log w) st.

Definition emit (e : Effect) (w : World) : World :=
  mkWorld (tui w) (db w) (uuidSeed w) (clock w) (timers w) (log w ++ [e]) (status w).

(** [setTimeout(cb, delay)]; the handle it returns is dropped by every
    caller and the source never calls [clearTimeout]. *)
Definition setTimeout (cb : Callback) (delay : N) (w : World) : World :=
  set_timers (timers w ++ [mkTimer (clock w + delay) cb]) w.

Notation "w |> f" := (f w) (at level 45, left associativity, only parsing).

(** A statement sequence either runs to its end or throws, leaving the
    world as the statements before the throw made it. *)
Inductive Outcome : Type :=
  | Done (w : World)
  | Threw (e : JsError) (w : World).

Definition andThen (o : Outcome) (k : World -> Outcome) : Outcome :=
  match o with
  | Done w => k w
  | Threw e w => Threw e w
  end.

Notation "o >>> k" := (andThen o k) (at level 50, left associativity).

(** An exception that reaches the event loop ends the process. *)
Definition uncaught (o : Outcome) : World :=
  match o with
  | Done w => w
  | Threw _ w => set_status Crashed w
  end.

(** ** Keys, as the strings [data.toString()] yields *)

Module Key.
Definition ctrlC : string := String "003" "".
Definition ctrlD : string := String "004" "".
Definition ctrlN : string := String "014" "".
Definition ctrlS : string := String "019" "".
Definition esc : string := String "027" "".
Definition up : string := String "027" "[A".
Definition down : string := String "027" "[B".
Definition right : string := String "027" "[C".
Definition left : string := String "027" "[D".
Definition cr : string := String "013" "".
Definition lf : string := String "010" "".
Definition tab : string := String "009" "".
Definition del : string := String "127" "".
Definition bs : string := String "008" "".

(** [key === '\r' || key === '\n']. *)
Definition isEnter (key : string) : bool :=
  bool_decide (key = cr) || bool_decide (key = lf).

(** [key === '\x7f' || key === '\b']. *)
Definition isBackspace (key : string) : bool :=
  bool_decide (key = del) || bool_decide (key = bs).

(** [key.length === 1 && key >= ' ']. *)
Definition isPrintable (key : string) : bool :=
  match key with
  | String c EmptyString => (32 <=? Js.code c)%N
  | _ => false
  end.
End Key.

(** ** Draw functions

    Each is recorded as one [Paint] with its arguments; the title handed
    to [drawListView] is fixed by [isCustomer] at every call site and is
    left out. *)

Definition drawMainMenu (w : World) : World := emit (Paint MainMenuScreen) w.

Definition drawListView (records : list Obj) (isCustomer : bool) (w : World) : World :=
  emit (Paint (ListScreen isCustomer records)) w.

Definition drawForm (title : FormTitle) (steps : list Step) (isEdit : bool) (w : World)
  : World :=
  emit (Paint (FormScreen title steps isEdit)) w.

Definition drawConfirmation (message : option Question) (action : Action) (w : World)
  : World :=
  emit (Paint (ConfirmScreen message action)) w.

(** The rows [drawListView] puts on the screen when the filtered list is
    not empty, [rows] being [process.stdout.rows]: a window of [rows - 6]
    records that starts [Math.floor(maxRows / 2)] above the cursor.  A row
    is highlighted when it is the cursor's and the list is not being
    searched. *)
Definition startIndex (rows selectedIndex : Z) : Z :=
  let maxRows := rows - 6 in
  Z.max 0 (selectedIndex - maxRows / 2).

Definition visibleRecords (rows selectedIndex : Z) (filteredRecords : list Obj)
  : list Obj :=
  let maxRows := rows - 6 in
  let first := startIndex rows selectedIndex in
  Js.slice filteredRecords first (first + maxRows).

(** [isSelected] of the row at position [index] of the window. *)
Definition isSelected (rows : Z) (s : TuiState) (index : nat) : bool :=
  let actualIndex := startIndex rows (selectedIndex s) + Z.of_nat index in
  bool_decide (actualIndex = selectedIndex s) && negb (isSearching s).

(** ** The list filter *)

Definition matchesAny (fields : list string) (term : string) (record : Obj) : bool :=
  existsb (fun f => Js.includes (Js.toLowerCase (textOrEmpty (record !! f))) term) fields.

Definition filterFields (isCustomer : bool) : list string :=
  if isCustomer then ["CustomerName"; "CustomerPhone"; "CustomerTCKN"]
  else ["ProductCode"; "Details"; "Barcode"].

Definition filterRecords (records : list Obj) (searchTerm : string) (isCustomer : bool)
  : list Obj :=
  if bool_decide (searchTerm = "") then records
  else
    let term := Js.toLowerCase searchTerm in
    List.filter (matchesAny (filterFields isCustomer) term) records.

(** ** The list filter, with the exception of its callback

    [(record.f || '')] is [record.f] when that is truthy, and
    [.toLowerCase()] on a value that is no string throws a TypeError,
    which ends [filter] at that record.  The [||] between the three fields
    reads them in order and stops at the first that matches. *)

Module Throwing.

Definition lowerText (v : option value) : JsError + string :=
  match orElse v (Some (VStr "")) with
  | Some (VStr s) => inr (Js.toLowerCase s)
  | _ => inl TypeError
  end.

Fixpoint matchesAny (fields : list string) (term : string) (record : Obj)
  : JsError + bool :=
  match fields with
  | [] => inr false
  | f :: rest =>
      match lowerText (record !! f) with
      | inl e => inl e
      | inr s => if Js.includes s term then inr true else matchesAny rest term record
      end
  end.

(** [Array.prototype.filter] with a callback that may throw. *)
Fixpoint filter (keep : Obj -> JsError + bool) (records : list Obj)
  : JsError + list Obj :=
  match records with
  | [] => inr []
  | r :: rest =>
      match keep r with
      | inl e => inl e
      | inr b =>
          match filter keep rest with
          | inl e => inl e
          | inr kept => inr (if b then r :: kept else kept)
          end
      end
  end.

Definition filterRecords (records : list Obj) (searchTerm : string) (isCustomer : bool)
  : JsError + list Obj :=
  if bool_decide (searchTerm = "") then inr records
  else
    let term := Js.toLowerCase searchTerm in
    filter (matchesAny (filterFields isCustomer) term) records.

End Throwing.

(** ** The list filter on Turkish text

    The strings of this development are Latin-1.  The texts of the
    application are Turkish, and six letters of that alphabet lie outside
    Latin-1; on one of them [toLowerCase] gives two code units.
    [filterRecords] (lines 821-836) is embedded a second time here, over
    strings of the code units of Latin-1, of those six letters and of the
    combining dot that [toLowerCase] produces; a record is its text
    fields, an absent field being NULL. *)

Module Turkish.

Inductive letter : Type :=
  | Latin1 (c : ascii)
  | CapitalG         (* U+011E, G with breve *)
  | SmallG           (* U+011F, g with breve *)
  | CapitalDottedI   (* U+0130, I with dot above *)
  | SmallDotlessI    (* U+0131, dotless i *)
  | CapitalS         (* U+015E, S with cedilla *)
  | SmallS           (* U+015F, s with cedilla *)
  | CombiningDot.    (* U+0307, combining dot above *)

#[global] Instance letter_eq_dec : EqDecision letter.
Proof. solve_decision. Defined.

Definition text : Type := list letter.

Definition Row : Type := gmap string text.

(** [String.prototype.toLowerCase] on one code unit: U+0130 becomes [i]
    followed by U+0307; [I] becomes [i], as every letter of Latin-1 does. *)
Definition lowerLetter (l : letter) : text :=
  match l with
  | Latin1 c => [Latin1 (Js.lowerChar c)]
  | CapitalG => [SmallG]
  | CapitalDottedI => [Latin1 "i"; CombiningDot]
  | CapitalS => [SmallS]
  | SmallG | SmallDotlessI | SmallS | CombiningDot => [l]
  end.

Definition toLowerCase (s : text) : text := flat_map lowerLetter s.

Fixpoint startsWith (s t : text) {struct t} : bool :=
  match t, s with
  | [], _ => true
  | a :: t', b :: s' => if decide (a = b) then startsWith s' t' else false
  | _ :: _, [] => false
  end.

Fixpoint includes (s t : text) : bool :=
  startsWith s t ||
  match s with
  | [] => false
  | _ :: s' => includes s' t
  end.

Definition matchesAny (fields : list string) (term : text) (record : Row) : bool :=
  existsb (fun f => includes (toLowerCase (default [] (record !! f))) term) fields.

Definition filterRecords (records : list Row) (searchTerm : text) (isCustomer : bool)
  : list Row :=
  if bool_decide (searchTerm = []) then records
  else
    let term := toLowerCase searchTerm in
    List.filter (matchesAny (filterFields isCustomer) term) records.

End Turkish.

(** ** Store calls made by the controller *)

Definition entityOf (isCustomer : bool) : Entity :=
  if isCustomer then Customers else Products.

(** [customerOps.getAll()] or [productOps.getAll()]. *)
Definition getAll (isCustomer : bool) (w : World) : list Obj :=
  if isCustomer then customerOps.getAll (db w) else productOps.getAll (db w).

(** [drawListView(title, ops.getAll(), isCustomer)]. *)
Definition drawFreshList (isCustomer : bool) (w : World) : World :=
  w |> emit (Store (GetAll (entityOf isCustomer)))
    |> drawListView (getAll isCustomer w) isCustomer.

(** The seven assignments that enter a list view (lines 1038-1044,
    1173-1179, 1182-1188, 1263-1269, 1273-1279). *)
Definition enterList (isCustomer : bool) (s : TuiState) : TuiState :=
  s |> set_currentView (if isCustomer then CustomerList else ProductList)
    |> set_selectedIndex 0
    |> set_isSearching false
    |> set_searchFilter ""
    |> set_inputBuffer ""
    |> set_editingId None
    |> set_formData ∅.

Definition cleanup (w : World) : World := emit Cleanup w.

(** [process.exit(0)], which also runs the ['exit'] listener [cleanup]. *)
Definition processExit (w : World) : World :=
  w |> cleanup |> set_status Exited.

(** ** Transient screens *)

Definition showMessage (notice : Notice) (isError : bool) (w : World) : World :=
  w |> emit (Paint (MessageScreen notice isError))
    |> setTimeout MessageReturn 2000.

(** The callback of [showMessage] (lines 1033-1056). *)
Definition messageReturn (w : World) : World :=
  let wasCustomerOperation :=
    bool_decide (previousView (tui w) = Some CustomerForm) in
  w |> modify (enterList wasCustomerOperation)
    |> drawFreshList wasCustomerOperation.

Definition showStats (w : World) : World :=
  w |> emit (Store (CountRows "customers"))
    |> emit (Store (CountRows "products"))
    |> emit (Store (CountRows "orders"))
    |> emit (Store (CountRows "payments"))
    |> emit (Paint (StatsScreen
         [length (customers (db w)); length (products (db w));
          length (orders (db w)); length (payments (db w))]))
    |> setTimeout StatsReturn 3000.

(** The callback of [showStats] (lines 1520-1524). *)
Definition statsReturn (w : World) : World :=
  w |> modify (fun s => s |> set_currentView Main |> set_selectedIndex 0)
    |> drawMainMenu.

Definition runCallback (cb : Callback) (w : World) : World :=
  match cb with
  | MessageReturn => messageReturn w
  | StatsReturn => statsReturn w
  end.

(** ** The form controller *)

Definition stepsOf (v : View) : list Step :=
  if bool_decide (v = CustomerForm) then customerFormSteps else productFormSteps.

(** The commit of the current field, written out three times in the
    source (lines 1066-1070, 1085-1089, 1433-1437). *)
Definition commitField (currentStep : Step) (s : TuiState) : TuiState :=
  if isNumber currentStep && negb (bool_decide (inputBuffer s = "")) then
    let parsed := Js.parseFloat (inputBuffer s) in
    set_formData
      (<[field currentStep := VNum (if Js.truthyNum parsed then parsed else Js.zero)]>
         (formData s)) s
  else
    set_formData (<[field currentStep := VStr (inputBuffer s)]> (formData s)) s.

(** [steps[i]] followed by a property read: a [TypeError] when [i] is
    out of range. *)
Definition stepAt (steps : list Step) (i : nat) (w : World) (k : Step -> Outcome)
  : Outcome :=
  match steps !! i with
  | Some st => k st
  | None => Threw TypeError w
  end.

Definition seedBuffer (st : Step) (s : TuiState) : TuiState :=
  set_inputBuffer (stringOrEmpty (formData s !! field st)) s.

Definition moveToNextField (w : World) : Outcome :=
  let steps := stepsOf (currentView (tui w)) in
  stepAt steps (formStep (tui w)) w (fun currentStep =>
  let w1 := modify (commitField currentStep) w in
  if (formStep (tui w1) <? length steps - 1)%nat then
    let w2 := modify (fun s => set_formStep (formStep s + 1) s) w1 in
    stepAt steps (formStep (tui w2)) w2 (fun nextStep =>
    Done (modify (seedBuffer nextStep) w2))
  else Done w1).

Definition moveToPrevField (w : World) : Outcome :=
  let steps := stepsOf (currentView (tui w)) in
  stepAt steps (formStep (tui w)) w (fun currentStep =>
  let w1 := modify (commitField currentStep) w in
  if (0 <? formStep (tui w1))%nat then
    let w2 := modify (fun s => set_formStep (formStep s - 1) s) w1 in
    stepAt steps (formStep (tui w2)) w2 (fun prevStep =>
    Done (modify (seedBuffer prevStep) w2))
  else Done w1).

(** Truthiness of [editingId]. *)
Definition truthyId (id : option string) : bool :=
  match id with
  | Some i => negb (bool_decide (i = ""))
  | None => false
  end.

(** The title [handleFormView] and [returnToForm] compute before
    [drawForm]. *)
Definition formTitle (s : TuiState) : FormTitle :=
  if bool_decide (currentView s = CustomerForm)
  then (if truthyId (editingId s) then EditCustomerTitle else NewCustomerTitle)
  else (if truthyId (editingId s) then EditProductTitle else NewProductTitle).

Definition redrawForm (steps : list Step) (w : World) : World :=
  drawForm (formTitle (tui w)) steps (truthyId (editingId (tui w))) w.

Definition handleFormView (key : string) (w : World) : Outcome :=
  let steps := stepsOf (currentView (tui w)) in
  if bool_decide (key = Key.up) then
    moveToPrevField w >>> fun w1 => Done (redrawForm steps w1)
  else if bool_decide (key = Key.down) then
    moveToNextField w >>> fun w1 => Done (redrawForm steps w1)
  else if bool_decide (key = Key.tab) || Key.isEnter key then
    moveToNextField w >>> fun w1 => Done (redrawForm steps w1)
  else if Key.isBackspace key then
    if (0 <? String.length (inputBuffer (tui w)))%nat then
      Done (w |> modify (fun s => set_inputBuffer (Js.dropLast (inputBuffer s)) s)
              |> redrawForm steps)
    else Done w
  else if Key.isPrintable key then
    Done (w |> modify (fun s => set_inputBuffer (inputBuffer s +:+ key) s)
            |> redrawForm steps)
  else Done w.

(** ** The main menu *)

Definition openList (isCustomer : bool) (w : World) : World :=
  w |> modify (enterList isCustomer) |> drawFreshList isCustomer.

Definition handleMainMenu (key : string) (w : World) : World :=
  if bool_decide (key = Key.up) then
    w |> modify (fun s => set_selectedIndex (Z.max 0 (selectedIndex s - 1)) s)
      |> drawMainMenu
  else if bool_decide (key = Key.down) then
    w |> modify (fun s => set_selectedIndex (Z.min 3 (selectedIndex s + 1)) s)
      |> drawMainMenu
  else if Key.isEnter key then
    match selectedIndex (tui w) with
    | 0 => openList true w
    | 1 => openList false w
    | 2 => showStats w
    | 3 => processExit (cleanup w)
    | _ => w
    end
  else w.

(** ** List views *)

(** [records[i]] for an integer [i]. *)
Definition at_index {A} (l : list A) (i : Z) : option A :=
  if i <? 0 then None else l !! Z.to_nat i.

(** [selectedRecord.id]; the [id] column is TEXT. *)
Definition idOf (record : Obj) : option string :=
  match record !! "id" with
  | Some (VStr i) => Some i
  | _ => None
  end.

Definition handleListView (key : string) (w : World) : Outcome :=
  let isCustomer := bool_decide (currentView (tui w) = CustomerList) in
  let records := getAll isCustomer w in
  let w := emit (Store (GetAll (entityOf isCustomer))) w in
  let filteredRecords := filterRecords records (searchFilter (tui w)) isCustomer in
  if isSearching (tui w) then
    if Key.isEnter key then
      Done (w |> modify (fun s =>
                   s |> set_isSearching false
                     |> set_searchFilter (inputBuffer s)
                     |> set_selectedIndex 0
                     |> set_inputBuffer "")
              |> drawListView records isCustomer)
    else if Key.isBackspace key then
      if (0 <? String.length (inputBuffer (tui w)))%nat then
        Done (w |> modify (fun s =>
                     s |> set_inputBuffer (Js.dropLast (inputBuffer s))
                       |> (fun s => set_searchFilter (inputBuffer s) s)
                       |> set_selectedIndex 0)
                |> drawListView records isCustomer)
      else Done w
    else if Key.isPrintable key then
      Done (w |> modify (fun s =>
                   s |> set_inputBuffer (inputBuffer s +:+ key)
                     |> (fun s => set_searchFilter (inputBuffer s) s)
                     |> set_selectedIndex 0)
              |> drawListView records isCustomer)
    else Done w
  else
    if bool_decide (key = Key.up) && (0 <? length filteredRecords)%nat then
      Done (w |> modify (fun s => set_selectedIndex (Z.max 0 (selectedIndex s - 1)) s)
              |> drawListView records isCustomer)
    else if bool_decide (key = Key.down) && (0 <? length filteredRecords)%nat then
      Done (w |> modify (fun s =>
                   set_selectedIndex
                     (Z.min (Z.of_nat (length filteredRecords) - 1) (selectedIndex s + 1)) s)
              |> drawListView records isCustomer)
    else if Key.isEnter key then
      if (0 <? length filteredRecords)%nat then
        match at_index filteredRecords (selectedIndex (tui w)) with
        | None => Threw TypeError w
        | Some selectedRecord =>
            let w1 :=
              modify (fun s =>
                s |> set_editingId (idOf selectedRecord)
                  |> set_formData selectedRecord
                  |> set_formStep 0) w in
            if isCustomer then
              Done (w1 |> modify (set_currentView CustomerForm)
                       |> modify (fun s =>
                            set_inputBuffer (stringOrEmpty (formData s !! "CustomerName")) s)
                       |> drawForm EditCustomerTitle customerFormSteps true)
            else
              Done (w1 |> modify (set_currentView ProductForm)
                       |> modify (fun s =>
                            set_inputBuffer (stringOrEmpty (formData s !! "ProductCode")) s)
                       |> drawForm EditProductTitle productFormSteps true)
        end
      else Done w
    else if Key.isPrintable key then
      Done (w |> modify (fun s =>
                   s |> set_isSearching true
                     |> set_inputBuffer key
                     |> set_searchFilter key
                     |> set_selectedIndex 0)
              |> drawListView records isCustomer)
    else Done w.

(** ** The confirmation gate *)

Definition isCustomerForm (v : option View) : bool :=
  bool_decide (v = Some CustomerForm).

Definition isProductForm (v : option View) : bool :=
  bool_decide (v = Some ProductForm).

(** The body of the [try] block of [executeFormSave]; its guard
    [inputBuffer !== undefined] always holds, [inputBuffer] being a
    string. *)
Definition saveBody (w : World) : Outcome :=
  let steps :=
    if isCustomerForm (previousView (tui w)) then customerFormSteps
    else productFormSteps in
  stepAt steps (formStep (tui w)) w (fun currentStep =>
  let w1 := modify (commitField currentStep) w in
  let id := editingId (tui w1) in
  let data := formData (tui w1) in
  if isCustomerForm (previousView (tui w1)) then
    if truthyId id then
      let w2 := emit (Store (Update Customers id data)) w1 in
      match customerOps.update id data (db w2) with
      | inl e => Threw (SqliteError e) w2
      | inr (_, db') => Done (w2 |> set_db db' |> showMessage CustomerUpdated false)
      end
    else
      let w2 := w1 |> emit (Store (Create Customers data))
                   |> set_uuidSeed (uuidSeed w1 + 1) in
      match customerOps.create data (uuidSeed w1) (db w2) with
      | inl e => Threw (SqliteError e) w2
      | inr (_, db') => Done (w2 |> set_db db' |> showMessage CustomerCreated false)
      end
  else if isProductForm (previousView (tui w1)) then
    if truthyId id then
      let w2 := emit (Store (Update Products id data)) w1 in
      match productOps.update id data (db w2) with
      | inl e => Threw (SqliteError e) w2
      | inr (_, db') => Done (w2 |> set_db db' |> showMessage ProductUpdated false)
      end
    else
      let w2 := w1 |> emit (Store (Create Products data))
                   |> set_uuidSeed (uuidSeed w1 + 1) in
      match productOps.create data (uuidSeed w1) (db w2) with
      | inl e => Threw (SqliteError e) w2
      | inr (_, db') => Done (w2 |> set_db db' |> showMessage ProductCreated false)
      end
  else Done w1).

Definition executeFormSave (w : World) : World :=
  match saveBody w with
  | Done w' => w'
  | Threw e w' => showMessage (SaveFailed e) true w'
  end.

(** [executeFormDelete]: neither DELETE statement can fail in the model,
    so the [catch] branch of the source has no counterpart. *)
Definition executeFormDelete (w : World) : World :=
  let id := editingId (tui w) in
  if isCustomerForm (previousView (tui w)) then
    let w1 := emit (Store (Remove Customers id)) w in
    w1 |> set_db (customerOps.delete id (db w1)).2
       |> showMessage CustomerDeleted false
  else if isProductForm (previousView (tui w)) then
    let w1 := emit (Store (Remove Products id)) w in
    w1 |> set_db (productOps.delete id (db w1)).2
       |> showMessage ProductDeleted false
  else w.

(** Back to the form at [formStep], with the buffer read from [formData];
    [title] and [isEdit] are what the caller hands to [drawForm]. *)
Definition reopenForm (v : View) (title : TuiState -> FormTitle)
    (isEdit : TuiState -> bool) (w : World) : Outcome :=
  let w1 := modify (set_currentView v) w in
  let steps := stepsOf v in
  stepAt steps (formStep (tui w1)) w1 (fun st =>
  let w2 := modify (seedBuffer st) w1 in
  Done (drawForm (title (tui w2)) steps (isEdit (tui w2)) w2)).

Definition returnToForm (w : World) : Outcome :=
  if isCustomerForm (previousView (tui w)) then
    reopenForm CustomerForm formTitle (fun s => truthyId (editingId s)) w
  else if isProductForm (previousView (tui w)) then
    reopenForm ProductForm formTitle (fun s => truthyId (editingId s)) w
  else Done w.

Definition redrawConfirmation (w : World) : World :=
  drawConfirmation (confirmMessage (tui w))
    (default Save (confirmAction (tui w))) w.

Definition handleConfirmation (key : string) (w : World) : Outcome :=
  if bool_decide (key = Key.left) then
    Done (w |> modify (set_confirmIndex 0) |> redrawConfirmation)
  else if bool_decide (key = Key.right) then
    Done (w |> modify (set_confirmIndex 1) |> redrawConfirmation)
  else if Key.isEnter key then
    if bool_decide (confirmIndex (tui w) = 1%nat) then
      match confirmAction (tui w) with
      | Some Save => Done (executeFormSave w)
      | Some Delete => Done (executeFormDelete w)
      | None => Done w
      end
    else returnToForm w
  else Done w.

(** ** Keyboard handling *)

(** [formData.CustomerName || 'Bu müşteriyi'], or the product twin. *)
Definition recordName (s : TuiState) : RecordName :=
  let k := if bool_decide (currentView s = CustomerForm)
           then "CustomerName" else "ProductCode" in
  match formData s !! k with
  | Some v => if truthy (Some v) then Named v
              else if bool_decide (currentView s = CustomerForm)
                   then ThisCustomer else ThisProduct
  | None => if bool_decide (currentView s = CustomerForm)
            then ThisCustomer else ThisProduct
  end.

(** The assignments shared by the Ctrl+S and Ctrl+D branches. *)
Definition openConfirmation (a : Action) (q : Question) (index : nat) (w : World)
  : World :=
  w |> modify (fun s =>
         s |> set_previousView (Some (currentView s))
           |> set_currentView ConfirmAction
           |> set_confirmAction (Some a)
           |> set_confirmMessage (Some q)
           |> set_confirmIndex index)
    |> drawConfirmation (Some q) a.

Definition newForm (isCustomer : bool) (w : World) : World :=
  w |> modify (fun s =>
         s |> set_currentView (if isCustomer then CustomerForm else ProductForm)
           |> set_formData ∅
           |> set_formStep 0
           |> set_editingId None
           |> set_inputBuffer "")
    |> drawForm (if isCustomer then NewCustomerTitle else NewProductTitle)
         (if isCustomer then customerFormSteps else productFormSteps) false.

(** The [ESC] branch (lines 1166-1232). *)
Definition handleEscape (w : World) : Outcome :=
  let s := tui w in
  if bool_decide (currentView s = Main) then Done (processExit (cleanup w))
  else if endsWithForm (currentView s) then
    Done (openList (bool_decide (currentView s = CustomerForm)) w)
  else if bool_decide (currentView s = ConfirmAction) then
    if isCustomerForm (previousView s) then
      reopenForm CustomerForm (fun _ => EditCustomerTitle) (fun _ => true) w
    else if isProductForm (previousView s) then
      reopenForm ProductForm (fun _ => EditProductTitle) (fun _ => true) w
    else Done w
  else if endsWithList (currentView s) then
    if isSearching s then
      Done (w |> modify (fun s =>
                   s |> set_isSearching false
                     |> set_inputBuffer ""
                     |> set_searchFilter ""
                     |> set_selectedIndex 0)
              |> drawFreshList (bool_decide (currentView s = CustomerList)))
    else
      Done (w |> modify (fun s =>
                   s |> set_currentView Main
                     |> set_selectedIndex 0
                     |> set_inputBuffer ""
                     |> set_searchFilter ""
                     |> set_editingId None
                     |> set_formData ∅)
              |> drawMainMenu)
  else
    Done (w |> modify (fun s => s |> set_currentView Main |> set_selectedIndex 0)
            |> drawMainMenu).

(** The [switch] on [currentView] that ends [handleKeyPress]. *)
Definition dispatch (key : string) (w : World) : Outcome :=
  match currentView (tui w) with
  | Main => Done (handleMainMenu key w)
  | CustomerList | ProductList => handleListView key w
  | CustomerForm | ProductForm => handleFormView key w
  | ConfirmAction => handleConfirmation key w
  end.

Definition handleKeyPress (data : string) (w : World) : World :=
  let key := data in
  let s := tui w in
  uncaught (
    if bool_decide (key = Key.ctrlC) then Done (processExit (cleanup w))
    else if bool_decide (key = Key.ctrlS) && endsWithForm (currentView s) then
      Done (openConfirmation Save
              (AskSave (recordName s) (truthyId (editingId s))) 1 w)
    else if bool_decide (key = Key.ctrlD) && endsWithForm (currentView s)
            && truthyId (editingId s) then
      Done (openConfirmation Delete (AskDelete (recordName s)) 0 w)
    else if bool_decide (key = Key.ctrlN) && endsWithList (currentView s) then
      Done (newForm (bool_decide (currentView s = CustomerList)) w)
    else if bool_decide (key = Key.esc) then handleEscape w
    else dispatch key w).

(** ** The event loop

    The runtime delivers key data to [handleKeyPress] and runs a pending
    callback once its delay has passed, one event at a time; nothing is
    delivered to a process that has ended.  The [resize] listener, which
    repaints the menu or the list from a fresh read of the Store and
    writes nothing, and the [SIGINT] listener, which raw mode keeps from
    firing on Ctrl+C, are left out. *)

Inductive Event : Type :=
  | KeyData (data : string)
  | Elapse (ms : N).

(** The pending timer that is due first, the oldest among equals. *)
Fixpoint earliest (ts : list Timer) : option Timer :=
  match ts with
  | [] => None
  | t :: r =>
      match earliest r with
      | Some u => if (due u <? due t)%N then Some u else Some t
      | None => Some t
      end
  end.

#[global] Instance Callback_eq_dec : EqDecision Callback.
Proof. solve_decision. Defined.

#[global] Instance Timer_eq_dec : EqDecision Timer.
Proof. solve_decision. Defined.

Fixpoint removeFirst (t : Timer) (ts : list Timer) : list Timer :=
  match ts with
  | [] => []
  | u :: r => if bool_decide (u = t) then r else u :: removeFirst t r
  end.

(** Run the callbacks that are due, earliest first. *)
Fixpoint fireDue (fuel : nat) (w : World) : World :=
  match fuel with
  | O => w
  | S fuel' =>
      match earliest (timers w) with
      | Some t =>
          if (due t <=? clock w)%N && bool_decide (status w = Running) then
            fireDue fuel'
              (w |> set_timers (removeFirst t (timers w))
                 |> emit (Fired (callback t))
                 |> runCallback (callback t))
          else w
      | None => w
      end
  end.

Definition deliver (ev : Event) (w : World) : World :=
  if bool_decide (status w = Running) then
    match ev with
    | KeyData data => handleKeyPress data w
    | Elapse ms =>
        let w1 := set_clock (clock w + ms) w in
        fireDue (length (timers w1)) w1
    end
  else w.

Definition run (evs : list Event) (w : World) : World :=
  fold_left (fun w ev => deliver ev w) evs w.

Definition keys (ks : list string) : list Event := map KeyData ks.

(** [startRawTui]: the initial draw of a fresh session. *)
Definition startRawTui (d : Db) : World :=
  drawMainMenu (mkWorld initialTui d 0 0 [] [] Running).

(** ** The REST interface

    [fetch] routes a request to [handleCustomers] or [handleProducts],
    which answer from the same Store as the terminal.  A request is its
    method, the path of its URL and what [req.json()] finds in its body;
    a response is its status, its headers and the data it carries.  The
    [logger] calls, which write to files the handlers never read, are left
    out, and so is the timestamp of the health answer. *)

Module Http.

(** The body as [await req.json()] reads it: text that is not JSON, [null]
    or an object.  JSON scalars and arrays are outside the model. *)
Inductive Body : Type :=
  | NotJson
  | JsonNull
  | JsonObject (fields : Obj).

Record Request : Type := mkRequest {
  method : string;
  pathname : string;      (* [new URL(req.url).pathname] *)
  body : Body
}.

Inductive Payload : Type :=
  | Row (record : Obj)
  | Rows (records : list Obj)
  | ErrorMessage (error : string)    (* [{ error }] *)
  | Success                          (* [{ success: true }] *)
  | Healthy                          (* [{ status: 'healthy', timestamp }] *)
  | Documentation                    (* [getDocumentationHTML()] *)
  | NoContent.                       (* [null] *)

Record Response : Type := mkResponse {
  status : Z;
  headers : list (string * string);
  payload : Payload
}.

Definition apiResponse (data : Payload) (status : Z) : Response :=
  mkResponse status [("Content-Type", "application/json")] data.

(** What a handler can throw: the [SyntaxError] of [req.json()], or an
    error of the Store and of property reads. *)
Inductive Exception : Type :=
  | SyntaxError
  | Thrown (e : JsError).

(** A computation over the world that returns or throws. *)
Definition Handler (A : Type) : Type := World -> (Exception + A) * World.

#[global] Instance handler_ret : MRet Handler := fun A a w => (inr a, w).

#[global] Instance handler_bind : MBind Handler := fun A B k m w =>
  match m w with
  | (inr a, w') => k a w'
  | (inl e, w') => (inl e, w')
  end.

Definition throw {A} (e : Exception) : Handler A := fun w => (inl e, w).

(** [try { m } catch (error) { h }]. *)
Definition tryCatch {A} (m : Handler A) (h : Exception -> Handler A) : Handler A :=
  fun w =>
    match m w with
    | (inl e, w') => h e w'
    | (inr a, w') => (inr a, w')
    end.

(** The operations of one table, as [customerOps] and [productOps] offer
    them, with the name the handler's messages use. *)
Record StoreOps : Type := mkOps {
  getAll : Db -> list Obj;
  getById : option string -> Db -> option Obj;
  create : Obj -> N -> Db -> SqlError + (Obj * Db);
  update : option string -> Obj -> Db -> SqlError + (option Obj * Db);
  delete : option string -> Db -> bool * Db;
  notFound : string
}.

Definition customerStore : StoreOps :=
  mkOps customerOps.getAll customerOps.getById customerOps.create
    customerOps.update customerOps.delete "Customer not found".

Definition productStore : StoreOps :=
  mkOps productOps.getAll productOps.getById productOps.create
    productOps.update productOps.delete "Product not found".

(** [await req.json()]; [None] is the value [null]. *)
Definition json (req : Request) : Handler (option Obj) :=
  match body req with
  | NotJson => throw SyntaxError
  | JsonNull => mret None
  | JsonObject o => mret (Some o)
  end.

Definition read {A} (f : Db -> A) : Handler A := fun w => (inr (f (db w)), w).

(** [ops.create(record)]: the identifier is drawn first; reading a
    property of [null] throws before the statement runs. *)
Definition callCreate (ops : StoreOps) (record : option Obj) : Handler Obj :=
  fun w =>
    let w1 := set_uuidSeed (uuidSeed w + 1) w in
    match record with
    | None => (inl (Thrown TypeError), w1)
    | Some r =>
        match create ops r (uuidSeed w) (db w) with
        | inl e => (inl (Thrown (SqliteError e)), w1)
        | inr (created, db') => (inr created, set_db db' w1)
        end
    end.

(** [ops.update(id, updates)]: [null] updates are read only once the
    record has been found. *)
Definition callUpdate (ops : StoreOps) (id : option string) (updates : option Obj)
  : Handler (option Obj) :=
  fun w =>
    match updates with
    | Some u =>
        match update ops id u (db w) with
        | inl e => (inl (Thrown (SqliteError e)), w)
        | inr (updated, db') => (inr updated, set_db db' w)
        end
    | None =>
        match getById ops id (db w) with
        | None => (inr None, w)
        | Some _ => (inl (Thrown TypeError), w)
        end
    end.

Definition callDelete (ops : StoreOps) (id : option string) : Handler bool :=
  fun w => let '(deleted, db') := delete ops id (db w) in (inr deleted, set_db db' w).

(** The text shared by [handleCustomers] and [handleProducts]. *)
Definition handle (ops : StoreOps) (req : Request) (pathParts : list string)
  : Handler Response :=
  let id := pathParts !! 3%nat in
  tryCatch
    (if bool_decide (method req = "GET") then
       if truthyId id then
         found ← read (getById ops id);
         mret (match found with
               | Some record => apiResponse (Row record) 200
               | None => apiResponse (ErrorMessage (notFound ops)) 404
               end)
       else
         records ← read (getAll ops);
         mret (apiResponse (Rows records) 200)
     else if bool_decide (method req = "POST") then
       newRecord ← json req;
       created ← callCreate ops newRecord;
       mret (apiResponse (Row created) 201)
     else if bool_decide (method req = "PUT") then
       if negb (truthyId id) then mret (apiResponse (ErrorMessage "ID required") 400)
       else
         updates ← json req;
         updated ← callUpdate ops id updates;
         mret (match updated with
               | Some record => apiResponse (Row record) 200
               | None => apiResponse (ErrorMessage (notFound ops)) 404
               end)
     else if bool_decide (method req = "DELETE") then
       if negb (truthyId id) then mret (apiResponse (ErrorMessage "ID required") 400)
       else
         deleted ← callDelete ops id;
         mret (if deleted : bool then apiResponse Success 200
               else apiResponse (ErrorMessage (notFound ops)) 404)
     else mret (apiResponse (ErrorMessage "Method not allowed") 405))
    (fun _ => mret (apiResponse (ErrorMessage "Internal server error") 500)).

Definition handleCustomers : Request -> list string -> Handler Response :=
  handle customerStore.

Definition handleProducts : Request -> list string -> Handler Response :=
  handle productStore.

Definition corsHeaders : list (string * string) :=
  [("Access-Control-Allow-Origin", "*");
   ("Access-Control-Allow-Methods", "GET, POST, PUT, DELETE, OPTIONS");
   ("Access-Control-Allow-Headers", "Content-Type")].

(** The [fetch] handler of [Bun.serve]. *)
Definition fetch (req : Request) : Handler Response :=
  let pathParts := Js.split "/" (pathname req) in
  if bool_decide (method req = "OPTIONS") then
    mret (mkResponse 200 corsHeaders NoContent)
  else if bool_decide (pathname req = "/") || bool_decide (pathname req = "/docs") then
    mret (mkResponse 200 [("Content-Type", "text/html")] Documentation)
  else if bool_decide (pathname req = "/health") then
    mret (apiResponse Healthy 200)
  else if bool_decide (pathParts !! 1%nat = Some "api") then
    if bool_decide (pathParts !! 2%nat = Some "customers") then
      handleCustomers req pathParts
    else if bool_decide (pathParts !! 2%nat = Some "products") then
      handleProducts req pathParts
    else mret (apiResponse (ErrorMessage "Resource not found") 404)
  else mret (apiResponse (ErrorMessage "Not found") 404).

End Http.

(** * Vocabulary of the properties *)

(** ** The list filter, as the specification words it *)

Module FilterSpec.

(** The fixed field subset of each entity. *)
Definition fields (isCustomer : bool) : list string :=
  if isCustomer then ["CustomerName"; "CustomerPhone"; "CustomerTCKN"]
  else ["ProductCode"; "Details"; "Barcode"].

(** The text of a field; a field that is NULL or absent has none. *)
Definition text (record : Obj) (f : string) : string :=
  match record !! f with
  | Some (VStr s) => s
  | _ => ""
  end.


(** The upper-case letters of Latin-1: A to Z, and U+00C0 to U+00DE
    without the multiplication sign U+00D7.  The lower-case form of each
    lies 32 code points above it. *)
Definition isUpper (c : ascii) : bool :=
  let n := N_of_ascii c in
  (((65 <=? n) && (n <=? 90)) || ((192 <=? n) && (n <=? 222) && negb (n =? 215)))%N.

(** One letter, in the same case or in the other. *)
Definition sameLetter (a b : ascii) : Prop :=
  a = b
  \/ (isUpper a = true /\ N_of_ascii b = (N_of_ascii a + 32)%N)
  \/ (isUpper b = true /\ N_of_ascii a = (N_of_ascii b + 32)%N).

(** Two texts that differ in the case of their letters at most. *)
Fixpoint sameIgnoringCase (u t : string) : Prop :=
  match u, t with
  | EmptyString, EmptyString => True
  | String a u', String b t' => sameLetter a b /\ sameIgnoringCase u' t'
  | _, _ => False
  end.

(** [t] is a case-insensitive substring of [s]. *)
Definition contains (s t : string) : Prop :=
  exists a u b, s = a +:+ u +:+ b /\ sameIgnoringCase u t.

Definition matches (isCustomer : bool) (filterText : string) (record : Obj) : Prop :=
  exists f, In f (fields isCustomer) /\ contains (text record f) filterText.

End FilterSpec.

(** ** Decimal digits *)

Definition digitChar (d : N) : ascii := ascii_of_N (48 + d).

Fixpoint digitString (ds : list N) : string :=
  match ds with
  | [] => ""
  | d :: r => String (digitChar d) (digitString r)
  end.

(** The digits of a decimal numeral, most significant first. *)
Fixpoint udigits (d : Decimal.uint) : list N :=
  match d with
  | Decimal.Nil => []
  | Decimal.D0 r => 0%N :: udigits r
  | Decimal.D1 r => 1%N :: udigits r
  | Decimal.D2 r => 2%N :: udigits r
  | Decimal.D3 r => 3%N :: udigits r
  | Decimal.D4 r => 4%N :: udigits r
  | Decimal.D5 r => 5%N :: udigits r
  | Decimal.D6 r => 6%N :: udigits r
  | Decimal.D7 r => 7%N :: udigits r
  | Decimal.D8 r => 8%N :: udigits r
  | Decimal.D9 r => 9%N :: udigits r
  end.

Definition digitsOf (m : N) : list N := udigits (N.to_uint m).

(** A number in canonical form: no factor 10 in the digits. *)
Definition canonical (x : Js.number) : Prop :=
  match x with
  | Js.Finite _ m e => (m = 0%N /\ e = 0) \/ (m mod 10 <> 0)%N
  | _ => True
  end.

(** The canonical representation of a number: the factors 10 of the digits
    moved to the exponent. *)
Definition canon (x : Js.number) : Js.number :=
  match x with
  | Js.Finite neg m e => Js.mkFinite neg (digitsOf m) e
  | _ => x
  end.

(** Two representations of one number: the same sign and the same value
    [m * 10^e]. *)
Definition sameNumber (x y : Js.number) : Prop :=
  match x, y with
  | Js.NaN, Js.NaN => True
  | Js.Infinity a, Js.Infinity b => a = b
  | Js.Finite a m e, Js.Finite b n f =>
      a = b /\ Z.of_N m * 10 ^ (e - Z.min e f) = Z.of_N n * 10 ^ (f - Z.min e f)
  | _, _ => False
  end.

Definition isDigits (ds : list N) : Prop := Forall (fun d => (d < 10)%N) ds.

(** [parseDecimal] on digits, with or without a fraction, followed by
    text [rest] that starts with neither a digit nor a point. *)
Definition stops (rest : string) : Prop :=
  rest = "" \/ exists r, rest = String "e" r.

(** ** Store operations by entity *)

(** The Store operations by entity. *)
Definition columnsOf (t : Entity) : list string :=
  match t with Customers => customerOps.cols | Products => productOps.cols end.

Definition getByIdOf (t : Entity) : option string -> Db -> option Obj :=
  match t with Customers => customerOps.getById | Products => productOps.getById end.

Definition updateOf (t : Entity)
  : option string -> Obj -> Db -> SqlError + (option Obj * Db) :=
  match t with Customers => customerOps.update | Products => productOps.update end.

Definition createOf (t : Entity) : Obj -> N -> Db -> SqlError + (Obj * Db) :=
  match t with Customers => customerOps.create | Products => productOps.create end.

(** The form, the DELETE and the success notices of an entity. *)
Definition formOf (t : Entity) : View :=
  match t with Customers => CustomerForm | Products => ProductForm end.

Definition deleteOf (t : Entity) : option string -> Db -> bool * Db :=
  match t with Customers => customerOps.delete | Products => productOps.delete end.

Definition updatedNotice (t : Entity) : Notice :=
  match t with Customers => CustomerUpdated | Products => ProductUpdated end.

Definition deletedNotice (t : Entity) : Notice :=
  match t with Customers => CustomerDeleted | Products => ProductDeleted end.

(** What [executeFormSave] asks of the Store for the [data] of the form
    [form]: an update of the record being edited, or a new record. *)
Definition saveCall (form : View) (id : option string) (data : Obj) : StoreCall :=
  let t := entityOf (bool_decide (form = CustomerForm)) in
  if truthyId id then Update t id data else Create t data.

(** The Store after that call; a call that throws leaves it as it was. *)
Definition savedDb (form : View) (id : option string) (data : Obj) (seed : N) (db : Db)
  : Db :=
  let t := entityOf (bool_decide (form = CustomerForm)) in
  if truthyId id then
    match updateOf t id data db with
    | inr (_, db') => db'
    | inl _ => db
    end
  else
    match createOf t data seed db with
    | inr (_, db') => db'
    | inl _ => db
    end.

(** ** Runs and what they leave in the log *)

(** The states a run goes through, one per event. *)
Fixpoint trace (evs : list Event) (w : World) : list World :=
  match evs with
  | [] => []
  | ev :: rest => let w' := deliver ev w in w' :: trace rest w'
  end.

Definition isPaint (e : Effect) : bool :=
  match e with Paint _ => true | _ => false end.

Definition repaints (w : World) : nat := length (List.filter isPaint (log w)).

Definition isStore (e : Effect) : bool :=
  match e with Store _ => true | _ => false end.

Definition storeCalls (w : World) : list Effect := List.filter isStore (log w).

(** Calls that write to the Store. *)
Definition isWrite (e : Effect) : bool :=
  match e with
  | Store (Create _ _) | Store (Update _ _ _) | Store (Remove _ _) => true
  | _ => false
  end.

Definition storeWrites (w : World) : list Effect := List.filter isWrite (log w).

(** Calls that delete from the Store. *)
Definition isRemoval (e : Effect) : bool :=
  match e with Store (Remove _ _) => true | _ => false end.

Definition removals (w : World) : list Effect := List.filter isRemoval (log w).

(** ** List views *)

Definition inListView (w : World) : bool := endsWithList (currentView (tui w)).

(** The number of records that match the current [searchFilter]. *)
Definition filteredCount (w : World) : nat :=
  let isCustomer := bool_decide (currentView (tui w) = CustomerList) in
  length (filterRecords (getAll isCustomer w) (searchFilter (tui w)) isCustomer).

Definition inRange (w : World) : Prop :=
  0 <= selectedIndex (tui w) <= Z.max 0 (Z.of_nat (filteredCount w) - 1).

(** ** Forms *)

(** [parseFloat(buffer) || 0]. *)
Definition numberOrZero (buffer : string) : Js.number :=
  let parsed := Js.parseFloat buffer in
  if Js.truthyNum parsed then parsed else Js.zero.

(** The value a commit stores for a buffer. *)
Definition committed (st : Step) (buffer : string) : value :=
  if isNumber st && negb (bool_decide (buffer = "")) then VNum (numberOrZero buffer)
  else VStr buffer.

Definition isAdvance (key : string) : Prop :=
  key = Key.down \/ key = Key.tab \/ key = Key.cr \/ key = Key.lf.

(** A field value that a commit of its own text gives back: a string on
    a text step; the empty string, or a number other than 0 and NaN, on a
    numeric step. *)
Definition keepsValue (st : Step) (v : option value) : Prop :=
  if isNumber st
  then v = Some (VStr "") \/ exists x, v = Some (VNum x) /\ Js.truthyNum x = true
  else exists s, v = Some (VStr s).

Definition Kept (v : View) (fd : Obj) : Prop :=
  Forall (fun st => keepsValue st (fd !! field st)) (stepsOf v).

(** Two values that are one value to JavaScript: equal, or two
    representations of one number. *)
Definition sameValue (u v : option value) : Prop :=
  u = v \/ exists x y, u = Some (VNum x) /\ v = Some (VNum y) /\ sameNumber x y.

Definition sameFields (fd fd' : Obj) : Prop :=
  forall k, sameValue (fd !! k) (fd' !! k).

(** Every number of [fd] is held in its canonical representation. *)
Definition canonicalFields (fd : Obj) : Prop :=
  forall k x, fd !! k = Some (VNum x) -> canonical x.

(** A value once it has been committed from its own text: a number is
    then in canonical form. *)
Definition settled (v : option value) : option value :=
  match v with
  | Some (VNum x) => Some (VNum (canon x))
  | _ => v
  end.

(** [fd'] is [fd] with some of its fields committed from their own text. *)
Definition Settles (fd fd' : Obj) : Prop :=
  forall k, fd' !! k = fd !! k \/ fd' !! k = settled (fd !! k).

(** The form [v], seeded with [fd], with the cursor on step [i] and a
    buffer that commits to the value of that field. *)
Definition FormAt (v : View) (fd : Obj) (i : nat) (w : World) : Prop :=
  currentView (tui w) = v /\ Settles fd (formData (tui w)) /\ formStep (tui w) = i
  /\ status w = Running
  /\ forall st, stepsOf v !! i = Some st ->
                Some (committed st (inputBuffer (tui w))) = settled (fd !! field st).

Definition debtStep : Step := mkStep "CustomerDebt" false true.

(** ** The confirmation gate and the timers *)

(** The gate is not armed for a deletion. *)
Definition Unarmed (w : World) : Prop :=
  confirmAction (tui w) = Some Delete -> confirmIndex (tui w) = 0%nat.

(** The pending action of the gate. *)
Definition execute (a : Action) (w : World) : World :=
  match a with
  | Save => executeFormSave w
  | Delete => executeFormDelete w
  end.

(** [w'] comes after [w]: the clock has not moved, the log and the list
    of pending timers have only grown, by [added] and [scheduled]. *)
Definition Grows (w w' : World) (added : list Effect) (scheduled : list Timer) : Prop :=
  log w' = log w ++ added /\ timers w' = timers w ++ scheduled /\ clock w' = clock w.

(** Where the timer [t], scheduled in [w1], stands in a later [w2]: still
    pending before its time, fired once its time has come. *)
Definition TimerOutcome (t : Timer) (w1 w2 : World) : Prop :=
  ((clock w2 < due t)%N -> In t (timers w2))
  /\ ((due t <= clock w2)%N ->
      exists added, log w2 = log w1 ++ added /\ In (Fired (callback t)) added).

Definition Tracked (t : Timer) (w1 w2 : World) : Prop :=
  (exists added, log w2 = log w1 ++ added)
  /\ (((clock w2 < due t)%N /\ In t (timers w2))
      \/ ((due t <= clock w2)%N
          /\ exists added, log w2 = log w1 ++ added /\ In (Fired (callback t)) added)).

(** The callback of the pending timer [t], run on [w] as [fireDue] runs
    it: the timer leaves the list, the callback is called. *)
Definition fire (t : Timer) (w : World) : World :=
  w |> set_timers (removeFirst t (timers w))
    |> emit (Fired (callback t))
    |> runCallback (callback t).

(** What a callback leaves in the session, whatever it found there. *)
Definition Overwritten (cb : Callback) (found left : TuiState) : Prop :=
  match cb with
  | MessageReturn =>
      currentView left = (if bool_decide (previousView found = Some CustomerForm)
                          then CustomerList else ProductList)
      /\ selectedIndex left = 0 /\ isSearching left = false /\ searchFilter left = ""
      /\ inputBuffer left = "" /\ editingId left = None /\ formData left = ∅
  | StatsReturn => currentView left = Main /\ selectedIndex left = 0
  end.

(** The event [Elapse ms], delivered in [w'], runs the callback of [t]:
    after the [j] callbacks that are due before it, in the state [found],
    the callback of [t] is called and overwrites the session; the event
    ends after the [k] callbacks that are due after it.  When [t] is the
    first to be due, [found] is the session as [w'] has it; when it is
    the only one, the event ends in the state its callback leaves. *)
Definition FiresAt (t : Timer) (w' : World) (ms : N) : Prop :=
  (exists j k,
      let found := fireDue j (set_clock (clock w' + ms) w') in
      status found = Running
      /\ earliest (timers found) = Some t
      /\ (earliest (timers w') = Some t -> tui found = tui w')
      /\ Overwritten (callback t) (tui found) (tui (fire t found))
      /\ deliver (Elapse ms) w' = fireDue k (fire t found))
  /\ ((forall u, In u (removeFirst t (timers w')) -> (clock w' + ms < due u)%N) ->
      deliver (Elapse ms) w' = fire t (set_clock (clock w' + ms) w')
      /\ Overwritten (callback t) (tui w') (tui (deliver (Elapse ms) w'))).

(** Wherever a run from [w1] is cut before the event that brings the
    clock to the time of [t], that event runs the callback of [t]. *)
Definition FiresInRun (t : Timer) (w1 : World) (evs : list Event) : Prop :=
  forall before ms after,
    evs = before ++ Elapse ms :: after ->
    let w' := run before w1 in
    status w' = Running -> (clock w' < due t <= clock w' + ms)%N ->
    FiresAt t w' ms.

(** ** The Store, operation by operation *)

Definition tableOf (t : Entity) (db : Db) : list Obj :=
  match t with Customers => customers db | Products => products db end.

Definition getAllOf (t : Entity) : Db -> list Obj :=
  match t with Customers => customerOps.getAll | Products => productOps.getAll end.

(** The columns of TEXT affinity and those of REAL or INTEGER affinity. *)
Definition textColumns (t : Entity) : list string :=
  match t with
  | Customers => customerOps.textCols
  | Products => ["ProductCode"; "Details"; "Barcode"; "Category"]
  end.

Definition numericColumns (t : Entity) : list string :=
  match t with
  | Customers => customerOps.numCols
  | Products => ["Price"; "ActualInventory"; "ReservedInventory"; "AwaitingInventory"]
  end.

Definition isText (v : option value) : bool :=
  match v with
  | None | Some VNull | Some (VStr _) => true
  | _ => false
  end.

Definition isNumeric (v : option value) : bool :=
  match v with
  | None | Some VNull | Some (VNum _) => true
  | Some (VStr s) => bool_decide (s = "")
  | _ => false
  end.

(** A record whose cells SQLite stores as they are bound: text, NULL or
    nothing in a TEXT column; a number, the empty string, NULL or nothing
    in a numeric one. *)
Definition storedAsBound (t : Entity) (record : Obj) : bool :=
  forallb (fun c => isText (record !! c)) (textColumns t)
  && forallb (fun c => isNumeric (record !! c)) (numericColumns t).

(** The same without NaN, which SQLite stores as NULL. *)
Definition keptAsBound (t : Entity) (record : Obj) : bool :=
  storedAsBound t record
  && forallb (fun c => negb (bool_decide (record !! c = Some (VNum Js.NaN))))
       (numericColumns t).

(** The row [create] writes for [record]. *)
Definition customerRow (id : string) (customer : Obj) : Obj :=
  setCols (("id", VStr id)
           :: map (fun c => (c, bind (customer !! c))) customerOps.cols
           ++ map (fun c => (c, jsonCell (customer !! c))) customerOps.jsonCols) ∅.

Definition productRow (id : string) (product : Obj) : Obj :=
  setCols (("id", VStr id) :: map (fun c => (c, bind (product !! c))) productOps.cols) ∅.

(** The NOT NULL columns of the schema, [id] apart. *)
Definition requiredColumns (t : Entity) : list string :=
  match t with
  | Customers => ["CustomerName"]
  | Products => ["ProductCode"; "Price"]
  end.

(** No row of the table carries the [ProductCode] that [record] binds. *)
Definition codeUnused (record : Obj) (rows : list Obj) : Prop :=
  Forall (fun r => r !! "ProductCode" <> Some (bind (record !! "ProductCode"))) rows.

Definition idsOf (rows : list Obj) : list (option value) := map (fun r => r !! "id") rows.

Definition codesOf (rows : list Obj) : list (option value) :=
  map (fun r => r !! "ProductCode") rows.

Definition nonNull (c : string) (r : Obj) : Prop := isNull (bind (r !! c)) = false.

(** The constraints of the two tables: identifiers are text and differ
    from row to row, the NOT NULL columns hold something, and no two
    products share a code. *)
Definition Consistent (db : Db) : Prop :=
  (Forall (fun r => is_Some (idOf r)) (customers db)
   /\ NoDup (idsOf (customers db))
   /\ Forall (nonNull "CustomerName") (customers db))
  /\ (Forall (fun r => is_Some (idOf r)) (products db)
      /\ NoDup (idsOf (products db))
      /\ Forall (nonNull "ProductCode") (products db)
      /\ Forall (nonNull "Price") (products db)
      /\ NoDup (codesOf (products db))).

(** ** Requests and their answers *)

(** [parts.join(sep)], the inverse of [split]. *)
Fixpoint joinWith (sep : ascii) (parts : list string) : string :=
  match parts with
  | [] => ""
  | [s] => s
  | s :: rest => s +:+ String sep (joinWith sep rest)
  end.

Definition resourceName (t : Entity) : string :=
  match t with Customers => "customers" | Products => "products" end.

Definition storeOf (t : Entity) : Http.StoreOps :=
  match t with Customers => Http.customerStore | Products => Http.productStore end.

(** The path [/api/<resource>] followed by [segments]. *)
Definition apiPath (t : Entity) (segments : list string) : string :=
  joinWith "/" ("" :: "api" :: resourceName t :: segments).

Definition noSlash (s : string) : Prop := Js.includes s "/" = false.

(** What a request leaves alone: the session, the clock, the timers, the
    terminal's log and the two tables no handler names. *)
Definition SameSession (w w' : World) : Prop :=
  tui w' = tui w /\ clock w' = clock w /\ timers w' = timers w /\ log w' = log w
  /\ status w' = status w
  /\ orders (db w') = orders (db w) /\ payments (db w') = payments (db w).

Definition otherTable (t : Entity) (db : Db) : list Obj :=
  match t with Customers => products db | Products => customers db end.

Definition foundOr404 (ops : Http.StoreOps) (found : option Obj) : Http.Response :=
  match found with
  | Some record => Http.apiResponse (Http.Row record) 200
  | None => Http.apiResponse (Http.ErrorMessage (Http.notFound ops)) 404
  end.

(** What a Store operation leaves alone. *)
Definition SameElsewhere (t : Entity) (db db' : Db) : Prop :=
  otherTable t db' = otherTable t db
  /\ orders db' = orders db /\ payments db' = payments db.

Definition statuses : list Z := [200; 201; 400; 404; 405; 500].

(** What every answer of a handler has in common. *)
Definition Answered (t : option Entity) (w : World) (out : (Http.Exception + Http.Response) * World)
  : Prop :=
  exists r, out.1 = inr r
    /\ In (Http.status r) statuses
    /\ SameSession w out.2
    /\ match t with
       | Some t => otherTable t (db out.2) = otherTable t (db w)
       | None => db out.2 = db w
       end
    /\ (Http.status r <> 200 -> Http.status r <> 201 -> db out.2 = db w).

(** ** The states of a session *)

(** The state in which Enter runs the pending action. *)
Definition Confirming (w : World) : Prop :=
  currentView (tui w) = ConfirmAction /\ confirmIndex (tui w) = 1%nat
  /\ is_Some (confirmAction (tui w)).

Definition Sound (w : World) : Prop :=
  match currentView (tui w) with
  | Main => True
  | CustomerList | ProductList => inRange w
  | CustomerForm | ProductForm =>
      (formStep (tui w) < length (stepsOf (currentView (tui w))))%nat
  | ConfirmAction =>
      exists f, previousView (tui w) = Some f /\ endsWithForm f = true
                /\ (formStep (tui w) < length (stepsOf f))%nat
  end.

(** A character that reaches a view as text: printable, and not the DEL
    that stands for Backspace. *)
Definition typable (c : ascii) : bool :=
  (32 <=? Js.code c)%N && negb (Js.code c =? 127)%N.

(** The key events of typing [text], one character each. *)
Fixpoint typed (text : string) : list string :=
  match text with
  | EmptyString => []
  | String c rest => String c "" :: typed rest
  end.

Fixpoint allTypable (text : string) : bool :=
  match text with
  | EmptyString => true
  | String c rest => typable c && allTypable rest
  end.

(** The list is being searched for [text]. *)
Definition Searching (v : View) (d : Db) (text : string) (w : World) : Prop :=
  status w = Running /\ currentView (tui w) = v /\ endsWithList v = true
  /\ isSearching (tui w) = true
  /\ inputBuffer (tui w) = text /\ searchFilter (tui w) = text
  /\ selectedIndex (tui w) = 0 /\ db w = d.

(** The form [v] at step [i] with [text] in the buffer. *)
Definition Editing (v : View) (base : World) (text : string) (w : World) : Prop :=
  status w = Running /\ currentView (tui w) = v /\ endsWithForm v = true
  /\ inputBuffer (tui w) = text
  /\ formData (tui w) = formData (tui base) /\ formStep (tui w) = formStep (tui base)
  /\ editingId (tui w) = editingId (tui base) /\ db w = db base
  /\ uuidSeed w = uuidSeed base /\ timers w = timers base /\ clock w = clock base.

(** How many Escapes a view is away from the end of the process. *)
Definition escapesLeft (w : World) : nat :=
  match currentView (tui w) with
  | Main => 1
  | CustomerList | ProductList => if isSearching (tui w) then 3 else 2
  | CustomerForm | ProductForm => 3
  | ConfirmAction => 4
  end.

(** The confirmation reached by Ctrl+N, a text and Ctrl+S. *)
Definition NewRecordGate (isCustomer : bool) (text : string) (w g : World) : Prop :=
  currentView (tui g) = ConfirmAction
  /\ previousView (tui g) = Some (if isCustomer then CustomerForm else ProductForm)
  /\ confirmAction (tui g) = Some Save /\ confirmIndex (tui g) = 1%nat
  /\ formData (tui g) = ∅ /\ formStep (tui g) = 0%nat /\ editingId (tui g) = None
  /\ inputBuffer (tui g) = text
  /\ db g = db w /\ uuidSeed g = uuidSeed w /\ timers g = timers w /\ clock g = clock w
  /\ status g = Running.

(** ** Sample data and sessions *)

(** Sample data for the closed examples. *)
Module Sample.

Definition ada : Obj :=
  list_to_map
    [("id", VStr "c1"); ("CustomerName", VStr "Ada"); ("CustomerPhone", VStr "555");
     ("CustomerAddress", VStr "London"); ("CustomerTCKN", VStr "123");
     ("CustomerVD", VStr "Kadikoy"); ("CustomerDebt", VNum (Js.ofN 5));
     ("CustomerBalance", VNum (Js.Finite false 125 (-1)));
     ("CustomerPayments", VArr []); ("CustomerOrders", VArr []);
     ("CustomerShipments", VArr [])].

(** A customer with the defaults of the schema: no phone, no debt. *)
Definition bora : Obj :=
  list_to_map
    [("id", VStr "c2"); ("CustomerName", VStr "Bora"); ("CustomerPhone", VNull);
     ("CustomerAddress", VStr "Izmir"); ("CustomerTCKN", VStr "456");
     ("CustomerVD", VStr "Konak"); ("CustomerDebt", VNum Js.zero);
     ("CustomerBalance", VNum Js.zero);
     ("CustomerPayments", VArr []); ("CustomerOrders", VArr []);
     ("CustomerShipments", VArr [])].

Definition bolt : Obj :=
  list_to_map
    [("id", VStr "p1"); ("ProductCode", VStr "B-10"); ("Details", VStr "Steel bolt");
     ("Barcode", VStr "869"); ("Price", VNum (Js.Finite false 25 (-1)));
     ("Category", VStr "Hardware"); ("ActualInventory", VNum (Js.ofN 40));
     ("ReservedInventory", VNum (Js.ofN 4)); ("AwaitingInventory", VNum (Js.ofN 7))].

Definition store : Db := mkDb [ada; bora] [bolt] [] [].

(** A fresh session, and the same after Enter on the first menu entry. *)
Definition fresh : World := startRawTui store.

Definition customerList : World := deliver (KeyData Key.cr) fresh.

End Sample.

(** Forms reached from the customer list. *)
Module Session.

(** A new customer form in which "Ada" has been typed. *)
Definition typingAda : World :=
  run (keys [Key.ctrlN; "A"; "d"; "a"]) Sample.customerList.

(** The edit form of the first customer. *)
Definition editingAda : World := deliver (KeyData Key.cr) Sample.customerList.

(** The edit form of the second customer. *)
Definition editingBora : World :=
  run (keys [Key.down; Key.cr]) Sample.customerList.

(** A new customer form, moved to the CustomerDebt step. *)
Definition atDebt : World :=
  run (keys [Key.ctrlN; Key.down; Key.down; Key.down; Key.down; Key.down])
    Sample.customerList.

End Session.

(** The gate asking to save the new customer, before and after Enter. *)
Module Gate.

(** The gate asking to save the new customer "Ada". *)
Definition savingAda : World := deliver (KeyData Key.ctrlS) Session.typingAda.

(** The same after Enter: the Message screen is on. *)
Definition messageShown : World := deliver (KeyData Key.cr) savingAda.

End Gate.

(** The Store after the REST side has deleted the first customer. *)
Definition withoutAda (w : World) : World :=
  set_db (mkDb [Sample.bora] [Sample.bolt] [] []) w.

(** Records as a client sends them, and what the Store makes of them. *)
Module Fixture.

Definition resultOf {E A : Type} (r : E + A) (d : A) : A :=
  match r with inr a => a | inl _ => d end.

Definition cem : Obj :=
  list_to_map [("CustomerName", VStr "Cem"); ("CustomerPhone", VStr "532")].

(** The same with an [id] of the client's own and a key that is no column. *)
Definition cemWithId : Obj :=
  list_to_map [("id", VStr "mine"); ("CustomerName", VStr "Cem"); ("Note", VStr "new")].

Definition nut : Obj :=
  list_to_map [("ProductCode", VStr "N-8"); ("Price", VNum (Js.ofN 3))].

Definition washer : Obj :=
  list_to_map
    [("id", VStr "p2"); ("ProductCode", VStr "W-5"); ("Details", VNull);
     ("Barcode", VNull); ("Price", VNum (Js.ofN 2));
     ("Category", VNull); ("ActualInventory", VNum Js.zero);
     ("ReservedInventory", VNum Js.zero); ("AwaitingInventory", VNum Js.zero)].

Definition twoProducts : Db := mkDb [Sample.ada; Sample.bora] [Sample.bolt; washer] [] [].

Definition createdBy (t : Entity) (record : Obj) (seed : N) (db : Db) : Obj * Db :=
  resultOf (createOf t record seed db) (∅, db).

Definition updatedBy (t : Entity) (id : option string) (updates : Obj) (db : Db)
  : option Obj * Db :=
  resultOf (updateOf t id updates db) (None, db).

Definition newPhone : Obj := list_to_map [("CustomerPhone", VStr "999")].

Definition takenCode : Obj := list_to_map [("ProductCode", VStr "B-10")].

End Fixture.

(** A POST of [Fixture.cem] to a fresh session, and what comes back. *)
Module Posted.

Definition request : Http.Request :=
  Http.mkRequest "POST" (apiPath Customers []) (Http.JsonObject Fixture.cem).

Definition response : Http.Response :=
  match (Http.fetch request Sample.fresh).1 with
  | inr r => r
  | inl _ => Http.apiResponse Http.NoContent 0
  end.

Definition world : World := (Http.fetch request Sample.fresh).2.

End Posted.

(** The product list of a fresh session, and a form opened from it. *)
Module Screens.

Definition productList : World := run (keys [Key.down; Key.cr]) Sample.fresh.

(** The edit form of the first product, whose stock of 40 the sample
    holds as [40 * 10^0]. *)
Definition editingBolt : World := deliver (KeyData Key.cr) productList.

End Screens.

(** ** Five claims as the specification states them *)

(** C3 as it is stated: on a numeric step the commit stores the number
    [parseFloat(inputBuffer) || 0], which is 0 for an empty buffer. *)
Definition NumericCommitStoresNumber (st : Step) (s : TuiState) : Prop :=
  isNumber st = true ->
  formData (commitField st s) !! field st = Some (VNum (numberOrZero (inputBuffer s))).

(** C2 as it is stated: Ctrl+S in a form commits the current field and
    enters the save confirmation with the default choice yes. *)
Definition CtrlSCommitsThenConfirms (w : World) : Prop :=
  forall st, stepsOf (currentView (tui w)) !! formStep (tui w) = Some st ->
  let w' := handleKeyPress Key.ctrlS w in
  formData (tui w') = formData (commitField st (tui w))
  /\ currentView (tui w') = ConfirmAction
  /\ confirmAction (tui w') = Some Save
  /\ confirmIndex (tui w') = 1%nat.

(** C6 as it is stated: whatever the seed, moving forward through all
    steps and back to the first without typing leaves [formData] as it
    was. *)
Definition RoundTripKeepsFormData (w : World) : Prop :=
  forall advance retreat,
    Forall isAdvance advance ->
    length advance = (length (stepsOf (currentView (tui w))) - 1)%nat ->
    Forall (fun k => k = Key.up) retreat ->
    length retreat = (length (stepsOf (currentView (tui w))) - 1)%nat ->
    formData (tui (run (keys (advance ++ retreat)) w)) = formData (tui w).

(** C10 as it is stated: after the confirming Enter the view is still
    ConfirmAction, every key goes to [handleConfirmation], and Enter runs
    the pending action again. *)
Definition EveryKeyReachesTheGate (g : World) (a : Action) : Prop :=
  let shown := handleKeyPress Key.cr g in
  currentView (tui shown) = ConfirmAction
  /\ (forall key, handleKeyPress key shown = uncaught (handleConfirmation key shown))
  /\ handleKeyPress Key.cr shown = execute a shown.

(** C7 as it is stated, for Turkish text: the case of a letter is ignored,
    the letters being those of Latin-1 and the six of the Turkish alphabet
    outside it.  [I] is the upper-case form of the dotless [i], U+0130 the
    upper-case form of [i]. *)
Module TurkishSpec.

(** An upper-case letter and its lower-case form. *)
Inductive casePair : Turkish.letter -> Turkish.letter -> Prop :=
  | pair_latin1 c :
      FilterSpec.isUpper c = true ->
      casePair (Turkish.Latin1 c) (Turkish.Latin1 (ascii_of_N (N_of_ascii c + 32)))
  | pair_g : casePair Turkish.CapitalG Turkish.SmallG
  | pair_s : casePair Turkish.CapitalS Turkish.SmallS
  | pair_dotted : casePair Turkish.CapitalDottedI (Turkish.Latin1 "i")
  | pair_dotless : casePair (Turkish.Latin1 "I") Turkish.SmallDotlessI.

(** One letter, in the same case or in the other. *)
Definition sameLetter (a b : Turkish.letter) : Prop :=
  a = b \/ casePair a b \/ casePair b a.

Definition sameIgnoringCase (u t : Turkish.text) : Prop := Forall2 sameLetter u t.

(** [t] is a case-insensitive substring of [s]. *)
Definition contains (s t : Turkish.text) : Prop :=
  exists a u b, s = a ++ u ++ b /\ sameIgnoringCase u t.

Definition matches (isCustomer : bool) (filterText : Turkish.text)
    (record : Turkish.Row) : Prop :=
  exists f, In f (FilterSpec.fields isCustomer)
            /\ contains (default [] (record !! f)) filterText.






End TurkishSpec.

(** * Proofs *)

(** ** Strings *)

Lemma append_cons c s t : String c s +:+ t = String c (s +:+ t).
Proof. reflexivity. Qed.

Lemma append_empty s : "" +:+ s = s.
Proof. reflexivity. Qed.

Lemma append_nil_r s : s +:+ "" = s.
Proof. induction s as [|c s IH]; [done|]. by rewrite append_cons, IH. Qed.





(** ** The list filter against its specification *)











(** A number in a text field, which no row of the Store holds, ends the
    filter with a TypeError. *)
Example filterRecords_throws :
  Throwing.filterRecords [{[ "CustomerName" := VNum (Js.ofN 5) ]}] "a" true = inl TypeError.
Proof. vm_compute. reflexivity. Qed.




(** ** Numbers and their decimal text *)

Lemma string_of_uint_digits d : NilEmpty.string_of_uint d = digitString (udigits d).
Proof. induction d; cbn [NilEmpty.string_of_uint udigits digitString]; by f_equal. Qed.

Lemma decimal_digits m : Js.decimal m = digitString (digitsOf m).
Proof. apply string_of_uint_digits. Qed.

Lemma udigits_isDigits d : isDigits (udigits d).
Proof. induction d; cbn [udigits]; constructor; (lia || done). Qed.

Lemma small_digit d : (d < 10)%N ->
  d = 0%N \/ d = 1%N \/ d = 2%N \/ d = 3%N \/ d = 4%N \/ d = 5%N \/ d = 6%N
  \/ d = 7%N \/ d = 8%N \/ d = 9%N.
Proof. lia. Qed.

Ltac each_digit H :=
  apply small_digit in H;
  destruct H as [->|[->|[->|[->|[->|[->|[->|[->|[->| ->]]]]]]]]].

Lemma digit_digitChar d : (d < 10)%N -> Js.digit (digitChar d) = Some d.
Proof. intros H. each_digit H; reflexivity. Qed.

Lemma digitChar_plain d : (d < 10)%N ->
  Js.isWhite (digitChar d) = false
  /\ digitChar d <> "-"%char /\ digitChar d <> "+"%char /\ digitChar d <> "I"%char
  /\ digitChar d <> "."%char.
Proof. intros H. each_digit H; repeat split; discriminate. Qed.

Lemma spanDigits_digitString ds r :
  isDigits ds ->
  Js.spanDigits (digitString ds +:+ r) = (ds ++ (Js.spanDigits r).1, (Js.spanDigits r).2).
Proof.
  induction 1 as [|d ds Hd _ IH]; cbn [digitString].
  - rewrite append_empty. by destruct (Js.spanDigits r).
  - rewrite append_cons. cbn [Js.spanDigits]. by rewrite digit_digitChar, IH.
Qed.

Lemma spanDigits_digitString_end ds : isDigits ds -> Js.spanDigits (digitString ds) = (ds, "").
Proof.
  intros H. pose proof (spanDigits_digitString ds "" H) as E.
  cbn [Js.spanDigits fst snd] in E. rewrite app_nil_r in E. rewrite <- E. f_equal.
  clear. induction ds as [|d ds IH]; [done|]. cbn [digitString]. by rewrite append_cons, <- IH.
Qed.

Lemma digitsValue_acc ds acc :
  fold_left (fun a d => (10 * a + d)%N) ds acc
  = (acc * 10 ^ N.of_nat (length ds) + Js.digitsValue ds)%N.
Proof.
  unfold Js.digitsValue. revert acc. induction ds as [|d ds IH]; intros acc.
  - cbn. lia.
  - cbn [fold_left length]. rewrite IH, (IH (10 * 0 + d)%N).
    rewrite Nat2N.inj_succ, N.pow_succ_r'. lia.
Qed.

Lemma digitsValue_cons d ds :
  Js.digitsValue (d :: ds) = (d * 10 ^ N.of_nat (length ds) + Js.digitsValue ds)%N.
Proof.
  unfold Js.digitsValue at 1. cbn [fold_left]. rewrite digitsValue_acc. lia.
Qed.

Lemma digitsValue_snoc ds d : Js.digitsValue (ds ++ [d]) = (10 * Js.digitsValue ds + d)%N.
Proof. unfold Js.digitsValue. by rewrite fold_left_app. Qed.

Lemma digitsValue_zeros j ds :
  Js.digitsValue (replicate j 0%N ++ ds) = Js.digitsValue ds.
Proof.
  induction j as [|j IH]; [done|]. cbn [replicate app].
  rewrite digitsValue_cons, IH. lia.
Qed.

Lemma of_uint_acc_value d acc :
  Npos (Pos.of_uint_acc d acc)
  = fold_left (fun a x => (10 * a + x)%N) (udigits d) (Npos acc).
Proof.
  revert acc. induction d; intros acc; cbn [Pos.of_uint_acc udigits fold_left];
    [done|..]; rewrite IHd; f_equal; lia.
Qed.

Lemma of_uint_value d : Pos.of_uint d = Js.digitsValue (udigits d).
Proof.
  unfold Js.digitsValue.
  induction d; cbn [Pos.of_uint udigits fold_left]; [done|..];
    rewrite ?of_uint_acc_value; try done.
Qed.

Lemma digitsOf_value m : Js.digitsValue (digitsOf m) = m.
Proof.
  unfold digitsOf. rewrite <- of_uint_value.
  exact (DecimalN.Unsigned.of_to m).
Qed.

Lemma digitsOf_isDigits m : isDigits (digitsOf m).
Proof. apply udigits_isDigits. Qed.

(** The digits of a number with no factor 10 end in a non-zero digit. *)
Lemma digitsOf_last m :
  (m mod 10 <> 0)%N ->
  exists front d, digitsOf m = front ++ [d] /\ d <> 0%N /\ (d < 10)%N.
Proof.
  intros Hm. pose proof (digitsOf_value m) as Hv. pose proof (digitsOf_isDigits m) as Hd.
  destruct (digitsOf m) as [|a l] eqn:E using rev_ind.
  - cbn in Hv. subst m. by cbn in Hm.
  - clear IHl. exists l, a. split; [done|].
    apply Forall_app in Hd as [_ Ha]. apply Forall_cons in Ha as [Ha _].
    split; [|done]. intros ->. rewrite digitsValue_snoc in Hv.
    apply Hm. rewrite <- Hv. rewrite N.add_0_r, N.mul_comm. apply N.Div0.mod_mul.
Qed.

Lemma dropZeros_zeros j ds : Js.dropZeros (replicate j 0%N ++ ds) = Js.dropZeros ds.
Proof. induction j as [|j IH]; [done|]. cbn [replicate app Js.dropZeros]. exact IH. Qed.

Lemma rev_replicate {A} j (x : A) : rev (replicate j x) = replicate j x.
Proof.
  induction j as [|j IH]; [done|].
  rewrite replicate_S_end at 2. cbn [replicate rev]. by rewrite IH.
Qed.

(** Digits ending in a non-zero one, followed by [j] zeros and scaled by
    [10^e]. *)
Lemma mkFinite_digits neg front d j e m :
  d <> 0%N -> Js.digitsValue (front ++ [d]) = m ->
  Js.mkFinite neg ((front ++ [d]) ++ replicate j 0%N) e = Js.Finite neg m (e + Z.of_nat j).
Proof.
  intros Hd Hm. unfold Js.mkFinite.
  rewrite rev_app_distr, rev_replicate, dropZeros_zeros.
  rewrite rev_app_distr. cbn [rev app Js.dropZeros].
  destruct (N.eqb_spec d 0) as [|_]; [done|].
  change (d :: rev front) with (rev [d] ++ rev front).
  rewrite <- rev_app_distr, rev_involutive, Hm.
  assert (Hm0 : m <> 0%N).
  { rewrite <- Hm, digitsValue_snoc. lia. }
  destruct (N.eqb_spec m 0) as [|_]; [done|].
  f_equal. rewrite !length_app, length_replicate. lia.
Qed.

Lemma repeat0_digits j : Js.repeat0 j = digitString (replicate j 0%N).
Proof. induction j as [|j IH]; [done|]. cbn [Js.repeat0 replicate digitString]. by rewrite IH. Qed.

Lemma digitString_app a b : digitString (a ++ b) = digitString a +:+ digitString b.
Proof. induction a as [|d a IH]; [done|]. cbn [app digitString]. by rewrite append_cons, IH. Qed.

Lemma digitString_length ds : String.length (digitString ds) = length ds.
Proof. induction ds as [|d ds IH]; [done|]. cbn [digitString String.length length]. by rewrite IH. Qed.

Lemma takeS_digits n ds : Js.takeS n (digitString ds) = digitString (take n ds).
Proof.
  revert ds. induction n as [|n IH]; intros [|d ds]; cbn [Js.takeS digitString firstn]; try done.
  by rewrite IH.
Qed.

Lemma dropS_digits n ds : Js.dropS n (digitString ds) = digitString (drop n ds).
Proof.
  revert ds. induction n as [|n IH]; intros [|d ds]; cbn [Js.dropS digitString skipn]; try done.
Qed.

Lemma isDigits_replicate j : isDigits (replicate j 0%N).
Proof. induction j; constructor; (lia || done). Qed.

Lemma spanDigits_stops rest : stops rest -> Js.spanDigits rest = ([], rest).
Proof. intros [->|[r ->]]; reflexivity. Qed.

Lemma not_Infinity d rest :
  (d < 10)%N -> Js.startsWith (String (digitChar d) rest) "Infinity" = false.
Proof. intros H. each_digit H; reflexivity. Qed.

Lemma parseDecimal_integer neg d ip rest :
  isDigits (d :: ip) -> stops rest ->
  Js.parseDecimal neg (digitString (d :: ip) +:+ rest)
  = Js.mkFinite neg (d :: ip) (Js.exponentPart rest).
Proof.
  intros Hip Hrest. unfold Js.parseDecimal.
  pose proof Hip as Hd. apply Forall_cons in Hd as [Hd _].
  cbn [digitString]. rewrite append_cons, not_Infinity by done.
  change (String (digitChar d) (digitString ip +:+ rest))
    with (digitString (d :: ip) +:+ rest).
  rewrite spanDigits_digitString, spanDigits_stops by done.
  cbn [fst snd]. rewrite app_nil_r.
  destruct Hrest as [->|[r ->]]; cbv beta iota zeta;
    rewrite app_nil_r; cbn [length Z.of_nat]; by rewrite Z.sub_0_r.
Qed.

Lemma parseDecimal_fraction neg d ip fp rest :
  isDigits (d :: ip) -> isDigits fp -> stops rest ->
  Js.parseDecimal neg (digitString (d :: ip) +:+ "." +:+ digitString fp +:+ rest)
  = Js.mkFinite neg ((d :: ip) ++ fp) (Js.exponentPart rest - Z.of_nat (length fp)).
Proof.
  intros Hip Hfp Hrest. unfold Js.parseDecimal.
  pose proof Hip as Hd. apply Forall_cons in Hd as [Hd _].
  cbn [digitString]. rewrite append_cons, not_Infinity by done.
  change (String (digitChar d) (digitString ip +:+ "." +:+ digitString fp +:+ rest))
    with (digitString (d :: ip) +:+ String "." (digitString fp +:+ rest)).
  rewrite spanDigits_digitString by done.
  change (Js.spanDigits (String "." (digitString fp +:+ rest)))
    with (@nil N, String "." (digitString fp +:+ rest)).
  cbn [fst snd]. rewrite app_nil_r. cbv beta iota zeta.
  rewrite spanDigits_digitString, spanDigits_stops by done.
  cbn [fst snd]. rewrite app_nil_r. reflexivity.
Qed.

Lemma digitsOf_nonempty m : digitsOf m <> [].
Proof.
  unfold digitsOf. destruct m as [|p]; [done|]. cbn [N.to_uint].
  pose proof (DecimalPos.Unsigned.to_uint_nonnil p) as H.
  by destruct (Pos.to_uint p).
Qed.

Lemma exponentPart_text (minus : bool) (x : N) :
  Js.exponentPart (String "e" ((if minus then "-" else "+") +:+ Js.decimal x))
  = if minus then - Z.of_N x else Z.of_N x.
Proof.
  unfold Js.exponentPart.
  change ((Js.code "e" =? 101)%N || (Js.code "e" =? 69)%N) with true. cbv iota.
  assert (Hd : (Js.spanDigits (Js.decimal x)).1 = digitsOf x).
  { by rewrite decimal_digits, spanDigits_digitString_end by apply digitsOf_isDigits. }
  destruct minus; rewrite append_cons, append_empty; cbv beta iota zeta; rewrite Hd;
    pose proof (digitsOf_nonempty x) as Hne; pose proof (digitsOf_value x) as Hv;
    destruct (digitsOf x); try done; by rewrite Hv.
Qed.

Lemma parseFloat_signed (neg : bool) d rest :
  (d < 10)%N ->
  Js.parseFloat (if neg then "-" +:+ String (digitChar d) rest
                 else String (digitChar d) rest)
  = Js.parseDecimal neg (String (digitChar d) rest).
Proof. intros H. destruct neg; each_digit H; reflexivity. Qed.

(** The four shapes of [Number::toString], for digits [d0 :: tl] that end
    in a non-zero digit [d] and [z] zeros after it; [m] is the value of
    the digits up to [d]. *)
Section shapes.

Variables (neg : bool) (m : N) (front : list N) (d d0 : N) (tl : list N) (z : nat).
Hypothesis Hds : d0 :: tl = (front ++ [d]) ++ replicate z 0%N.
Hypothesis Hd : d <> 0%N.
Hypothesis Hdig : isDigits (d0 :: tl).
Hypothesis Hval : Js.digitsValue (front ++ [d]) = m.

Let body (s : string) : string := if neg then "-" +:+ s else s.

Lemma head_digit : (d0 < 10)%N.
Proof. by apply Forall_cons in Hdig as [? _]. Qed.

Lemma finite_of_digits j e :
  Js.mkFinite neg ((d0 :: tl) ++ replicate j 0%N) e
  = Js.Finite neg m (e + Z.of_nat j + Z.of_nat z).
Proof.
  rewrite Hds, <- app_assoc, <- replicate_add.
  rewrite (mkFinite_digits neg front d (z + j) e m Hd Hval). f_equal. lia.
Qed.

Lemma shape_integer (j : nat) :
  Js.parseFloat (body (digitString (d0 :: tl) +:+ Js.repeat0 j))
  = Js.Finite neg m (Z.of_nat j + Z.of_nat z).
Proof.
  unfold body. rewrite repeat0_digits, <- digitString_app.
  cbn [app digitString]. rewrite parseFloat_signed by apply head_digit.
  change (String (digitChar d0) (digitString (tl ++ replicate j 0%N)))
    with (digitString (d0 :: tl ++ replicate j 0%N)).
  rewrite <- (append_nil_r (digitString _)).
  rewrite parseDecimal_integer;
    [|apply (Forall_app_2 _ (d0 :: tl)); [done | apply isDigits_replicate] | by left].
  change (d0 :: tl ++ replicate j 0%N) with ((d0 :: tl) ++ replicate j 0%N).
  rewrite finite_of_digits. f_equal; cbn [Js.exponentPart]; lia.
Qed.

Lemma shape_point (n : nat) :
  (0 < n < length (d0 :: tl))%nat ->
  Js.parseFloat (body (Js.takeS n (digitString (d0 :: tl)) +:+ "."
                       +:+ Js.dropS n (digitString (d0 :: tl))))
  = Js.Finite neg m (Z.of_nat n - Z.of_nat (length (d0 :: tl)) + Z.of_nat z).
Proof.
  intros Hn. unfold body. rewrite takeS_digits, dropS_digits.
  destruct n as [|n]; [lia|]. cbn [firstn digitString].
  rewrite !(append_cons (digitChar d0)), parseFloat_signed by apply head_digit.
  change (String (digitChar d0) (digitString (take n tl) +:+ "."
                                 +:+ digitString (drop (S n) (d0 :: tl))))
    with (digitString (d0 :: take n tl) +:+ "."
          +:+ digitString (drop (S n) (d0 :: tl))).
  rewrite <- (append_nil_r (digitString (drop _ _))).
  rewrite parseDecimal_fraction; [| | |by left].
  - change ((d0 :: take n tl) ++ drop (S n) (d0 :: tl))
      with (take (S n) (d0 :: tl) ++ drop (S n) (d0 :: tl)).
    rewrite take_drop, <- (app_nil_r (d0 :: tl)) at 1.
    change [] with (replicate 0 0%N) at 1. rewrite finite_of_digits.
    f_equal. cbn [Js.exponentPart]. rewrite length_drop. cbn [length] in *. lia.
  - change (d0 :: take n tl) with (take (S n) (d0 :: tl)). by apply Forall_take.
  - by apply Forall_drop.
Qed.

Lemma shape_small (lead : nat) :
  Js.parseFloat (body ("0." +:+ Js.repeat0 lead +:+ digitString (d0 :: tl)))
  = Js.Finite neg m (- Z.of_nat lead - Z.of_nat (length (d0 :: tl)) + Z.of_nat z).
Proof.
  unfold body. rewrite repeat0_digits, <- digitString_app.
  change ("0." +:+ digitString (replicate lead 0%N ++ d0 :: tl))
    with (String (digitChar 0) ("." +:+ digitString (replicate lead 0%N ++ d0 :: tl))).
  rewrite parseFloat_signed by done.
  change (String (digitChar 0) ("." +:+ digitString (replicate lead 0%N ++ d0 :: tl)))
    with (digitString [0%N] +:+ "." +:+ digitString (replicate lead 0%N ++ d0 :: tl)).
  rewrite <- (append_nil_r (digitString (replicate lead 0%N ++ _))).
  rewrite parseDecimal_fraction; [| | |by left].
  - change ([0%N] ++ replicate lead 0%N ++ d0 :: tl)
      with (replicate (S lead) 0%N ++ d0 :: tl).
    rewrite Hds, !app_assoc.
    rewrite (mkFinite_digits neg _ d z _ m);
      [|done | by rewrite <- app_assoc, digitsValue_zeros].
    f_equal. cbn [Js.exponentPart]. rewrite !length_app, !length_replicate. lia.
  - repeat constructor.
  - apply Forall_app_2; [apply isDigits_replicate | done].
Qed.

Lemma shape_exponent (x : Z) :
  Js.parseFloat
    (body (match digitString (d0 :: tl) with
           | String c EmptyString =>
               String c ("e" +:+ (if x <? 0 then "-" else "+")
                         +:+ Js.decimal (Z.to_N (Z.abs x)))
           | String c rest =>
               String c ("." +:+ rest +:+ "e" +:+ (if x <? 0 then "-" else "+")
                         +:+ Js.decimal (Z.to_N (Z.abs x)))
           | EmptyString => EmptyString
           end))
  = Js.Finite neg m (x - (Z.of_nat (length (d0 :: tl)) - 1) + Z.of_nat z).
Proof.
  unfold body. cbn [digitString].
  assert (Hx : Js.exponentPart
                 (String "e" ((if x <? 0 then "-" else "+")
                              +:+ Js.decimal (Z.to_N (Z.abs x)))) = x).
  { rewrite (exponentPart_text (x <? 0)). destruct (Z.ltb_spec x 0); lia. }
  pose proof head_digit as Hh. pose proof finite_of_digits as Hfin.
  pose proof Hdig as Hdig'. clear Hds Hval.
  destruct tl as [|t1 tl'].
  - cbn [digitString]. rewrite parseFloat_signed by done.
    change (String (digitChar d0) ("e" +:+ (if x <? 0 then "-" else "+")
                                   +:+ Js.decimal (Z.to_N (Z.abs x))))
      with (digitString [d0] +:+ String "e" ((if x <? 0 then "-" else "+")
                                             +:+ Js.decimal (Z.to_N (Z.abs x)))).
    rewrite parseDecimal_integer; [|done | right; by eexists].
    rewrite Hx. pose proof (Hfin 0%nat x) as E.
    cbn [replicate] in E. rewrite app_nil_r in E. rewrite E.
    f_equal; cbn [length]; lia.
  - cbn [digitString]. rewrite parseFloat_signed by done.
    change (String (digitChar d0)
              ("." +:+ String (digitChar t1) (digitString tl') +:+ "e"
               +:+ (if x <? 0 then "-" else "+") +:+ Js.decimal (Z.to_N (Z.abs x))))
      with (digitString [d0] +:+ "." +:+ digitString (t1 :: tl')
            +:+ String "e" ((if x <? 0 then "-" else "+")
                            +:+ Js.decimal (Z.to_N (Z.abs x)))).
    rewrite parseDecimal_fraction; [| | |right; by eexists].
    + rewrite Hx. change ([d0] ++ t1 :: tl') with (d0 :: t1 :: tl').
      pose proof (Hfin 0%nat (x - Z.of_nat (length (t1 :: tl')))) as E.
      cbn [replicate] in E. rewrite app_nil_r in E. rewrite E.
      f_equal; cbn [length]; lia.
    + constructor; [done | constructor].
    + by apply Forall_cons in Hdig' as [_ ?].
Qed.

End shapes.

(** Digits of a non-zero value: a non-zero digit followed by zeros only. *)
Lemma digits_trailing ds :
  Js.digitsValue ds <> 0%N ->
  exists front d z, ds = (front ++ [d]) ++ replicate z 0%N /\ d <> 0%N.
Proof.
  induction ds as [|a l IH] using rev_ind; [done|].
  rewrite digitsValue_snoc. intros Hv.
  destruct (N.eqb_spec a 0) as [->|Ha].
  - destruct IH as (front & d & z & -> & Hd); [lia|].
    exists front, d, (S z). split; [|done].
    by rewrite replicate_S_end, !app_assoc.
  - exists l, a, 0%nat. split; [by rewrite app_nil_r | done].
Qed.

Lemma digitsValue_app_zeros ds z :
  Js.digitsValue (ds ++ replicate z 0%N) = (Js.digitsValue ds * 10 ^ N.of_nat z)%N.
Proof.
  induction z as [|z IH]; [rewrite app_nil_r; cbn; lia|].
  rewrite replicate_S_end, app_assoc, digitsValue_snoc, IH.
  rewrite Nat2N.inj_succ, N.pow_succ_r'. lia.
Qed.

(** The canonical form of a number that is not zero. *)
Lemma canon_finite neg m0 e :
  m0 <> 0%N ->
  exists m (z : nat),
    canon (Js.Finite neg m0 e) = Js.Finite neg m (e + Z.of_nat z)
    /\ m <> 0%N /\ m0 = (m * 10 ^ N.of_nat z)%N.
Proof.
  intros Hm0. pose proof (digitsOf_value m0) as Hval.
  destruct (digits_trailing (digitsOf m0)) as (front & d & z & Hds & Hd);
    [by rewrite Hval|].
  exists (Js.digitsValue (front ++ [d])), z. cbn [canon]. rewrite Hds.
  split; [by apply mkFinite_digits|]. split.
  - rewrite digitsValue_snoc. lia.
  - by rewrite <- Hval, Hds, digitsValue_app_zeros.
Qed.

(** The text of a number that is not zero parses back to its canonical
    form. *)
Lemma parseFloat_numToString (neg : bool) (m0 : N) (e : Z) :
  m0 <> 0%N ->
  Js.parseFloat (Js.numToString (Js.Finite neg m0 e)) = canon (Js.Finite neg m0 e).
Proof.
  intros Hm0. pose proof (digitsOf_value m0) as Hval0.
  destruct (digits_trailing (digitsOf m0)) as (front & d & z & Hds & Hd0);
    [by rewrite Hval0|].
  pose proof (digitsOf_isDigits m0) as Hdig.
  set (m := Js.digitsValue (front ++ [d])).
  assert (Hval : Js.digitsValue (front ++ [d]) = m) by done.
  assert (Hc : canon (Js.Finite neg m0 e) = Js.Finite neg m (e + Z.of_nat z)).
  { cbn [canon]. rewrite Hds. by apply mkFinite_digits. }
  rewrite Hc. clear Hc.
  cbn [Js.numToString]. destruct (N.eqb_spec m0 0) as [|_]; [done|].
  rewrite decimal_digits, digitString_length.
  destruct (digitsOf m0) as [|d0 tl] eqn:Eds; [by destruct front|].
  set (k := Z.of_nat (length (d0 :: tl))).
  assert (Hk : 1 <= k) by (subst k; cbn [length]; lia).
  destruct (Z.leb_spec k (e + k)) as [H1|H1];
    destruct (Z.leb_spec (e + k) 21) as [H2|H2];
    destruct (Z.ltb_spec 0 (e + k)) as [H3|H3];
    destruct (Z.ltb_spec (-6) (e + k)) as [H4|H4];
    destruct (Z.leb_spec (e + k) 0) as [H5|H5]; try lia; cbn [andb].
  all: first
    [ rewrite (shape_integer neg m front d d0 tl z Hds Hd0 Hdig Hval); f_equal; lia
    | rewrite (shape_point neg m front d d0 tl z Hds Hd0 Hdig Hval); [f_equal; lia | lia]
    | rewrite (shape_small neg m front d d0 tl z Hds Hd0 Hdig Hval); f_equal; lia
    | rewrite (shape_exponent neg m front d d0 tl z Hds Hd0 Hdig Hval); f_equal; lia ].
Qed.

Lemma canon_truthy x : Js.truthyNum (canon x) = Js.truthyNum x.
Proof.
  destruct x as [| |neg m e]; [done..|]. cbn [Js.truthyNum].
  destruct (N.eqb_spec m 0) as [->|Hm]; [by vm_compute|].
  destruct (canon_finite neg m e Hm) as (m' & z & -> & Hm' & _).
  cbn [Js.truthyNum]. by destruct (N.eqb_spec m' 0).
Qed.

(** A canonical number is its own canonical form. *)
Lemma canon_canonical x : canonical x -> canon x = x.
Proof.
  destruct x as [| |neg m e]; [done..|]. cbn [canonical canon].
  intros [[-> ->]|Hm]; [by vm_compute|].
  destruct (digitsOf_last m Hm) as (front & d & Hds & Hd & _).
  pose proof (mkFinite_digits neg front d 0 e m Hd) as E.
  cbn [replicate] in E. rewrite app_nil_r, <- Hds in E.
  rewrite E by apply digitsOf_value. f_equal. lia.
Qed.

(** [String] then [parseFloat] gives every truthy number in its canonical
    form. *)
Lemma parse_of_text x :
  Js.truthyNum x = true -> Js.parseFloat (Js.numToString x) = canon x.
Proof.
  destruct x as [|[]|neg m e]; cbn [Js.truthyNum]; try done.
  intros Ht. apply parseFloat_numToString. by destruct (N.eqb_spec m 0).
Qed.

(** [String] then [parseFloat] gives back every truthy canonical number. *)
Lemma number_round_trip (x : Js.number) :
  canonical x -> Js.truthyNum x = true -> Js.parseFloat (Js.numToString x) = x.
Proof. intros Hc Ht. by rewrite parse_of_text, canon_canonical. Qed.

Lemma sameNumber_refl x : sameNumber x x.
Proof. destruct x; cbn [sameNumber]; done. Qed.

(** The canonical form denotes the number it was taken of. *)
Lemma sameNumber_canon x : sameNumber (canon x) x.
Proof.
  destruct x as [| |neg m0 e]; [done..|].
  destruct (N.eqb_spec m0 0) as [->|Hm].
  - replace (canon (Js.Finite neg 0 e)) with (Js.Finite neg 0 0) by (by vm_compute).
    cbn [sameNumber]. split; [done|]. by rewrite !Z.mul_0_l.
  - destruct (canon_finite neg m0 e Hm) as (m & z & -> & _ & ->).
    cbn [sameNumber]. split; [done|].
    rewrite Z.min_r by lia.
    replace (e + Z.of_nat z - e) with (Z.of_nat z) by lia.
    rewrite Z.sub_diag, Z.pow_0_r, Z.mul_1_r.
    rewrite N2Z.inj_mul, N2Z.inj_pow. by rewrite nat_N_Z.
Qed.

(** [parseFloat] returns canonical numbers. *)
Lemma dropZeros_spec ds :
  isDigits ds ->
  isDigits (Js.dropZeros ds)
  /\ (Js.dropZeros ds = [] \/ exists d r, Js.dropZeros ds = d :: r /\ d <> 0%N).
Proof.
  induction 1 as [|d ds Hd Hds [IH1 IH2]]; cbn [Js.dropZeros]; [split; [constructor | by left]|].
  destruct (N.eqb_spec d 0) as [->|Hne]; [done|].
  split; [by constructor | right; by exists d, ds].
Qed.

Lemma mkFinite_canonical neg ds e : isDigits ds -> canonical (Js.mkFinite neg ds e).
Proof.
  intros Hds. unfold Js.mkFinite.
  destruct (N.eqb_spec (Js.digitsValue (rev (Js.dropZeros (rev ds)))) 0) as [|Hne];
    [by left|right].
  destruct (dropZeros_spec (rev ds)) as [Hdig [Hnil|(d & r & Hr & Hd)]].
  { by apply List.Forall_rev. }
  - rewrite Hnil in Hne. done.
  - rewrite Hr in *. cbn [rev]. rewrite digitsValue_snoc.
    apply Forall_cons in Hdig as [Hd10 _].
    rewrite N.add_comm, N.mul_comm, N.Div0.mod_add, N.mod_small by done. done.
Qed.

Lemma spanDigits_isDigits s : isDigits (Js.spanDigits s).1.
Proof.
  induction s as [|c s IH]; cbn [Js.spanDigits]; [constructor|].
  destruct (Js.digit c) as [d|] eqn:Hc; [|constructor].
  destruct (Js.spanDigits s) as [ds rest]. cbn [fst] in *. constructor; [|done].
  unfold Js.digit in Hc.
  destruct ((48 <=? Js.code c)%N && (Js.code c <=? 57)%N) eqn:Hr; [|discriminate].
  injection Hc as <-. apply andb_true_iff in Hr as [_ H57]. apply N.leb_le in H57. lia.
Qed.

Lemma parseDecimal_canonical neg s : canonical (Js.parseDecimal neg s).
Proof.
  unfold Js.parseDecimal. destruct (Js.startsWith s "Infinity"); [done|].
  pose proof (spanDigits_isDigits s) as Hip.
  destruct (Js.spanDigits s) as [ip s2]. cbn [fst] in Hip.
  assert (Hfp : forall r, isDigits (Js.spanDigits r).1) by apply spanDigits_isDigits.
  set (p := match s2 with String "." r => Js.spanDigits r | _ => ([], s2) end).
  assert (Hp : isDigits p.1).
  { subst p. destruct s2 as [|c r]; [constructor|].
    destruct (ascii_dec c ".") as [->|Hc]; [apply Hfp|].
    destruct c as [[] [] [] [] [] [] [] []]; try constructor; congruence. }
  destruct p as [fp s3]. cbn [fst] in Hp.
  destruct (ip ++ fp) as [|x l] eqn:E; [done|].
  apply mkFinite_canonical. rewrite <- E. by apply Forall_app_2.
Qed.

Lemma parseFloat_canonical s : canonical (Js.parseFloat s).
Proof.
  unfold Js.parseFloat. destruct (Js.trimStart s) as [|c r]; [done|].
  destruct c as [[] [] [] [] [] [] [] []]; apply parseDecimal_canonical.
Qed.

Lemma canon_is_canonical x : canonical (canon x).
Proof.
  destruct x as [| |neg m e]; [done..|]. cbn [canon].
  apply mkFinite_canonical, digitsOf_isDigits.
Qed.

Lemma canon_idem x : canon (canon x) = canon x.
Proof. apply canon_canonical, canon_is_canonical. Qed.

Example parseFloat_42 : Js.parseFloat "42" = Js.ofN 42.
Proof. reflexivity. Qed.

Example parseFloat_frac : Js.parseFloat "  -12.50e1x" = Js.Finite true 125 0.
Proof. reflexivity. Qed.

Example parseFloat_abc : Js.parseFloat "abc" = Js.NaN.
Proof. reflexivity. Qed.

Example parseFloat_prefix : Js.parseFloat "12abc" = Js.ofN 12.
Proof. reflexivity. Qed.

Example numToString_frac : Js.numToString (Js.Finite false 125 (-1)) = "12.5".
Proof. reflexivity. Qed.

Example numToString_small : Js.numToString (Js.Finite false 15 (-8)) = "1.5e-7".
Proof. reflexivity. Qed.

Example numToString_big : Js.numToString (Js.Finite true 1 21) = "-1e+21".
Proof. reflexivity. Qed.

Example numToString_int : Js.numToString (Js.Finite false 42 1) = "420".
Proof. reflexivity. Qed.

(** ** The Store *)

Lemma find_map_hasId id (f : Obj -> Obj) (rows : list Obj) :
  (forall r, hasId id (f r) = hasId id r) ->
  List.find (hasId id) (map f rows) = f <$> List.find (hasId id) rows.
Proof.
  intros Hf. induction rows as [|r rows IH]; simpl; [done|].
  rewrite Hf. by destruct (hasId id r).
Qed.

Lemma hasId_insert_ne id k v (r : Obj) :
  k <> "id" -> hasId id (<[k := v]> r) = hasId id r.
Proof.
  intros Hk. destruct id as [i|]; simpl; [|done]. by rewrite lookup_insert_ne.
Qed.

Lemma hasId_setCols id cols (r : Obj) :
  Forall (fun kv => kv.1 <> "id") cols -> hasId id (setCols cols r) = hasId id r.
Proof.
  unfold setCols. intros H. revert r.
  induction H as [|[k v] cols Hk _ IH]; intros r; simpl; [done|].
  rewrite IH. by apply hasId_insert_ne.
Qed.

Lemma merged_not_id_customer updates current :
  Forall (fun kv => kv.1 <> "id") (customerOps.merged updates current).
Proof. unfold customerOps.merged. simpl. repeat constructor; done. Qed.

Lemma merged_not_id_product updates current :
  Forall (fun kv => kv.1 <> "id") (productOps.merged updates current).
Proof. unfold productOps.merged. simpl. repeat constructor; done. Qed.

Lemma customer_find_updated id params (rows : list Obj) r :
  Forall (fun kv => kv.1 <> "id") params ->
  List.find (hasId id) rows = Some r ->
  List.find (hasId id) (map (fun r => if hasId id r then setCols params r else r) rows)
  = Some (setCols params r).
Proof.
  intros Hp Hr. rewrite find_map_hasId.
  - rewrite Hr. simpl. apply find_some in Hr as [_ Hr]. by rewrite Hr.
  - intros r'. destruct (hasId id r') eqn:E; [|done]. by rewrite hasId_setCols.
Qed.

Lemma setCols_lookup_notin cols (r : Obj) k :
  ~ In k (map fst cols) -> setCols cols r !! k = r !! k.
Proof.
  unfold setCols. revert r.
  induction cols as [|[k' v'] cols IH]; intros r Hk; [done|].
  cbn [fold_left fst snd]. rewrite IH.
  - apply lookup_insert_ne. intros ->. apply Hk. by left.
  - intros H. apply Hk. by right.
Qed.

Lemma setCols_lookup_in cols (r : Obj) k v :
  List.NoDup (map fst cols) -> In (k, v) cols -> setCols cols r !! k = Some v.
Proof.
  unfold setCols. revert r.
  induction cols as [|[k' v'] cols IH]; intros r Hnd Hin; [done|].
  cbn [fold_left fst snd]. cbn [map fst] in Hnd. apply List.NoDup_cons_iff in Hnd as [Hk' Hnd].
  destruct Hin as [[= -> ->]|Hin].
  - fold (setCols cols (<[k:=v]> r)).
    rewrite setCols_lookup_notin by done. apply lookup_insert_eq.
  - by apply IH.
Qed.

Lemma keys_of_columns (f : string -> value) (cols : list string) :
  map fst (map (fun c => (c, f c)) cols) = cols.
Proof. induction cols as [|c cols IH]; simpl; [done | by rewrite IH]. Qed.

Lemma customer_cols_NoDup : List.NoDup customerOps.cols.
Proof. apply NoDup_ListNoDup. apply (bool_decide_unpack _). by vm_compute. Qed.

Lemma product_cols_NoDup : List.NoDup productOps.cols.
Proof. apply NoDup_ListNoDup. apply (bool_decide_unpack _). by vm_compute. Qed.

Lemma parseRow_lookup_col (r : Obj) c :
  In c customerOps.cols -> customerOps.parseRow r !! c = r !! c.
Proof.
  intros Hc. unfold customerOps.parseRow. apply setCols_lookup_notin.
  rewrite keys_of_columns. intros Hj. revert Hc Hj.
  unfold customerOps.cols, customerOps.textCols, customerOps.numCols,
    customerOps.jsonCols. cbn [app In].
  intros Hc Hj.
  repeat (destruct Hc as [<-|Hc]; [repeat (destruct Hj as [Hj|Hj]; [discriminate|]); done|]).
  done.
Qed.

(** What a customer update leaves in a column whose new value is falsy. *)
Lemma customer_update_keeps id updates db current c v res db' :
  In c customerOps.cols ->
  customerOps.getById id db = Some current ->
  current !! c = Some v ->
  truthy (updates !! c) = false ->
  customerOps.update id updates db = inr (res, db') ->
  exists updated,
    res = Some updated /\ customerOps.getById id db' = Some updated
    /\ updated !! c = Some v.
Proof.
  intros Hc Hcur Hv Hfalsy Hupd.
  unfold customerOps.update in Hupd. rewrite Hcur in Hupd.
  remember (customerOps.merged updates current) as params eqn:Hp.
  destruct (customerOps.violation _); [discriminate|].
  injection Hupd as <- <-.
  unfold customerOps.getById in Hcur |- *. cbn [customers].
  destruct (List.find (hasId id) (customers db)) as [r|] eqn:Hr; [|discriminate].
  injection Hcur as <-.
  rewrite (customer_find_updated _ _ _ r); [|subst params; apply merged_not_id_customer|done].
  eexists. split; [reflexivity|]. split; [reflexivity|].
  cbn [fmap option_fmap option_map].
  rewrite parseRow_lookup_col by done.
  apply setCols_lookup_in.
  - subst params. unfold customerOps.merged. rewrite keys_of_columns.
    apply customer_cols_NoDup.
  - subst params. unfold customerOps.merged. apply in_map_iff. exists c.
    split; [|done]. unfold orElse. by rewrite Hfalsy, Hv.
Qed.

Lemma product_update_keeps id updates db current c v res db' :
  In c productOps.cols ->
  productOps.getById id db = Some current ->
  current !! c = Some v ->
  truthy (updates !! c) = false ->
  productOps.update id updates db = inr (res, db') ->
  exists updated,
    res = Some updated /\ productOps.getById id db' = Some updated
    /\ updated !! c = Some v.
Proof.
  intros Hc Hcur Hv Hfalsy Hupd.
  unfold productOps.update in Hupd. rewrite Hcur in Hupd.
  remember (productOps.merged updates current) as params eqn:Hp.
  destruct (productOps.violation _ _); [discriminate|].
  injection Hupd as <- <-.
  unfold productOps.getById in Hcur |- *. cbn [products].
  rewrite (customer_find_updated _ _ _ current); [|subst params; apply merged_not_id_product|done].
  eexists. split; [reflexivity|]. split; [reflexivity|].
  apply setCols_lookup_in.
  - subst params. unfold productOps.merged. rewrite keys_of_columns.
    apply product_cols_NoDup.
  - subst params. unfold productOps.merged. apply in_map_iff. exists c.
    split; [|done]. unfold orElse. by rewrite Hfalsy, Hv.
Qed.

(** C9. A Store update keeps every column whose supplied value is falsy
    (absent, null, the empty string, 0 or NaN) at the value the record
    holds: the call returns, and the Store then holds, a record with the
    old value in that column.  So an update to 0 or to the empty string
    is not persisted. *)
Theorem update_keeps_falsy (t : Entity) (id : option string) (updates : Obj) (db : Db)
    (current : Obj) (c : string) (v : value) (res : option Obj) (db' : Db) :
  In c (columnsOf t) ->
  getByIdOf t id db = Some current ->
  current !! c = Some v ->
  truthy (updates !! c) = false ->
  updateOf t id updates db = inr (res, db') ->
  exists updated,
    res = Some updated /\ getByIdOf t id db' = Some updated /\ updated !! c = Some v.
Proof.
  destruct t; [apply customer_update_keeps | apply product_update_keeps].
Qed.

(** [update_keeps_falsy] at an update of the first customer that sets the
    debt to 0 and the phone to the empty string. *)
Lemma update_keeps_falsy_witness :
  exists updated,
    Some Sample.ada = Some updated
    /\ customerOps.getById (Some "c1") Sample.store = Some updated
    /\ updated !! "CustomerDebt" = Some (VNum (Js.ofN 5)).
Proof.
  apply (update_keeps_falsy Customers (Some "c1")
           (<["CustomerDebt" := VNum Js.zero]> (<["CustomerPhone" := VStr ""]> Sample.ada))
           Sample.store Sample.ada "CustomerDebt" (VNum (Js.ofN 5))
           (Some Sample.ada) Sample.store).
  - vm_compute. tauto.
  - vm_cast_no_check (@eq_refl _ (Some Sample.ada)).
  - vm_compute. reflexivity.
  - vm_compute. reflexivity.
  - vm_cast_no_check (@eq_refl (SqlError + (option Obj * Db)) (inr (Some Sample.ada, Sample.store))).
Defined.

(** ** Reasoning about the handlers *)

(** Decide the comparisons between closed keys that stand in the goal. *)
Ltac decide_keys :=
  repeat match goal with
    | |- context [bool_decide (?a = ?b)] =>
        is_const a; is_const b;
        let v := eval vm_compute in (bool_decide (a = b)) in
        lazymatch v with
        | true => change (bool_decide (a = b)) with true
        | false => change (bool_decide (a = b)) with false
        end
    | |- context [Key.isEnter ?a] =>
        is_const a;
        let v := eval vm_compute in (Key.isEnter a) in
        lazymatch v with
        | true => change (Key.isEnter a) with true
        | false => change (Key.isEnter a) with false
        end
    | |- context [Key.isBackspace ?a] =>
        is_const a;
        let v := eval vm_compute in (Key.isBackspace a) in
        lazymatch v with
        | true => change (Key.isBackspace a) with true
        | false => change (Key.isBackspace a) with false
        end
    | |- context [Key.isPrintable ?a] =>
        is_const a;
        let v := eval vm_compute in (Key.isPrintable a) in
        lazymatch v with
        | true => change (Key.isPrintable a) with true
        | false => change (Key.isPrintable a) with false
        end
    end.

(** Decide the equalities that hold by reflexivity or fail by a clash of
    constructors. *)
Ltac decide_eqs :=
  repeat match goal with
    | |- context [bool_decide (?a = ?a)] =>
        rewrite (bool_decide_eq_true_2 (a = a) eq_refl)
    | |- context [bool_decide (?a = ?b)] =>
        rewrite (bool_decide_eq_false_2 (a = b)) by discriminate
    end.

(** Reduce projections of the session state and of the world. *)
Ltac wsimpl :=
  cbn [tui db uuidSeed clock timers log status
       currentView selectedIndex searchFilter isSearching formData formStep
       editingId inputBuffer confirmIndex previousView confirmAction confirmMessage
       set_currentView set_selectedIndex set_searchFilter set_isSearching
       set_formData set_formStep set_editingId set_inputBuffer set_confirmIndex
       set_previousView set_confirmAction set_confirmMessage
       modify set_db set_uuidSeed set_clock set_timers set_status emit setTimeout
       drawMainMenu drawListView drawForm drawConfirmation uncaught andThen
       andb orb negb] in *.

Lemma commitField_formData st s :
  formData (commitField st s) = <[field st := committed st (inputBuffer s)]> (formData s).
Proof.
  unfold commitField, committed, numberOrZero.
  by destruct (isNumber st && negb (bool_decide (inputBuffer s = ""))).
Qed.

Lemma commitField_frame st s :
  commitField st s = set_formData (formData (commitField st s)) s.
Proof.
  unfold commitField.
  by destruct (isNumber st && negb (bool_decide (inputBuffer s = ""))).
Qed.

Lemma set_formData_id s : set_formData (formData s) s = s.
Proof. by destruct s. Qed.

(** [commitField] assigns to [formData] only. *)
(** [commitField] assigns to [formData] only. *)
Lemma commitField_currentView st s : currentView (commitField st s) = currentView s.
Proof. rewrite commitField_frame. by destruct s. Qed.

Lemma commitField_selectedIndex st s : selectedIndex (commitField st s) = selectedIndex s.
Proof. rewrite commitField_frame. by destruct s. Qed.

Lemma commitField_searchFilter st s : searchFilter (commitField st s) = searchFilter s.
Proof. rewrite commitField_frame. by destruct s. Qed.

Lemma commitField_isSearching st s : isSearching (commitField st s) = isSearching s.
Proof. rewrite commitField_frame. by destruct s. Qed.

Lemma commitField_formStep st s : formStep (commitField st s) = formStep s.
Proof. rewrite commitField_frame. by destruct s. Qed.

Lemma commitField_editingId st s : editingId (commitField st s) = editingId s.
Proof. rewrite commitField_frame. by destruct s. Qed.

Lemma commitField_inputBuffer st s : inputBuffer (commitField st s) = inputBuffer s.
Proof. rewrite commitField_frame. by destruct s. Qed.

Lemma commitField_confirmIndex st s : confirmIndex (commitField st s) = confirmIndex s.
Proof. rewrite commitField_frame. by destruct s. Qed.

Lemma commitField_previousView st s : previousView (commitField st s) = previousView s.
Proof. rewrite commitField_frame. by destruct s. Qed.

Lemma commitField_confirmAction st s : confirmAction (commitField st s) = confirmAction s.
Proof. rewrite commitField_frame. by destruct s. Qed.

Lemma commitField_confirmMessage st s : confirmMessage (commitField st s) = confirmMessage s.
Proof. rewrite commitField_frame. by destruct s. Qed.

Create Rewrite HintDb commit.
#[export] Hint Rewrite commitField_currentView commitField_selectedIndex
  commitField_searchFilter commitField_isSearching commitField_formStep
  commitField_editingId commitField_inputBuffer commitField_confirmIndex
  commitField_previousView commitField_confirmAction commitField_confirmMessage : commit.

Ltac unfold_handlers :=
  unfold messageReturn, statsReturn, handleKeyPress, dispatch, handleEscape, handleMainMenu, handleListView,
    handleFormView, handleConfirmation, executeFormSave, saveBody, executeFormDelete,
    returnToForm, reopenForm, openConfirmation, newForm, openList, drawFreshList,
    processExit, cleanup, showMessage, showStats, moveToNextField, moveToPrevField,
    stepAt, seedBuffer, redrawForm, redrawConfirmation, enterList in *.

Ltac split_branch :=
  match goal with
  | |- context [match ?c with _ => _ end] =>
      lazymatch c with
      | context [match _ with _ => _ end] => fail
      | _ => destruct c eqn:?
      end
  end.

Ltac crush_handlers :=
  unfold_handlers; cbv zeta; wsimpl; autorewrite with commit in *;
  repeat (split_branch; wsimpl; autorewrite with commit in * ).

Lemma filter_snoc {A} (p : A -> bool) l x :
  List.filter p (l ++ [x]) = List.filter p l ++ (if p x then [x] else []).
Proof. by rewrite List.filter_app. Qed.

Lemma run_app evs1 evs2 w : run (evs1 ++ evs2) w = run evs2 (run evs1 w).
Proof. unfold run. apply fold_left_app. Qed.

Lemma keys_app ks1 ks2 : keys (ks1 ++ ks2) = keys ks1 ++ keys ks2.
Proof. unfold keys. apply map_app. Qed.

Lemma deliver_key k w :
  status w = Running -> deliver (KeyData k) w = handleKeyPress k w.
Proof. intros H. unfold deliver. by rewrite (bool_decide_eq_true_2 _ H). Qed.

Lemma isEnter_cases k : Key.isEnter k = true -> k = Key.cr \/ k = Key.lf.
Proof.
  unfold Key.isEnter. intros H. apply orb_true_iff in H as [H|H];
    apply bool_decide_eq_true in H; auto.
Qed.

(** ** List navigation *)

Lemma arrow_in_list k w :
  inListView w = true -> k = Key.up \/ k = Key.down ->
  handleKeyPress k w = uncaught (handleListView k w).
Proof.
  unfold inListView. intros Hv [-> | ->]; unfold handleKeyPress, dispatch;
    decide_keys; destruct (currentView (tui w)); try discriminate; reflexivity.
Qed.

Lemma repaints_emit e w :
  repaints (emit e w) = (repaints w + if isPaint e then 1 else 0)%nat.
Proof.
  unfold repaints, emit. cbn [log]. rewrite List.filter_app, length_app.
  cbn [List.filter]. by destruct (isPaint e).
Qed.

Lemma arrow_step k w :
  inListView w = true -> k = Key.up \/ k = Key.down ->
  let w' := handleKeyPress k w in
  inListView w' = true
  /\ filteredCount w' = filteredCount w
  /\ (inRange w -> inRange w')
  /\ (filteredCount w = 0%nat ->
      tui w' = tui w /\ db w' = db w /\ repaints w' = repaints w).
Proof.
  intros Hv Hk. cbv zeta. rewrite arrow_in_list by done.
  unfold inRange, filteredCount, inListView in *.
  unfold handleListView.
  destruct w as [s d u c ts l st]; destruct s as [v sel flt srch fd fs eid buf ci pv ca cm].
  wsimpl. unfold getAll. wsimpl.
  set (n := length (filterRecords _ flt _)).
  destruct Hk as [-> | ->]; decide_keys; wsimpl.
  - destruct srch; wsimpl; [by rewrite repaints_emit, Nat.add_0_r|].
    destruct (0 <? n)%nat eqn:Hn; wsimpl.
    + apply Nat.ltb_lt in Hn. repeat split; try done; try lia.
    + rewrite repaints_emit, Nat.add_0_r. done.
  - destruct srch; wsimpl; [by rewrite repaints_emit, Nat.add_0_r|].
    destruct (0 <? n)%nat eqn:Hn; wsimpl.
    + apply Nat.ltb_lt in Hn. repeat split; try done; try lia.
    + rewrite repaints_emit, Nat.add_0_r. done.
Qed.

Lemma arrows_trace (ks : list string) : forall w,
  inListView w = true ->
  Forall (fun k => k = Key.up \/ k = Key.down) ks ->
  inRange w ->
  Forall (fun w' =>
            inRange w' /\ filteredCount w' = filteredCount w
            /\ (filteredCount w = 0%nat ->
                tui w' = tui w /\ db w' = db w /\ repaints w' = repaints w))
         (trace (keys ks) w).
Proof.
  induction ks as [|k ks IH]; intros w Hv Hks Hr; [constructor|].
  apply Forall_cons in Hks as [Hk Hks].
  cbn [keys map trace]. cbv zeta.
  assert (Hstep : inListView (deliver (KeyData k) w) = true
                  /\ filteredCount (deliver (KeyData k) w) = filteredCount w
                  /\ inRange (deliver (KeyData k) w)
                  /\ (filteredCount w = 0%nat ->
                      tui (deliver (KeyData k) w) = tui w
                      /\ db (deliver (KeyData k) w) = db w
                      /\ repaints (deliver (KeyData k) w) = repaints w)).
  { unfold deliver. case_bool_decide; [|done].
    destruct (arrow_step k w Hv Hk) as (H1 & H2 & H3 & H4). auto. }
  destruct Hstep as (H1 & H2 & H3 & H4).
  constructor; [auto|].
  eapply Forall_impl; [apply (IH _ H1 Hks H3)|].
  intros w' (Ha & Hb & Hc). cbv beta.
  split; [exact Ha|]. split; [congruence|]. intros H0.
  destruct (H4 H0) as (? & ? & ?).
  destruct Hc as (? & ? & ?); [congruence|].
  repeat split; congruence.
Qed.

(** C1. In a list view whose cursor is in range, after each event of any
    sequence of Up and Down keys [selectedIndex] lies in
    [0, max(0, filteredCount - 1)], where [filteredCount] counts the
    records matching [searchFilter] (and does not change); when the
    filtered set is empty the keys leave the session state and the Store
    as they are and repaint nothing. *)
Theorem list_cursor_in_range (w : World) (ks : list string) :
  inListView w = true ->
  Forall (fun k => k = Key.up \/ k = Key.down) ks ->
  inRange w ->
  Forall (fun w' =>
            inRange w' /\ filteredCount w' = filteredCount w
            /\ (filteredCount w = 0%nat ->
                tui w' = tui w /\ db w' = db w /\ repaints w' = repaints w))
         (trace (keys ks) w).
Proof. intros. by apply arrows_trace. Qed.

(** [list_cursor_in_range] at the customer list, for Down, Down, Up. *)
Lemma list_cursor_in_range_witness :
  Forall (fun w' =>
            inRange w' /\ filteredCount w' = filteredCount Sample.customerList
            /\ (filteredCount Sample.customerList = 0%nat ->
                tui w' = tui Sample.customerList /\ db w' = db Sample.customerList
                /\ repaints w' = repaints Sample.customerList))
         (trace (keys [Key.down; Key.down; Key.up]) Sample.customerList).
Proof.
  apply (list_cursor_in_range Sample.customerList [Key.down; Key.down; Key.up]).
  - vm_compute. reflexivity.
  - repeat (apply List.Forall_cons; [first [left; reflexivity | right; reflexivity]|]).
    apply List.Forall_nil.
  - split; vm_compute; discriminate.
Defined.

(** ** The commit of a field *)

(** C3 fails on an empty buffer: at the CustomerDebt step of a new form
    the commit stores the empty string, not the number 0. *)
Lemma numeric_commit_counterexample :
  stepsOf (currentView (tui Session.atDebt)) !! formStep (tui Session.atDebt)
    = Some debtStep
  /\ inputBuffer (tui Session.atDebt) = ""
  /\ ~ NumericCommitStoresNumber debtStep (tui Session.atDebt).
Proof.
  split; [vm_compute; reflexivity|]. split; [vm_compute; reflexivity|].
  intros H. specialize (H eq_refl). vm_compute in H. discriminate.
Qed.

(** C3, amended. On a numeric step the commit of a non-empty buffer
    stores the number [parseFloat(inputBuffer) || 0] - 0 when the buffer
    has no numeric prefix, as for "abc", and 42 for "42" - and the commit
    of an empty buffer stores the empty string. *)
Theorem numeric_commit (st : Step) (s : TuiState) :
  isNumber st = true ->
  (inputBuffer s <> "" ->
   formData (commitField st s)
   = <[field st := VNum (numberOrZero (inputBuffer s))]> (formData s))
  /\ (inputBuffer s = "" ->
      formData (commitField st s) = <[field st := VStr ""]> (formData s))
  /\ (Js.parseFloat (inputBuffer s) = Js.NaN -> numberOrZero (inputBuffer s) = Js.zero)
  /\ numberOrZero "42" = Js.ofN 42
  /\ numberOrZero "abc" = Js.zero.
Proof.
  intros Hn. rewrite commitField_formData. unfold committed. rewrite Hn.
  repeat split.
  - intros Hb. by rewrite bool_decide_eq_false_2.
  - intros Hb. by rewrite bool_decide_eq_true_2, Hb.
  - intros Hp. unfold numberOrZero. by rewrite Hp.
Qed.

(** [numeric_commit] at the buffer "12.5" of the CustomerDebt step. *)
Lemma numeric_commit_witness :
  (inputBuffer (set_inputBuffer "12.5" initialTui) <> "" ->
   formData (commitField debtStep (set_inputBuffer "12.5" initialTui))
   = <["CustomerDebt" := VNum (numberOrZero "12.5")]> ∅)
  /\ (inputBuffer (set_inputBuffer "12.5" initialTui) = "" ->
      formData (commitField debtStep (set_inputBuffer "12.5" initialTui))
      = <["CustomerDebt" := VStr ""]> ∅)
  /\ (Js.parseFloat "12.5" = Js.NaN -> numberOrZero "12.5" = Js.zero)
  /\ numberOrZero "42" = Js.ofN 42
  /\ numberOrZero "abc" = Js.zero.
Proof. apply (numeric_commit debtStep (set_inputBuffer "12.5" initialTui)). reflexivity. Defined.

(** ** Ctrl+S *)

(** C2 fails in a new customer form with "Ada" typed: after Ctrl+S
    [formData] has no CustomerName yet. *)
Lemma ctrlS_commit_counterexample :
  endsWithForm (currentView (tui Session.typingAda)) = true
  /\ inputBuffer (tui Session.typingAda) = "Ada"
  /\ ~ CtrlSCommitsThenConfirms Session.typingAda.
Proof.
  split; [vm_compute; reflexivity|]. split; [vm_compute; reflexivity|].
  intros H. destruct (H (mkStep "CustomerName" true false)) as [Hfd _].
  { vm_compute. reflexivity. }
  apply (f_equal (fun m : Obj => m !! "CustomerName")) in Hfd.
  vm_compute in Hfd. discriminate.
Qed.

Lemma saveBody_formData w st :
  (if isCustomerForm (previousView (tui w)) then customerFormSteps else productFormSteps)
    !! formStep (tui w) = Some st ->
  formData (tui (executeFormSave w)) = formData (commitField st (tui w)).
Proof.
  intros Hst. unfold executeFormSave, saveBody, stepAt. rewrite Hst.
  destruct w as [s d u c ts l st']. wsimpl.
  rewrite (commitField_frame st s).
  set (fd := formData (commitField st s)).
  destruct s as [v sel flt srch fd0 fs eid buf ci pv ca cm].
  wsimpl.
  destruct (isCustomerForm pv); [|destruct (isProductForm pv)];
    try destruct (truthyId eid); wsimpl;
    try destruct (customerOps.update _ _ _) as [?|[? ?]];
    try destruct (customerOps.create _ _ _) as [?|[? ?]];
    try destruct (productOps.update _ _ _) as [?|[? ?]];
    try destruct (productOps.create _ _ _) as [?|[? ?]];
    reflexivity.
Qed.

Lemma executeFormSave_call (w : World) (st : Step) (form : View) :
  endsWithForm form = true ->
  previousView (tui w) = Some form ->
  stepsOf form !! formStep (tui w) = Some st ->
  let data := formData (commitField st (tui w)) in
  let saved := executeFormSave w in
  storeCalls saved = storeCalls w ++ [Store (saveCall form (editingId (tui w)) data)]
  /\ db saved = savedDb form (editingId (tui w)) data (uuidSeed w) (db w).
Proof.
  intros Hform Hpv Hst. cbv zeta.
  assert (Hsteps : (if isCustomerForm (previousView (tui w)) then customerFormSteps
                    else productFormSteps) !! formStep (tui w) = Some st).
  { rewrite Hpv. unfold isCustomerForm, stepsOf in *.
    destruct form; try discriminate; decide_eqs; exact Hst. }
  unfold executeFormSave, saveBody, stepAt. rewrite Hsteps.
  unfold saveCall, savedDb, storeCalls, showMessage.
  destruct w as [s d u c ts l st']. wsimpl.
  rewrite (commitField_frame st s).
  set (fd := formData (commitField st s)). clearbody fd.
  destruct s as [v sel flt srch fd0 fs eid buf ci pv ca cm].
  wsimpl. cbn [previousView] in Hpv. subst pv.
  unfold isCustomerForm, isProductForm.
  destruct form; try discriminate; decide_eqs; cbn [entityOf updateOf createOf];
    destruct (truthyId eid); wsimpl;
    try destruct (customerOps.update _ _ _) as [?|[? ?]];
    try destruct (customerOps.create _ _ _) as [?|[? ?]];
    try destruct (productOps.update _ _ _) as [?|[? ?]];
    try destruct (productOps.create _ _ _) as [?|[? ?]];
    wsimpl; rewrite !List.filter_app; cbn [List.filter isStore app]; rewrite ?app_nil_r;
    done.
Qed.

(** C2, amended. Ctrl+S in a customer or product form enters the save
    confirmation - view ConfirmAction, action save, default choice yes,
    coming from the form - and leaves [formData], [inputBuffer] and
    [formStep] as they are, with no call of the Store.  The current field
    is committed into [formData] when Enter then confirms the save, before
    the Store is called: the one call Enter makes - an update of the
    record being edited, or a create - receives the committed data, and
    the Store afterwards is what that call made of it. *)
Theorem ctrlS_opens_save_confirmation (w : World) (st : Step) :
  endsWithForm (currentView (tui w)) = true ->
  stepsOf (currentView (tui w)) !! formStep (tui w) = Some st ->
  let w' := handleKeyPress Key.ctrlS w in
  let shown := handleKeyPress Key.cr w' in
  let data := formData (commitField st (tui w)) in
  currentView (tui w') = ConfirmAction
  /\ confirmAction (tui w') = Some Save
  /\ confirmIndex (tui w') = 1%nat
  /\ previousView (tui w') = Some (currentView (tui w))
  /\ formData (tui w') = formData (tui w)
  /\ inputBuffer (tui w') = inputBuffer (tui w)
  /\ formStep (tui w') = formStep (tui w)
  /\ db w' = db w
  /\ storeCalls w' = storeCalls w
  /\ formData (tui shown) = data
  /\ storeCalls shown
     = storeCalls w ++ [Store (saveCall (currentView (tui w)) (editingId (tui w)) data)]
  /\ db shown
     = savedDb (currentView (tui w)) (editingId (tui w)) data (uuidSeed w) (db w).
Proof.
  intros Hv Hst. cbv zeta.
  assert (Hk : handleKeyPress Key.ctrlS w
               = openConfirmation Save
                   (AskSave (recordName (tui w)) (truthyId (editingId (tui w)))) 1 w).
  { unfold handleKeyPress. decide_keys. by rewrite Hv. }
  rewrite Hk. clear Hk.
  set (w' := openConfirmation _ _ _ w).
  repeat (split; [reflexivity|]).
  assert (Hsc : storeCalls w' = storeCalls w).
  { subst w'. unfold openConfirmation, storeCalls. wsimpl.
    by rewrite filter_snoc, app_nil_r. }
  split; [exact Hsc|].
  assert (Hc : handleKeyPress Key.cr w' = executeFormSave w').
  { unfold handleKeyPress. decide_keys. subst w'. unfold openConfirmation. wsimpl.
    unfold dispatch, handleConfirmation. wsimpl. decide_keys. reflexivity. }
  rewrite Hc.
  assert (Hst' : stepsOf (currentView (tui w)) !! formStep (tui w') = Some st)
    by (subst w'; unfold openConfirmation; by wsimpl).
  assert (Hpv : previousView (tui w') = Some (currentView (tui w)))
    by (subst w'; unfold openConfirmation; by wsimpl).
  assert (Hdata : formData (commitField st (tui w')) = formData (commitField st (tui w))).
  { subst w'. unfold openConfirmation. wsimpl. by rewrite !commitField_formData. }
  destruct (executeFormSave_call w' st (currentView (tui w)) Hv Hpv Hst') as [Hcall Hdb].
  rewrite Hdata, Hsc in Hcall. rewrite Hdata in Hdb.
  split; [|split].
  - rewrite (saveBody_formData w' st); [exact Hdata|].
    rewrite Hpv. unfold stepsOf, isCustomerForm in *.
    destruct (currentView (tui w)); try discriminate; exact Hst'.
  - exact Hcall.
  - rewrite Hdb. subst w'. unfold openConfirmation. by wsimpl.
Qed.

(** [ctrlS_opens_save_confirmation] at the form with "Ada" typed. *)
Lemma ctrlS_opens_save_confirmation_witness :
  let w := Session.typingAda in
  let w' := handleKeyPress Key.ctrlS w in
  let shown := handleKeyPress Key.cr w' in
  let data := formData (commitField (mkStep "CustomerName" true false) (tui w)) in
  currentView (tui w') = ConfirmAction
  /\ confirmAction (tui w') = Some Save
  /\ confirmIndex (tui w') = 1%nat
  /\ previousView (tui w') = Some (currentView (tui w))
  /\ formData (tui w') = formData (tui w)
  /\ inputBuffer (tui w') = inputBuffer (tui w)
  /\ formStep (tui w') = formStep (tui w)
  /\ db w' = db w
  /\ storeCalls w' = storeCalls w
  /\ formData (tui shown) = data
  /\ storeCalls shown
     = storeCalls w ++ [Store (saveCall (currentView (tui w)) (editingId (tui w)) data)]
  /\ db shown
     = savedDb (currentView (tui w)) (editingId (tui w)) data (uuidSeed w) (db w).
Proof.
  apply (ctrlS_opens_save_confirmation Session.typingAda (mkStep "CustomerName" true false)).
  - vm_compute. reflexivity.
  - vm_compute. reflexivity.
Defined.

(** ** Moving through a form without typing *)

Lemma settled_idem v : settled (settled v) = settled v.
Proof. destruct v as [[]|]; cbn [settled]; by rewrite ?canon_idem. Qed.

Lemma settled_keeps st v : keepsValue st v -> keepsValue st (settled v).
Proof.
  unfold keepsValue. destruct (isNumber st).
  - intros [->|(x & -> & Hx)]; [by left|]. right. exists (canon x).
    split; [done|]. by rewrite canon_truthy.
  - intros (s & ->). by exists s.
Qed.

(** The commit of the text of a value that [keepsValue] allows. *)
Lemma committed_settled st v :
  keepsValue st v -> Some (committed st (stringOrEmpty v)) = settled v.
Proof.
  unfold keepsValue, committed, numberOrZero.
  destruct (isNumber st).
  - intros [->|(x & -> & Hx)]; [done|].
    pose proof (parse_of_text x Hx) as Hrt.
    unfold stringOrEmpty, truthy. rewrite Hx.
    cbn [toStr andb settled]. case_bool_decide as He.
    + rewrite He in Hrt. pose proof (canon_truthy x) as Ht.
      rewrite <- Hrt, Hx in Ht. vm_compute in Ht. discriminate.
    + cbn [negb]. by rewrite Hrt, canon_truthy, Hx.
  - intros (s & ->). cbn [andb settled]. unfold stringOrEmpty, truthy.
    case_bool_decide as He; cbn [negb toStr]; by subst.
Qed.

Lemma Settles_refl fd : Settles fd fd.
Proof. intros k. by left. Qed.

Lemma Settles_commit fd fd' f c :
  Settles fd fd' -> Some c = settled (fd !! f) -> Settles fd (<[f := c]> fd').
Proof.
  intros Hs Hc k. destruct (decide (k = f)) as [->|Hne].
  - right. by rewrite lookup_insert_eq.
  - rewrite lookup_insert_ne by done. apply Hs.
Qed.

Lemma Settles_same fd fd' : Settles fd fd' -> sameFields fd' fd.
Proof.
  intros Hs k. destruct (Hs k) as [->| ->]; [by left|].
  destruct (fd !! k) as [[| |x|]|]; cbn [settled]; try (by left).
  right. exists (canon x), x. repeat split. apply sameNumber_canon.
Qed.

Lemma Settles_canonical fd fd' : Settles fd fd' -> canonicalFields fd -> fd' = fd.
Proof.
  intros Hs Hc. apply map_eq. intros k. destruct (Hs k) as [->| ->]; [done|].
  destruct (fd !! k) as [[| |x|]|] eqn:E; cbn [settled]; try done.
  by rewrite (canon_canonical x (Hc k x E)).
Qed.

Lemma steps_nonempty v : (0 < length (stepsOf v))%nat.
Proof. unfold stepsOf. case_bool_decide; cbn; lia. Qed.

Lemma FormAt_redrawForm v fd i steps w :
  FormAt v fd i w -> FormAt v fd i (redrawForm steps w).
Proof. unfold FormAt, redrawForm. by wsimpl. Qed.

Lemma form_key_dispatch k w :
  endsWithForm (currentView (tui w)) = true ->
  isAdvance k \/ k = Key.up ->
  handleKeyPress k w = uncaught (handleFormView k w).
Proof.
  intros Hv Hk. unfold handleKeyPress, dispatch.
  destruct Hk as [[-> | [-> | [-> | ->]]] | ->]; decide_keys; wsimpl;
    destruct (currentView (tui w)); try discriminate; reflexivity.
Qed.

(** Navigation in a form [v] seeded with data [fd] that survive a commit:
    every field reads back, through the buffer, as the value it holds. *)
Section navigation.

Variables (v : View) (fd : Obj).
Hypothesis Hform : endsWithForm v = true.
Hypothesis Hkept : Kept v fd.

(** The commit at step [i], and the buffer read from step [j]. *)
Lemma commit_then_seed i j st w :
  FormAt v fd i w -> stepsOf v !! i = Some st -> (j < length (stepsOf v))%nat ->
  let w1 := modify (commitField st) w in
  FormAt v fd i w1
  /\ (forall st', stepsOf v !! j = Some st' ->
        FormAt v fd j (modify (seedBuffer st')
                         (modify (fun s => set_formStep j s) w1)))
  /\ editingId (tui w1) = editingId (tui w).
Proof.
  intros (Hv & Hs & Hi & Hrun & Hb) Hst Hj. cbv zeta.
  pose proof (Hb st Hst) as Hc.
  assert (Hs1 : Settles fd (formData (commitField st (tui w)))).
  { rewrite commitField_formData. by apply Settles_commit. }
  assert (Hframe : commitField st (tui w)
                   = set_formData (formData (commitField st (tui w))) (tui w))
    by apply commitField_frame.
  set (fd1 := formData (commitField st (tui w))) in *. clearbody fd1.
  unfold modify. rewrite Hframe.
  destruct w as [s d u c ts l sta]; destruct s as [cv sel flt srch fd0 fs eid buf ci pv ca cm].
  unfold FormAt, seedBuffer. wsimpl. cbn [formStep currentView status inputBuffer] in *.
  split; [done|]. split; [|done].
  intros st' Hst'. repeat split; try done.
  intros st2 Hst2. assert (st2 = st') as -> by congruence.
  assert (Hk : keepsValue st' (fd !! field st')).
  { eapply Forall_forall in Hkept; [exact Hkept|]. by eapply list_elem_of_lookup_2. }
  destruct (Hs1 (field st')) as [-> | ->].
  - by apply committed_settled.
  - rewrite committed_settled by (by apply settled_keeps). apply settled_idem.
Qed.

Lemma moveToNextField_kept i w :
  FormAt v fd i w -> (i < length (stepsOf v))%nat ->
  exists w', moveToNextField w = Done w'
             /\ FormAt v fd (if (i + 1 <? length (stepsOf v))%nat then i + 1 else i)%nat w'
             /\ editingId (tui w') = editingId (tui w).
Proof.
  intros Hat Hi.
  destruct (lookup_lt_is_Some_2 (stepsOf v) i Hi) as [st Hst].
  pose proof Hat as (Hv & _ & Hi' & _ & _).
  unfold moveToNextField, stepAt. rewrite Hv, Hi', Hst.
  assert (Hfs : formStep (tui (modify (commitField st) w)) = i).
  { unfold modify. rewrite commitField_frame. by destruct w as [[] ? ? ? ? ? ?]. }
  rewrite Hfs.
  replace (i <? length (stepsOf v) - 1)%nat with (i + 1 <? length (stepsOf v))%nat
    by (destruct (Nat.ltb_spec (i + 1) (length (stepsOf v)));
        destruct (Nat.ltb_spec i (length (stepsOf v) - 1)); lia).
  destruct (Nat.ltb_spec (i + 1) (length (stepsOf v))) as [Hlt|Hge].
  - destruct (commit_then_seed i (i + 1) st w Hat Hst Hlt) as (_ & Hnext & Hid).
    destruct (lookup_lt_is_Some_2 (stepsOf v) (i + 1) Hlt) as [st' Hst'].
    specialize (Hnext st' Hst').
    assert (Hfs2 : formStep (tui (modify (fun s => set_formStep (formStep s + 1) s)
                                    (modify (commitField st) w))) = (i + 1)%nat).
    { unfold modify at 1. cbn [tui formStep set_formStep]. by rewrite Hfs. }
    rewrite Hfs2, Hst'. eexists. split; [reflexivity|].
    assert (Heq : modify (fun s => set_formStep (formStep s + 1) s)
                    (modify (commitField st) w)
                  = modify (fun s => set_formStep (i + 1) s) (modify (commitField st) w)).
    { unfold modify at 1 3. cbn [tui db uuidSeed clock timers log status].
      by rewrite Hfs. }
    rewrite Heq. split; [exact Hnext|].
    rewrite <- Hid. unfold modify, seedBuffer. by wsimpl.
  - destruct (commit_then_seed i i st w Hat Hst Hi) as (Hsame & _ & Hid).
    eexists. split; [reflexivity|]. by split.
Qed.

Lemma moveToPrevField_kept i w :
  FormAt v fd i w -> (i < length (stepsOf v))%nat ->
  exists w', moveToPrevField w = Done w'
             /\ FormAt v fd (i - 1)%nat w'
             /\ editingId (tui w') = editingId (tui w).
Proof.
  intros Hat Hi.
  destruct (lookup_lt_is_Some_2 (stepsOf v) i Hi) as [st Hst].
  pose proof Hat as (Hv & _ & Hi' & _ & _).
  unfold moveToPrevField, stepAt. rewrite Hv, Hi', Hst.
  assert (Hfs : formStep (tui (modify (commitField st) w)) = i).
  { unfold modify. rewrite commitField_frame. by destruct w as [[] ? ? ? ? ? ?]. }
  rewrite Hfs.
  destruct (Nat.ltb_spec 0 i) as [Hlt|Hge].
  - assert (Hlt' : (i - 1 < length (stepsOf v))%nat) by lia.
    destruct (commit_then_seed i (i - 1) st w Hat Hst Hlt') as (_ & Hprev & Hid).
    destruct (lookup_lt_is_Some_2 (stepsOf v) (i - 1) Hlt') as [st' Hst'].
    specialize (Hprev st' Hst').
    assert (Hfs2 : formStep (tui (modify (fun s => set_formStep (formStep s - 1) s)
                                    (modify (commitField st) w))) = (i - 1)%nat).
    { unfold modify at 1. cbn [tui formStep set_formStep]. by rewrite Hfs. }
    rewrite Hfs2, Hst'. eexists. split; [reflexivity|].
    assert (Heq : modify (fun s => set_formStep (formStep s - 1) s)
                    (modify (commitField st) w)
                  = modify (fun s => set_formStep (i - 1) s) (modify (commitField st) w)).
    { unfold modify at 1 3. cbn [tui db uuidSeed clock timers log status].
      by rewrite Hfs. }
    rewrite Heq. split; [exact Hprev|].
    rewrite <- Hid. unfold modify, seedBuffer. by wsimpl.
  - destruct (commit_then_seed i i st w Hat Hst Hi) as (Hsame & _ & Hid).
    eexists. split; [reflexivity|]. replace (i - 1)%nat with i by lia. by split.
Qed.

Lemma advance_step i k w :
  (i < length (stepsOf v))%nat ->
  isAdvance k -> FormAt v fd i w ->
  FormAt v fd (if (i + 1 <? length (stepsOf v))%nat then i + 1 else i)%nat
    (deliver (KeyData k) w).
Proof.
  intros Hi Hk Hat.
  destruct (moveToNextField_kept _ _ Hat Hi) as (w' & Hmv & Hat' & _).
  pose proof Hat as (Hcv & _ & _ & Hrun & _).
  unfold deliver. rewrite Hrun, bool_decide_eq_true_2 by done.
  rewrite form_key_dispatch by (rewrite ?Hcv; auto).
  unfold handleFormView.
  destruct Hk as [-> | [-> | [-> | ->]]]; decide_keys; wsimpl;
    rewrite Hmv; wsimpl; by apply FormAt_redrawForm.
Qed.

Lemma retreat_step i w :
  (i < length (stepsOf v))%nat ->
  FormAt v fd i w ->
  FormAt v fd (i - 1)%nat (deliver (KeyData Key.up) w).
Proof.
  intros Hi Hat.
  destruct (moveToPrevField_kept _ _ Hat Hi) as (w' & Hmv & Hat' & _).
  pose proof Hat as (Hcv & _ & _ & Hrun & _).
  unfold deliver. rewrite Hrun, bool_decide_eq_true_2 by done.
  rewrite form_key_dispatch by (rewrite ?Hcv; auto).
  unfold handleFormView. decide_keys. wsimpl.
  rewrite Hmv. wsimpl. by apply FormAt_redrawForm.
Qed.

Lemma advance_run (ks : list string) : forall i w,
  (i < length (stepsOf v))%nat ->
  Forall isAdvance ks -> FormAt v fd i w ->
  FormAt v fd (Nat.min (i + length ks) (length (stepsOf v) - 1)) (run (keys ks) w).
Proof.
  induction ks as [|k ks IH]; intros i w Hi Hks Hat.
  - cbn. replace (Nat.min (i + 0) _) with i by lia. exact Hat.
  - apply Forall_cons in Hks as [Hk Hks].
    change (run (keys (k :: ks)) w) with (run (keys ks) (deliver (KeyData k) w)).
    pose proof (advance_step i k w Hi Hk Hat) as Hnext.
    destruct (Nat.ltb_spec (i + 1) (length (stepsOf v))) as [Hlt|Hge].
    + apply IH in Hnext; try done.
      replace (Nat.min (i + length (k :: ks)) _)
        with (Nat.min (i + 1 + length ks) (length (stepsOf v) - 1))
        by (cbn [length]; lia).
      exact Hnext.
    + apply IH in Hnext; try done.
      replace (Nat.min (i + length (k :: ks)) _)
        with (Nat.min (i + length ks) (length (stepsOf v) - 1))
        by (cbn [length]; lia).
      exact Hnext.
Qed.

Lemma retreat_run (ks : list string) : forall i w,
  (i < length (stepsOf v))%nat ->
  Forall (fun k => k = Key.up) ks -> FormAt v fd i w ->
  FormAt v fd (i - length ks) (run (keys ks) w).
Proof.
  induction ks as [|k ks IH]; intros i w Hi Hks Hat.
  - cbn. replace (i - 0)%nat with i by lia. exact Hat.
  - apply Forall_cons in Hks as [-> Hks].
    change (run (keys (Key.up :: ks)) w)
      with (run (keys ks) (deliver (KeyData Key.up) w)).
    pose proof (retreat_step i w Hi Hat) as Hnext.
    apply IH in Hnext; try done; [|lia].
    replace (i - length (Key.up :: ks))%nat with (i - 1 - length ks)%nat
      by (cbn [length]; lia).
    exact Hnext.
Qed.

End navigation.

(** C6 fails in the edit form of a customer whose debt is 0: after six
    moves forward and six back CustomerDebt holds the empty string. *)
Lemma form_round_trip_counterexample :
  currentView (tui Session.editingBora) = CustomerForm
  /\ formData (tui Session.editingBora) = Sample.bora
  /\ formStep (tui Session.editingBora) = 0%nat
  /\ ~ RoundTripKeepsFormData Session.editingBora.
Proof.
  split; [vm_compute; reflexivity|].
  split; [vm_cast_no_check (@eq_refl Obj Sample.bora)|].
  split; [vm_compute; reflexivity|].
  intros H.
  specialize (H (replicate 6 Key.down) (replicate 6 Key.up)).
  assert (Hd : formData (tui (run (keys (replicate 6 Key.down ++ replicate 6 Key.up))
                                 Session.editingBora)) !! "CustomerDebt"
               = Some (VStr "")) by (vm_compute; reflexivity).
  rewrite H in Hd.
  - vm_compute in Hd. discriminate.
  - repeat (apply List.Forall_cons; [left; reflexivity|]). apply List.Forall_nil.
  - vm_compute. reflexivity.
  - repeat (apply List.Forall_cons; [reflexivity|]). apply List.Forall_nil.
  - vm_compute. reflexivity.
Qed.

(** C6, amended. In a form whose data hold a string in every text field
    and, in every numeric field, the empty string or a number other than 0
    and NaN, moving forward through all steps and then back to the first,
    with no other key in between, leaves every field of [formData] at its
    seed value.  A number is compared by its value, the model having more
    than one representation of a number; where the numbers of the seed
    are in canonical form, [formData] is equal to its seed. *)
Theorem form_round_trip (w : World) (advance retreat : list string) :
  let v := currentView (tui w) in
  endsWithForm v = true ->
  status w = Running ->
  formStep (tui w) = 0%nat ->
  (forall st, stepsOf v !! 0%nat = Some st ->
              inputBuffer (tui w) = stringOrEmpty (formData (tui w) !! field st)) ->
  Forall (fun st => keepsValue st (formData (tui w) !! field st)) (stepsOf v) ->
  Forall isAdvance advance -> length advance = (length (stepsOf v) - 1)%nat ->
  Forall (fun k => k = Key.up) retreat -> length retreat = (length (stepsOf v) - 1)%nat ->
  let w1 := run (keys advance) w in
  let w2 := run (keys (advance ++ retreat)) w in
  formStep (tui w1) = (length (stepsOf v) - 1)%nat
  /\ sameFields (formData (tui w1)) (formData (tui w))
  /\ formStep (tui w2) = 0%nat
  /\ sameFields (formData (tui w2)) (formData (tui w))
  /\ (canonicalFields (formData (tui w)) ->
      formData (tui w1) = formData (tui w) /\ formData (tui w2) = formData (tui w)).
Proof.
  intros v Hv Hrun H0 Hbuf Hkept Hadv Hla Hret Hlr w1 w2.
  pose proof (steps_nonempty v) as Hpos.
  assert (Hat : FormAt v (formData (tui w)) 0 w).
  { repeat split; try done; [apply Settles_refl|].
    intros st Hst. rewrite (Hbuf st Hst). apply committed_settled.
    eapply Forall_forall in Hkept; [exact Hkept|]. by eapply list_elem_of_lookup_2. }
  pose proof (advance_run v _ Hv Hkept advance 0 w Hpos Hadv Hat) as H1.
  rewrite Hla in H1.
  replace (Nat.min _ _) with (length (stepsOf v) - 1)%nat in H1 by lia.
  assert (Hlast : (length (stepsOf v) - 1 < length (stepsOf v))%nat) by lia.
  pose proof (retreat_run v _ Hv Hkept retreat _ _ Hlast Hret H1) as H2.
  rewrite Hlr, Nat.sub_diag in H2.
  subst w1 w2. rewrite keys_app, run_app.
  destruct H1 as (_ & Hs1 & Hi1 & _), H2 as (_ & Hs2 & Hi2 & _).
  split; [done|]. split; [by apply Settles_same|].
  split; [done|]. split; [by apply Settles_same|].
  intros Hc. split; by apply Settles_canonical.
Qed.

(** [form_round_trip] at the edit form of the first product, whose stock
    the sample holds in a representation that is not canonical. *)
Lemma form_round_trip_witness :
  let w := Screens.editingBolt in
  let v := currentView (tui w) in
  let w1 := run (keys (replicate 7 Key.cr)) w in
  let w2 := run (keys (replicate 7 Key.cr ++ replicate 7 Key.up)) w in
  formStep (tui w1) = (length (stepsOf v) - 1)%nat
  /\ sameFields (formData (tui w1)) (formData (tui w))
  /\ formStep (tui w2) = 0%nat
  /\ sameFields (formData (tui w2)) (formData (tui w))
  /\ (canonicalFields (formData (tui w)) ->
      formData (tui w1) = formData (tui w) /\ formData (tui w2) = formData (tui w)).
Proof.
  apply (form_round_trip Screens.editingBolt (replicate 7 Key.cr) (replicate 7 Key.up)).
  - vm_compute. reflexivity.
  - vm_compute. reflexivity.
  - vm_compute. reflexivity.
  - intros st Hst. vm_compute in Hst. injection Hst as <-. vm_compute. reflexivity.
  - replace (currentView (tui Screens.editingBolt)) with ProductForm
      by (vm_compute; reflexivity).
    replace (formData (tui Screens.editingBolt)) with Sample.bolt
      by (vm_cast_no_check (@eq_refl Obj Sample.bolt)).
    unfold stepsOf, productFormSteps, keepsValue. cbn [bool_decide decide_rel].
    cbn [isNumber field].
    apply List.Forall_cons; [exists "B-10"; vm_compute; reflexivity|].
    apply List.Forall_cons; [exists "Steel bolt"; vm_compute; reflexivity|].
    apply List.Forall_cons; [exists "869"; vm_compute; reflexivity|].
    apply List.Forall_cons;
      [right; exists (Js.Finite false 25 (-1)); split; vm_compute; reflexivity|].
    apply List.Forall_cons; [exists "Hardware"; vm_compute; reflexivity|].
    apply List.Forall_cons; [right; exists (Js.ofN 40); split; vm_compute; reflexivity|].
    apply List.Forall_cons; [right; exists (Js.ofN 4); split; vm_compute; reflexivity|].
    apply List.Forall_cons; [right; exists (Js.ofN 7); split; vm_compute; reflexivity|].
    apply List.Forall_nil.
  - repeat (apply List.Forall_cons; [right; right; left; reflexivity|]).
    apply List.Forall_nil.
  - vm_compute. reflexivity.
  - repeat (apply List.Forall_cons; [reflexivity|]). apply List.Forall_nil.
  - vm_compute. reflexivity.
Defined.

(** ** The confirmation gate *)

Lemma key_keeps_unarmed k w :
  k <> Key.right -> Unarmed w ->
  Unarmed (handleKeyPress k w) /\ removals (handleKeyPress k w) = removals w.
Proof.
  intros Hk. unfold Unarmed, removals.
  destruct w as [s d u c ts l st]; destruct s as [v sel flt srch fd fs eid buf ci pv ca cm].
  wsimpl. intros Hu.
  crush_handlers.
  all: rewrite ?filter_snoc; cbn [isRemoval]; rewrite ?app_nil_r.
  all: try (split; [first [done | congruence] | done]).
  all: repeat match goal with
         | H : bool_decide _ = true |- _ => apply bool_decide_eq_true in H
         end.
  all: first [congruence | specialize (Hu eq_refl); congruence].
Qed.

Lemma callback_keeps_unarmed cb w :
  Unarmed w -> Unarmed (runCallback cb w) /\ removals (runCallback cb w) = removals w.
Proof.
  unfold Unarmed, removals, runCallback.
  destruct w as [s d u c ts l st]; destruct s as [v sel flt srch fd fs eid buf ci pv ca cm].
  wsimpl. intros Hu. destruct cb; crush_handlers.
  all: rewrite ?filter_snoc; cbn [isRemoval]; rewrite ?app_nil_r; done.
Qed.

Lemma fireDue_keeps_unarmed fuel : forall w,
  Unarmed w -> Unarmed (fireDue fuel w) /\ removals (fireDue fuel w) = removals w.
Proof.
  induction fuel as [|fuel IH]; intros w Hu; [done|].
  cbn [fireDue]. destruct (earliest (timers w)) as [t|]; [|done].
  destruct (_ && _); [|done].
  set (w1 := emit (Fired (callback t)) (set_timers (removeFirst t (timers w)) w)).
  assert (H1 : Unarmed w1 /\ removals w1 = removals w).
  { subst w1. unfold Unarmed, removals in *. wsimpl.
    rewrite filter_snoc. cbn [isRemoval]. by rewrite app_nil_r. }
  destruct H1 as [Hu1 Hr1].
  destruct (callback_keeps_unarmed (callback t) w1 Hu1) as [Hu2 Hr2].
  destruct (IH _ Hu2) as [Hu3 Hr3]. split; [done | congruence].
Qed.

Lemma deliver_keeps_unarmed ev w :
  ev <> KeyData Key.right -> Unarmed w ->
  Unarmed (deliver ev w) /\ removals (deliver ev w) = removals w.
Proof.
  intros Hev Hu. unfold deliver. case_bool_decide; [|done].
  destruct ev as [k|ms].
  - apply key_keeps_unarmed; [congruence | done].
  - apply (fireDue_keeps_unarmed _ (set_clock (clock w + ms) w)). by destruct w.
Qed.

Lemma run_keeps_unarmed evs : forall w,
  ~ In (KeyData Key.right) evs -> Unarmed w ->
  Unarmed (run evs w) /\ removals (run evs w) = removals w.
Proof.
  induction evs as [|ev evs IH]; intros w Hno Hu; [done|].
  change (run (ev :: evs) w) with (run evs (deliver ev w)).
  destruct (deliver_keeps_unarmed ev w) as [Hu1 Hr1]; [|done|].
  { intros ->. apply Hno. by left. }
  destruct (IH (deliver ev w)) as [Hu2 Hr2]; [|done|].
  { intros Hin. apply Hno. by right. }
  split; [done | congruence].
Qed.

Lemma ctrlD_opens_gate w :
  endsWithForm (currentView (tui w)) = true ->
  truthyId (editingId (tui w)) = true ->
  handleKeyPress Key.ctrlD w
  = openConfirmation Delete (AskDelete (recordName (tui w))) 0 w.
Proof.
  intros Hv Hid. unfold handleKeyPress. decide_keys. wsimpl. by rewrite Hv, Hid.
Qed.

Lemma enter_on_no g f st enter :
  currentView (tui g) = ConfirmAction ->
  confirmIndex (tui g) = 0%nat ->
  previousView (tui g) = Some f ->
  endsWithForm f = true ->
  stepsOf f !! formStep (tui g) = Some st ->
  Key.isEnter enter = true ->
  let back := handleKeyPress enter g in
  currentView (tui back) = f
  /\ formStep (tui back) = formStep (tui g)
  /\ formData (tui back) = formData (tui g)
  /\ inputBuffer (tui back) = stringOrEmpty (formData (tui g) !! field st)
  /\ db back = db g
  /\ storeCalls back = storeCalls g.
Proof.
  intros Hv Hci Hpv Hf Hst Hk. cbv zeta. unfold storeCalls.
  destruct g as [s d u c ts l stt]; destruct s as [v sel flt srch fd fs eid buf ci pv ca cm].
  wsimpl. subst v ci pv.
  destruct (isEnter_cases _ Hk) as [-> | ->]; clear Hk;
    unfold handleKeyPress, dispatch, handleConfirmation, returnToForm, reopenForm,
      stepAt, seedBuffer, isCustomerForm, isProductForm;
    decide_keys; wsimpl;
    destruct f; try discriminate; wsimpl;
    repeat (case_bool_decide; try congruence);
    rewrite Hst; wsimpl; rewrite filter_snoc; cbn [isStore]; by rewrite app_nil_r.
Qed.

Lemma confirm_dispatch k g :
  currentView (tui g) = ConfirmAction ->
  k <> Key.ctrlC -> k <> Key.esc ->
  handleKeyPress k g = uncaught (handleConfirmation k g).
Proof.
  intros Hv Hc He. unfold handleKeyPress, dispatch. rewrite Hv. cbn [endsWithForm endsWithList].
  rewrite !andb_false_r. cbn [andb].
  by rewrite (bool_decide_eq_false_2 (k = Key.ctrlC)), (bool_decide_eq_false_2 (k = Key.esc)).
Qed.

Lemma right_in_gate g :
  currentView (tui g) = ConfirmAction ->
  handleKeyPress Key.right g = redrawConfirmation (modify (set_confirmIndex 1) g).
Proof.
  intros Hv. rewrite confirm_dispatch by done.
  unfold handleConfirmation. decide_keys. reflexivity.
Qed.

Lemma enter_on_yes k g :
  currentView (tui g) = ConfirmAction ->
  confirmIndex (tui g) = 1%nat ->
  Key.isEnter k = true ->
  handleKeyPress k g
  = match confirmAction (tui g) with
    | Some Save => executeFormSave g
    | Some Delete => executeFormDelete g
    | None => g
    end.
Proof.
  intros Hv Hci Hk.
  destruct (isEnter_cases _ Hk) as [-> | ->]; rewrite confirm_dispatch by done;
    unfold handleConfirmation; decide_keys;
    (rewrite (bool_decide_eq_true_2 _ Hci));
    by destruct (confirmAction (tui g)) as [[]|].
Qed.

Lemma right_then_enter_deletes w :
  endsWithForm (currentView (tui w)) = true ->
  truthyId (editingId (tui w)) = true ->
  status w = Running ->
  removals (run (keys [Key.ctrlD; Key.right; Key.cr]) w)
  = removals w
    ++ [Store (Remove (entityOf (bool_decide (currentView (tui w) = CustomerForm)))
                 (editingId (tui w)))].
Proof.
  intros Hv Hid Hrun. unfold run, keys. cbn [map fold_left].
  rewrite (deliver_key _ w), ctrlD_opens_gate by done.
  set (g := openConfirmation _ _ _ w).
  rewrite (deliver_key _ g), right_in_gate by done.
  set (g1 := redrawConfirmation _).
  rewrite (deliver_key _ g1), enter_on_yes by done.
  subst g1 g. unfold redrawConfirmation, openConfirmation. wsimpl.
  unfold executeFormDelete, isCustomerForm, isProductForm, showMessage, removals.
  wsimpl.
  destruct w as [s d u c ts l stt]; destruct s as [v sel flt srch fd fs eid buf ci pv ca cm].
  wsimpl.
  destruct v; try discriminate; decide_eqs; wsimpl;
    rewrite !filter_snoc; cbn [isRemoval entityOf]; by rewrite !app_nil_r.
Qed.

(** C5. Ctrl+D in an edit form opens the gate for a deletion with the
    index on 0 (no).  Enter on index 0 makes no Store call and returns to
    the form the gate was opened from, at the same step, with the buffer
    read back from [formData].  From the open gate no sequence of events
    without a Right arrow deletes anything, while Right followed by Enter
    does. *)
Theorem delete_needs_explicit_yes (w : World) :
  endsWithForm (currentView (tui w)) = true ->
  truthyId (editingId (tui w)) = true ->
  status w = Running ->
  let gate := handleKeyPress Key.ctrlD w in
  (currentView (tui gate) = ConfirmAction
   /\ confirmAction (tui gate) = Some Delete
   /\ confirmIndex (tui gate) = 0%nat
   /\ previousView (tui gate) = Some (currentView (tui w)))
  /\ (forall g f st enter,
        currentView (tui g) = ConfirmAction ->
        confirmIndex (tui g) = 0%nat ->
        previousView (tui g) = Some f ->
        endsWithForm f = true ->
        stepsOf f !! formStep (tui g) = Some st ->
        Key.isEnter enter = true ->
        let back := handleKeyPress enter g in
        currentView (tui back) = f
        /\ formStep (tui back) = formStep (tui g)
        /\ formData (tui back) = formData (tui g)
        /\ inputBuffer (tui back) = stringOrEmpty (formData (tui g) !! field st)
        /\ db back = db g
        /\ storeCalls back = storeCalls g)
  /\ (forall evs, ~ In (KeyData Key.right) evs ->
                  removals (run evs gate) = removals w)
  /\ removals (run (keys [Key.right; Key.cr]) gate)
     = removals w
       ++ [Store (Remove (entityOf (bool_decide (currentView (tui w) = CustomerForm)))
                    (editingId (tui w)))].
Proof.
  intros Hv Hid Hrun gate.
  assert (Hgate : gate = openConfirmation Delete (AskDelete (recordName (tui w))) 0 w)
    by (by apply ctrlD_opens_gate).
  split; [by rewrite Hgate|].
  split; [intros; by eapply enter_on_no|].
  split.
  - intros evs Hno.
    destruct (run_keeps_unarmed evs gate Hno) as [_ Hr].
    + rewrite Hgate. unfold Unarmed, openConfirmation. by wsimpl.
    + rewrite Hr, Hgate. unfold removals, openConfirmation. wsimpl.
      rewrite filter_snoc. cbn [isRemoval]. by rewrite app_nil_r.
  - rewrite <- (right_then_enter_deletes w Hv Hid Hrun).
    unfold run, keys. cbn [map fold_left]. subst gate.
    by rewrite (deliver_key _ w).
Qed.

(** [delete_needs_explicit_yes] at the edit form of the first customer. *)
Lemma delete_needs_explicit_yes_witness :
  let w := Session.editingAda in
  let gate := handleKeyPress Key.ctrlD w in
  confirmIndex (tui gate) = 0%nat
  /\ currentView (tui (handleKeyPress Key.cr gate)) = CustomerForm
  /\ removals (run (keys [Key.left; Key.cr; Key.ctrlD; Key.cr]) gate) = []
  /\ removals (run (keys [Key.right; Key.cr]) gate)
     = [Store (Remove Customers (Some "c1"))].
Proof.
  destruct (delete_needs_explicit_yes Session.editingAda)
    as ((_ & _ & H1 & Hpv) & H2 & H3 & H4).
  - vm_compute. reflexivity.
  - vm_compute. reflexivity.
  - vm_compute. reflexivity.
  - cbv zeta. split; [exact H1|]. split; [|split].
    + destruct (H2 (handleKeyPress Key.ctrlD Session.editingAda) CustomerForm
                  (mkStep "CustomerName" true false) Key.cr) as [Hb _];
        [vm_compute; reflexivity | exact H1 | vm_compute; reflexivity
        | reflexivity | vm_compute; reflexivity | reflexivity | exact Hb].
    + rewrite H3; [vm_compute; reflexivity|].
      intros [H|[H|[H|[H|[]]]]]; discriminate.
    + rewrite H4. vm_compute. reflexivity.
Defined.

(** ** The message window *)

(** C10 fails on Escape: with the Message screen on, [handleKeyPress]
    returns to the form, which [handleConfirmation] would not. *)
Lemma message_window_counterexample :
  currentView (tui Gate.savingAda) = ConfirmAction
  /\ confirmIndex (tui Gate.savingAda) = 1%nat
  /\ confirmAction (tui Gate.savingAda) = Some Save
  /\ ~ EveryKeyReachesTheGate Gate.savingAda Save.
Proof.
  repeat (split; [vm_compute; reflexivity|]).
  intros (_ & H & _). specialize (H Key.esc).
  apply (f_equal (fun w => currentView (tui w))) in H.
  vm_compute in H. discriminate.
Qed.

Lemma execute_shows_message g a f :
  confirmAction (tui g) = Some a ->
  previousView (tui g) = Some f ->
  endsWithForm f = true ->
  let shown := execute a g in
  (exists notice isError earlier,
      log shown = earlier ++ [Paint (MessageScreen notice isError)])
  /\ timers shown = timers g ++ [mkTimer (clock g + 2000) MessageReturn]
  /\ currentView (tui shown) = currentView (tui g)
  /\ confirmIndex (tui shown) = confirmIndex (tui g)
  /\ confirmAction (tui shown) = Some a
  /\ previousView (tui shown) = Some f
  /\ formStep (tui shown) = formStep (tui g)
  /\ status shown = status g
  /\ (is_Some (stepsOf f !! formStep (tui g)) ->
      length (storeWrites shown) = S (length (storeWrites g))).
Proof.
  intros Ha Hpv Hf. cbv zeta. unfold storeWrites.
  destruct g as [s d u c ts l stt]; destruct s as [v sel flt srch fd fs eid buf ci pv ca cm].
  wsimpl. subst ca pv.
  destruct f; try discriminate; destruct a;
    unfold execute, executeFormSave, saveBody, executeFormDelete, stepAt,
      isCustomerForm, isProductForm, stepsOf;
    wsimpl; autorewrite with commit; decide_eqs; crush_handlers.
  all: repeat match goal with
         | H : bool_decide _ = true |- _ => apply bool_decide_eq_true in H
         | H : bool_decide _ = false |- _ => apply bool_decide_eq_false in H
         end; try congruence.
  all: rewrite ?filter_snoc; cbn [isWrite]; rewrite ?app_nil_r, ?length_app; cbn [length].
  all: repeat split; eauto; try lia.
  all: intros [? ?]; congruence.
Qed.

(** C10, amended. The Enter that confirms a save or a delete runs the
    pending action, paints the Message screen and schedules the return,
    and leaves [currentView] on ConfirmAction; while the screen is on,
    every key other than Ctrl+C and Escape - which [handleKeyPress]
    serves itself - goes to [handleConfirmation], and Enter runs the
    pending action once more, so that the Store has been written twice;
    the callback of the timer then enters the list view. *)
Theorem enter_during_message_repeats (g : World) (a : Action) (f : View) :
  currentView (tui g) = ConfirmAction ->
  confirmIndex (tui g) = 1%nat ->
  confirmAction (tui g) = Some a ->
  previousView (tui g) = Some f ->
  endsWithForm f = true ->
  is_Some (stepsOf f !! formStep (tui g)) ->
  let shown := handleKeyPress Key.cr g in
  shown = execute a g
  /\ (exists notice isError earlier,
        log shown = earlier ++ [Paint (MessageScreen notice isError)])
  /\ timers shown = timers g ++ [mkTimer (clock g + 2000) MessageReturn]
  /\ currentView (tui shown) = ConfirmAction
  /\ (forall key, key <> Key.ctrlC -> key <> Key.esc ->
                  handleKeyPress key shown = uncaught (handleConfirmation key shown))
  /\ (forall enter, Key.isEnter enter = true ->
        handleKeyPress enter shown = execute a shown
        /\ length (storeWrites (handleKeyPress enter shown))
           = S (S (length (storeWrites g))))
  /\ endsWithList (currentView (tui (messageReturn shown))) = true.
Proof.
  intros Hv Hci Ha Hpv Hf Hst shown.
  assert (Hshown : shown = execute a g).
  { subst shown. rewrite enter_on_yes by done. rewrite Ha. by destruct a. }
  destruct (execute_shows_message g a f Ha Hpv Hf)
    as (Hlog & Htm & Hv' & Hci' & Ha' & Hpv' & Hfs' & _ & Hw).
  rewrite <- Hshown in *.
  split; [done|]. split; [done|]. split; [done|]. split; [congruence|].
  split; [intros key Hc He; apply confirm_dispatch; congruence|].
  split.
  - intros enter Hk.
    assert (He : handleKeyPress enter shown = execute a shown).
    { rewrite enter_on_yes by congruence. rewrite Ha'. by destruct a. }
    split; [exact He|]. rewrite He.
    destruct (execute_shows_message shown a f Ha' Hpv' Hf) as (_ & _ & _ & _ & _ & _ & _ & _ & Hw2).
    rewrite Hw2, Hw by (rewrite ?Hfs'; done). done.
  - unfold messageReturn, drawFreshList, enterList. wsimpl.
    by destruct (bool_decide _).
Qed.

(** [enter_during_message_repeats] at the gate saving the new customer. *)
Lemma enter_during_message_repeats_witness :
  let shown := handleKeyPress Key.cr Gate.savingAda in
  shown = execute Save Gate.savingAda
  /\ (exists notice isError earlier,
        log shown = earlier ++ [Paint (MessageScreen notice isError)])
  /\ timers shown
     = timers Gate.savingAda ++ [mkTimer (clock Gate.savingAda + 2000) MessageReturn]
  /\ currentView (tui shown) = ConfirmAction
  /\ (forall key, key <> Key.ctrlC -> key <> Key.esc ->
                  handleKeyPress key shown = uncaught (handleConfirmation key shown))
  /\ (forall enter, Key.isEnter enter = true ->
        handleKeyPress enter shown = execute Save shown
        /\ length (storeWrites (handleKeyPress enter shown))
           = S (S (length (storeWrites Gate.savingAda))))
  /\ endsWithList (currentView (tui (messageReturn shown))) = true.
Proof.
  apply (enter_during_message_repeats Gate.savingAda Save CustomerForm).
  - vm_compute. reflexivity.
  - vm_compute. reflexivity.
  - vm_compute. reflexivity.
  - vm_compute. reflexivity.
  - reflexivity.
  - exists (mkStep "CustomerName" true false). vm_compute. reflexivity.
Defined.

(** ** A record that is gone when the action is confirmed *)

Lemma find_none_filter id (rows : list Obj) :
  List.find (hasId id) rows = None ->
  existsb (hasId id) rows = false
  /\ List.filter (fun r => negb (hasId id r)) rows = rows.
Proof.
  induction rows as [|r rows IH]; cbn [List.find existsb List.filter]; [done|].
  destruct (hasId id r) eqn:E; [done|]. intros H. destruct (IH H) as [-> ->]. done.
Qed.

(** DELETE of a row that is not there: [changes] is 0 and the table is as
    it was. *)
Lemma delete_missing t id db :
  getByIdOf t id db = None -> deleteOf t id db = (false, db).
Proof.
  destruct t; cbn [getByIdOf deleteOf];
    unfold customerOps.getById, customerOps.delete, productOps.getById, productOps.delete;
    intros H.
  - destruct (List.find (hasId id) (customers db)) eqn:E; [done|].
    destruct (find_none_filter _ _ E) as [-> ->]. by destruct db.
  - destruct (find_none_filter _ _ H) as [-> ->]. by destruct db.
Qed.

(** [update] of a row that is not there returns [null]. *)
Lemma update_missing t id updates db :
  getByIdOf t id db = None -> updateOf t id updates db = inr (None, db).
Proof.
  destruct t; cbn [getByIdOf updateOf];
    unfold customerOps.update, productOps.update; by intros ->.
Qed.

(** C4. The record under [editingId] no longer exists when Enter confirms
    on "yes": [update] returns [null], [delete] returns [false], the Store
    is left as it was - and the Message screen painted is the success
    notice with [isError = false], for customers and for products. *)
Theorem missing_record_reported_as_success
    (t : Entity) (id : string) (st : Step) (g : World) :
  status g = Running ->
  currentView (tui g) = ConfirmAction ->
  confirmIndex (tui g) = 1%nat ->
  previousView (tui g) = Some (formOf t) ->
  editingId (tui g) = Some id -> id <> "" ->
  stepsOf (formOf t) !! formStep (tui g) = Some st ->
  getByIdOf t (Some id) (db g) = None ->
  let shown := deliver (KeyData Key.cr) g in
  (confirmAction (tui g) = Some Save ->
     updateOf t (Some id) (formData (commitField st (tui g))) (db g) = inr (None, db g)
     /\ db shown = db g
     /\ last (log shown) = Some (Paint (MessageScreen (updatedNotice t) false)))
  /\ (confirmAction (tui g) = Some Delete ->
     deleteOf t (Some id) (db g) = (false, db g)
     /\ db shown = db g
     /\ last (log shown) = Some (Paint (MessageScreen (deletedNotice t) false))).
Proof.
  intros Hrun Hv Hci Hpv Hid Hne Hst Hgone shown. subst shown.
  assert (Htruthy : truthyId (Some id) = true)
    by (unfold truthyId; by rewrite bool_decide_eq_false_2).
  rewrite deliver_key, enter_on_yes by done.
  split; intros Ha; rewrite Ha.
  - split; [by apply update_missing|].
    unfold executeFormSave, saveBody, stepAt, isCustomerForm, isProductForm.
    rewrite Hpv.
    destruct t; cbn [formOf updatedNotice] in *; decide_eqs;
      [change (stepsOf CustomerForm) with customerFormSteps in Hst
      |change (stepsOf ProductForm) with productFormSteps in Hst];
      rewrite Hst; wsimpl; autorewrite with commit; rewrite Hpv, Hid, Htruthy;
      decide_eqs.
    + rewrite (update_missing Customers) by done.
      unfold showMessage. wsimpl. split; [done|]. by rewrite last_snoc.
    + rewrite (update_missing Products) by done.
      unfold showMessage. wsimpl. split; [done|]. by rewrite last_snoc.
  - split; [by apply delete_missing|].
    unfold executeFormDelete, isCustomerForm, isProductForm. rewrite Hpv, Hid.
    destruct t; cbn [formOf deletedNotice] in *; decide_eqs; wsimpl.
    + rewrite (delete_missing Customers) by done.
      unfold showMessage. wsimpl. split; [done|]. by rewrite last_snoc.
    + rewrite (delete_missing Products) by done.
      unfold showMessage. wsimpl. split; [done|]. by rewrite last_snoc.
Qed.

(** [missing_record_reported_as_success] at the save gate of the first
    customer, deleted behind the form. *)
Lemma missing_record_reported_as_success_witness :
  let g := withoutAda (deliver (KeyData Key.ctrlS) Session.editingAda) in
  let shown := deliver (KeyData Key.cr) g in
  (confirmAction (tui g) = Some Save ->
     updateOf Customers (Some "c1")
       (formData (commitField (mkStep "CustomerName" true false) (tui g))) (db g)
     = inr (None, db g)
     /\ db shown = db g
     /\ last (log shown) = Some (Paint (MessageScreen (updatedNotice Customers) false)))
  /\ (confirmAction (tui g) = Some Delete ->
     deleteOf Customers (Some "c1") (db g) = (false, db g)
     /\ db shown = db g
     /\ last (log shown) = Some (Paint (MessageScreen (deletedNotice Customers) false))).
Proof.
  apply (missing_record_reported_as_success Customers "c1"
           (mkStep "CustomerName" true false)
           (withoutAda (deliver (KeyData Key.ctrlS) Session.editingAda))).
  - vm_compute. reflexivity.
  - vm_compute. reflexivity.
  - vm_compute. reflexivity.
  - vm_compute. reflexivity.
  - vm_compute. reflexivity.
  - discriminate.
  - vm_compute. reflexivity.
  - vm_compute. reflexivity.
Defined.

(** The first customer is deleted by the REST side while its edit form is
    at the gate: both confirmations report success. *)
Example missing_customer_scenario :
  let updating := withoutAda (run (keys [Key.ctrlS]) Session.editingAda) in
  let deleting := withoutAda (run (keys [Key.ctrlD; Key.right]) Session.editingAda) in
  editingId (tui updating) = Some "c1"
  /\ editingId (tui deleting) = Some "c1"
  /\ customerOps.getById (Some "c1") (db updating) = None
  /\ confirmAction (tui updating) = Some Save
  /\ confirmAction (tui deleting) = Some Delete
  /\ last (log (deliver (KeyData Key.cr) updating))
     = Some (Paint (MessageScreen CustomerUpdated false))
  /\ last (log (deliver (KeyData Key.cr) deleting))
     = Some (Paint (MessageScreen CustomerDeleted false)).
Proof.
  cbv zeta. repeat split; vm_compute; reflexivity.
Qed.

(** ** Timers *)

Lemma key_grows k w :
  exists added scheduled, Grows w (handleKeyPress k w) added scheduled.
Proof.
  unfold Grows.
  destruct w as [s d u c ts l st]; destruct s as [v sel flt srch fd fs eid buf ci pv ca cm].
  crush_handlers.
  all: rewrite <- ?app_assoc.
  all: eexists _, _; repeat split;
    first [reflexivity | symmetry; apply app_nil_r].
Qed.

Lemma Grows_trans w1 w2 w3 a1 s1 a2 s2 :
  Grows w1 w2 a1 s1 -> Grows w2 w3 a2 s2 -> Grows w1 w3 (a1 ++ a2) (s1 ++ s2).
Proof.
  intros (Hl1 & Ht1 & Hc1) (Hl2 & Ht2 & Hc2). unfold Grows.
  rewrite Hl2, Hl1, Ht2, Ht1, Hc2, Hc1, !app_assoc. done.
Qed.

Lemma earliest_None ts : earliest ts = None -> ts = [].
Proof.
  destruct ts as [|u ts]; [done|]. cbn [earliest].
  destruct (earliest ts) as [m|]; [destruct (_ <? _)%N|]; discriminate.
Qed.

Lemma earliest_spec ts t0 :
  earliest ts = Some t0 ->
  In t0 ts /\ forall t, In t ts -> (due t0 <= due t)%N.
Proof.
  revert t0. induction ts as [|u ts IH]; intros t0 H; [discriminate|].
  cbn [earliest] in H. destruct (earliest ts) as [m|] eqn:Hm.
  - destruct (IH m eq_refl) as [Hin Hmin].
    destruct (N.ltb_spec (due m) (due u)); injection H as <-.
    + split; [by right|]. intros t [<-|Ht]; [lia | by apply Hmin].
    + split; [by left|]. intros t [<-|Ht]; [lia|]. specialize (Hmin t Ht). lia.
  - injection H as <-. split; [by left|].
    apply earliest_None in Hm. subst ts. intros t [<-|[]]. lia.
Qed.

Lemma removeFirst_In t t0 ts : In t (removeFirst t0 ts) -> In t ts.
Proof.
  induction ts as [|u ts IH]; cbn [removeFirst]; [done|].
  case_bool_decide; [by right|]. intros [<-|Hin]; [by left | right; auto].
Qed.

Lemma removeFirst_other t t0 ts : In t ts -> t <> t0 -> In t (removeFirst t0 ts).
Proof.
  intros Hin Hne. induction ts as [|u ts IH]; cbn [removeFirst]; [done|].
  case_bool_decide as Hu.
  - destruct Hin as [<-|Hin]; [congruence | done].
  - destruct Hin as [<-|Hin]; [by left | right; auto].
Qed.

Lemma removeFirst_length t0 ts :
  In t0 ts -> S (length (removeFirst t0 ts)) = length ts.
Proof.
  induction ts as [|u ts IH]; cbn [removeFirst]; [done|].
  case_bool_decide as Hu; [done|].
  intros [->|Hin]; [congruence|]. cbn [length]. by rewrite IH.
Qed.

(** A callback repaints and assigns to [tuiState]; it schedules nothing
    and the process goes on. *)
Lemma callback_grows cb w :
  status (runCallback cb w) = status w
  /\ exists added, Grows w (runCallback cb w) added [].
Proof.
  unfold Grows, runCallback.
  destruct w as [s d u c ts l st]; destruct cb; crush_handlers;
    rewrite <- ?app_assoc, ?app_nil_r; (split; [reflexivity|]); by eexists.
Qed.

Lemma fireDue_spec fuel : forall w,
  (length (timers w) <= fuel)%nat ->
  status w = Running ->
  let w' := fireDue fuel w in
  clock w' = clock w /\ status w' = Running
  /\ (exists added,
        log w' = log w ++ added
        /\ forall t, In t (timers w) -> (due t <= clock w)%N ->
                     In (Fired (callback t)) added)
  /\ (forall t, In t (timers w) -> (clock w < due t)%N -> In t (timers w'))
  /\ (forall t, In t (timers w') -> In t (timers w) /\ (clock w < due t)%N).
Proof.
  induction fuel as [|fuel IH]; intros w Hlen Hrun; cbv zeta.
  - assert (Hts : timers w = []) by (destruct (timers w); [done | cbn in Hlen; lia]).
    cbn [fireDue]. rewrite Hts. repeat split; try done.
    exists []. split; [by rewrite app_nil_r | done].
  - cbn [fireDue]. destruct (earliest (timers w)) as [t0|] eqn:He.
    2:{ apply earliest_None in He. rewrite He. repeat split; try done.
        exists []. split; [by rewrite app_nil_r | done]. }
    destruct (earliest_spec _ _ He) as [Hin0 Hmin].
    rewrite (bool_decide_eq_true_2 _ Hrun), andb_true_r.
    destruct (N.leb_spec (due t0) (clock w)) as [Hdue|Hnot].
    2:{ repeat split; try done.
        - exists []. split; [by rewrite app_nil_r|].
          intros t Ht Hd. specialize (Hmin t Ht). lia.
        - specialize (Hmin t H). lia. }
    set (w0 := emit (Fired (callback t0)) (set_timers (removeFirst t0 (timers w)) w)).
    destruct (callback_grows (callback t0) w0) as (Hst & added & Hl & Ht & Hc).
    set (w1 := runCallback (callback t0) w0) in *.
    rewrite app_nil_r in Ht.
    assert (Hts1 : timers w1 = removeFirst t0 (timers w)) by (rewrite Ht; by destruct w).
    assert (Hc1 : clock w1 = clock w) by (rewrite Hc; by destruct w).
    assert (Hl1 : log w1 = log w ++ Fired (callback t0) :: added).
    { rewrite Hl. subst w0. destruct w. cbn. by rewrite <- app_assoc. }
    destruct (IH w1) as (Hc2 & Hst2 & (added2 & Hl2 & Hfired) & Hkeep & Hleft).
    { rewrite Hts1. pose proof (removeFirst_length _ _ Hin0). lia. }
    { rewrite Hst. subst w0. by destruct w. }
    split; [congruence|]. split; [done|]. split; [|split].
    + exists (Fired (callback t0) :: added ++ added2). split.
      * rewrite Hl2, Hl1, <- app_assoc. done.
      * intros t Hin Hd. destruct (decide (t = t0)) as [->|Hne]; [by left|].
        right. apply in_or_app. right. apply Hfired; [|lia].
        rewrite Hts1. by apply removeFirst_other.
    + intros t Hin Hd. apply Hkeep; [|lia].
      rewrite Hts1. apply removeFirst_other; [done|]. intros ->. lia.
    + intros t Hin. destruct (Hleft t Hin) as [Hin1 Hd].
      rewrite Hts1 in Hin1. split; [by eapply removeFirst_In | lia].
Qed.

Lemma deliver_tracked t w1 ev w :
  Tracked t w1 w -> Tracked t w1 (deliver ev w).
Proof.
  intros Htr. unfold deliver. case_bool_decide as Hrun; [|done].
  destruct Htr as ((m & Hm) & Hcase). destruct ev as [k|ms].
  - destruct (key_grows k w) as (added & sched & Hl & Ht & Hc).
    split; [exists (m ++ added); by rewrite Hl, Hm, app_assoc|].
    rewrite Hc. destruct Hcase as [[Hlt Hin]|[Hge (a & Ha & Hf)]].
    + left. split; [done|]. rewrite Ht. apply in_or_app. by left.
    + right. split; [done|]. exists (a ++ added).
      split; [by rewrite Hl, Ha, app_assoc | apply in_or_app; by left].
  - set (w0 := set_clock (clock w + ms) w).
    destruct (fireDue_spec (length (timers w0)) w0) as (Hc & _ & (a & Ha & Hf) & Hkeep & _);
      [done | by destruct w|].
    assert (Hl0 : log w0 = log w) by (by destruct w).
    assert (Ht0 : timers w0 = timers w) by (by destruct w).
    assert (Hc0 : clock w0 = (clock w + ms)%N) by (by destruct w).
    rewrite Hl0 in Ha. rewrite Ht0 in Hf, Hkeep. rewrite Hc0 in Hc, Hf, Hkeep.
    split; [exists (m ++ a); by rewrite Ha, Hm, app_assoc|].
    rewrite Hc. destruct Hcase as [[Hlt Hin]|[Hge (b & Hb & Hfb)]].
    + destruct (N.ltb_spec (clock w + ms) (due t)) as [Hbefore|Hafter].
      * left. split; [done|]. by apply Hkeep.
      * right. split; [done|]. exists (m ++ a).
        split; [by rewrite Ha, Hm, app_assoc|]. apply in_or_app. right. by apply Hf.
    + right. split; [lia|]. exists (b ++ a).
      split; [by rewrite Ha, Hb, app_assoc | apply in_or_app; by left].
Qed.

Lemma run_tracked t w1 evs : forall w,
  Tracked t w1 w -> Tracked t w1 (run evs w).
Proof.
  induction evs as [|ev evs IH]; intros w Htr; [done|].
  change (run (ev :: evs) w) with (run evs (deliver ev w)).
  by apply IH, deliver_tracked.
Qed.

Lemma scheduled_outcome t w1 evs :
  In t (timers w1) -> (clock w1 < due t)%N -> TimerOutcome t w1 (run evs w1).
Proof.
  intros Hin Hlt.
  destruct (run_tracked t w1 evs w1) as (_ & Hcase).
  { split; [exists []; by rewrite app_nil_r | by left]. }
  split.
  - intros Hb. destruct Hcase as [[_ H]|[H _]]; [done | lia].
  - intros Ha. destruct Hcase as [[H _]|[_ H]]; [lia | done].
Qed.

Lemma callback_overwrites cb w : Overwritten cb (tui w) (tui (runCallback cb w)).
Proof.
  destruct cb; cbn [Overwritten runCallback].
  - unfold messageReturn, drawFreshList, enterList. by wsimpl.
  - unfold statsReturn. by wsimpl.
Qed.

Lemma fire_overwrites t w : Overwritten (callback t) (tui w) (tui (fire t w)).
Proof.
  unfold fire.
  change (tui w) with (tui (emit (Fired (callback t)) (set_timers (removeFirst t (timers w)) w)))
    at 1.
  apply callback_overwrites.
Qed.

Lemma fire_grows t w :
  status (fire t w) = status w /\ clock (fire t w) = clock w
  /\ timers (fire t w) = removeFirst t (timers w).
Proof.
  unfold fire.
  set (w0 := emit (Fired (callback t)) (set_timers (removeFirst t (timers w)) w)).
  destruct (callback_grows (callback t) w0) as (Hst & added & _ & Ht & Hc).
  rewrite app_nil_r in Ht. rewrite Hst, Hc, Ht. subst w0. by destruct w.
Qed.

Lemma fireDue_step fuel t w :
  earliest (timers w) = Some t -> (due t <= clock w)%N -> status w = Running ->
  fireDue (S fuel) w = fireDue fuel (fire t w).
Proof.
  intros He Hd Hrun. cbn [fireDue]. rewrite He.
  rewrite (bool_decide_eq_true_2 _ Hrun), andb_true_r.
  by destruct (N.leb_spec (due t) (clock w)); [|lia].
Qed.

Lemma fireDue_none_due fuel w :
  (forall u, In u (timers w) -> (clock w < due u)%N) -> fireDue fuel w = w.
Proof.
  intros H. destruct fuel as [|fuel]; [done|]. cbn [fireDue].
  destruct (earliest (timers w)) as [t0|] eqn:He; [|done].
  destruct (earliest_spec _ _ He) as [Hin _]. specialize (H t0 Hin).
  by destruct (N.leb_spec (due t0) (clock w)); [lia|].
Qed.

(** A pending timer whose time has come is reached by [fireDue]. *)
Lemma fireDue_passes t fuel : forall w,
  (length (timers w) <= fuel)%nat -> status w = Running ->
  In t (timers w) -> (due t <= clock w)%N ->
  exists j k,
    status (fireDue j w) = Running
    /\ earliest (timers (fireDue j w)) = Some t
    /\ (earliest (timers w) = Some t -> fireDue j w = w)
    /\ fireDue fuel w = fireDue k (fire t (fireDue j w)).
Proof.
  induction fuel as [|fuel IH]; intros w Hlen Hrun Hin Hdue.
  - destruct (timers w); [done | cbn in Hlen; lia].
  - destruct (earliest (timers w)) as [t0|] eqn:He.
    2:{ apply earliest_None in He. rewrite He in Hin. done. }
    destruct (earliest_spec _ _ He) as [Hin0 Hmin].
    assert (Hd0 : (due t0 <= clock w)%N) by (specialize (Hmin t Hin); lia).
    destruct (decide (t0 = t)) as [->|Hne].
    + exists 0%nat, fuel. cbn [fireDue]. repeat split; try done.
      by apply fireDue_step.
    + destruct (fire_grows t0 w) as (Hst1 & Hc1 & Ht1).
      destruct (IH (fire t0 w)) as (j & k & Hrj & Hej & _ & Hk).
      * rewrite Ht1. pose proof (removeFirst_length _ _ Hin0). lia.
      * by rewrite Hst1.
      * rewrite Ht1. by apply removeFirst_other.
      * by rewrite Hc1.
      * exists (S j), k. rewrite !(fireDue_step _ t0 w) by done.
        repeat split; try done. intros Het. congruence.
Qed.

Lemma only_due_is_earliest t ts now :
  In t ts -> (due t <= now)%N ->
  (forall u, In u (removeFirst t ts) -> (now < due u)%N) ->
  earliest ts = Some t.
Proof.
  intros Hin Hdue Hothers.
  destruct (earliest ts) as [e|] eqn:He.
  2:{ apply earliest_None in He. by subst ts. }
  destruct (earliest_spec _ _ He) as [Hine Hmin].
  destruct (decide (e = t)) as [->|Hne]; [done|].
  specialize (Hothers e (removeFirst_other _ _ _ Hine Hne)).
  specialize (Hmin t Hin). lia.
Qed.

Lemma elapse_fires t w' ms :
  status w' = Running -> In t (timers w') -> (due t <= clock w' + ms)%N ->
  FiresAt t w' ms.
Proof.
  intros Hrun Hin Hdue.
  set (w0 := set_clock (clock w' + ms) w').
  assert (Hd : deliver (Elapse ms) w' = fireDue (length (timers w0)) w0).
  { unfold deliver. by rewrite (bool_decide_eq_true_2 _ Hrun). }
  assert (Hrun0 : status w0 = Running) by (by destruct w').
  assert (Ht0 : timers w0 = timers w') by (by destruct w').
  assert (Hc0 : clock w0 = (clock w' + ms)%N) by (by destruct w').
  assert (Hs0 : tui w0 = tui w') by (by destruct w').
  split.
  - destruct (fireDue_passes t (length (timers w0)) w0) as (j & k & Hrj & Hej & Hfirst & Hk);
      [done | done | by rewrite Ht0 | by rewrite Hc0 |].
    exists j, k. cbv zeta. fold w0. repeat split; try done.
    + intros He. rewrite Hfirst; [done | by rewrite Ht0].
    + apply fire_overwrites.
    + by rewrite Hd.
  - intros Hothers.
    assert (He : earliest (timers w0) = Some t).
    { apply (only_due_is_earliest t _ (clock w' + ms)%N); rewrite ?Ht0; done. }
    assert (Hall : deliver (Elapse ms) w' = fire t w0).
    { rewrite Hd.
      destruct (length (timers w0)) as [|n] eqn:Hn.
      { apply length_zero_iff_nil in Hn. rewrite Ht0 in Hn. rewrite Hn in Hin. done. }
      rewrite (fireDue_step n t w0) by (rewrite ?Hc0; done).
      apply fireDue_none_due. destruct (fire_grows t w0) as (_ & Hc1 & Ht1).
      intros u Hu. rewrite Hc1, Hc0. apply Hothers. by rewrite <- Ht0, <- Ht1. }
    split; [exact Hall|]. rewrite Hall, <- Hs0. apply fire_overwrites.
Qed.

Lemma scheduled_fires t w1 evs :
  In t (timers w1) -> (clock w1 < due t)%N -> FiresInRun t w1 evs.
Proof.
  intros Hin Hlt before ms after _ w' Hrun [Hbefore Hdue].
  apply elapse_fires; [done| |done].
  destruct (scheduled_outcome t w1 before Hin Hlt) as [Hpending _]. by apply Hpending.
Qed.

(** C8. Nothing cancels the auto-return timers.  The timer that
    [showMessage] schedules (2000 ms) and the one [showStats] schedules
    (3000 ms) stay pending through every sequence of events until their
    time, whatever keys are handled meanwhile, and have fired once the
    clock has reached it.  The event that brings the clock to that time
    of a running process calls the callback on the session as the events
    before have left it, and the callback overwrites it from whatever
    state it finds: [messageReturn] enters the customer or product list
    with the list and form fields reset, [statsReturn] the main menu. *)
Theorem timers_are_never_cancelled (w : World) (evs : list Event) :
  (forall notice isError,
      let w1 := showMessage notice isError w in
      let t := mkTimer (clock w + 2000) MessageReturn in
      In t (timers w1) /\ TimerOutcome t w1 (run evs w1) /\ FiresInRun t w1 evs)
  /\ (let w1 := showStats w in
      let t := mkTimer (clock w + 3000) StatsReturn in
      In t (timers w1) /\ TimerOutcome t w1 (run evs w1) /\ FiresInRun t w1 evs)
  /\ (forall w', let s := tui (messageReturn w') in
        currentView s = (if bool_decide (previousView (tui w') = Some CustomerForm)
                         then CustomerList else ProductList)
        /\ selectedIndex s = 0 /\ isSearching s = false /\ searchFilter s = ""
        /\ inputBuffer s = "" /\ editingId s = None /\ formData s = ∅)
  /\ (forall w', let s := tui (statsReturn w') in
        currentView s = Main /\ selectedIndex s = 0).
Proof.
  split; [|split; [|split]].
  - intros notice isError w1 t.
    assert (Hin : In t (timers w1)).
    { subst w1 t. unfold showMessage. wsimpl. apply in_or_app. right. by left. }
    assert (Hlt : (clock w1 < due t)%N).
    { subst w1 t. unfold showMessage. wsimpl. cbn [due]. lia. }
    split; [done|]. split; [by apply scheduled_outcome | by apply scheduled_fires].
  - cbv zeta.
    assert (Hin : In (mkTimer (clock w + 3000) StatsReturn) (timers (showStats w))).
    { unfold showStats. wsimpl. apply in_or_app. right. by left. }
    assert (Hlt : (clock (showStats w) < due (mkTimer (clock w + 3000) StatsReturn))%N).
    { unfold showStats. wsimpl. cbn [due]. lia. }
    split; [done|]. split; [by apply scheduled_outcome | by apply scheduled_fires].
  - intros w'. cbv zeta. unfold messageReturn, drawFreshList, enterList. by wsimpl.
  - intros w'. cbv zeta. unfold statsReturn. by wsimpl.
Qed.

(** ** Sessions run in full *)

(** The user leaves the Message screen for the main menu, and the timer
    still takes the session to the customer list. *)
Example timer_overrides_navigation :
  let away := run (keys [Key.esc; Key.esc; Key.esc]) Gate.messageShown in
  currentView (tui away) = Main
  /\ timers away = [mkTimer 2000 MessageReturn]
  /\ currentView (tui (deliver (Elapse 2000) away)) = CustomerList
  /\ timers (deliver (Elapse 2000) away) = [].
Proof. cbv zeta. repeat split; vm_compute; reflexivity. Qed.

(** Editing a debt of 5 down to 0 and clearing the phone, then saving:
    the Store keeps 5 and the phone. *)
Example edit_to_zero_is_not_persisted :
  let typed :=
    run (keys [Key.down; Key.del; Key.del; Key.del;
               Key.down; Key.down; Key.down; Key.down; Key.del; "0";
               Key.ctrlS])
      Session.editingAda in
  let saved := deliver (KeyData Key.cr) typed in
  inputBuffer (tui typed) = "0"
  /\ formData (tui saved) !! "CustomerDebt" = Some (VNum Js.zero)
  /\ formData (tui saved) !! "CustomerPhone" = Some (VStr "")
  /\ last (log saved) = Some (Paint (MessageScreen CustomerUpdated false))
  /\ (customerOps.getById (Some "c1") (db saved) ≫= (fun r => r !! "CustomerDebt"))
     = Some (VNum (Js.ofN 5))
  /\ (customerOps.getById (Some "c1") (db saved) ≫= (fun r => r !! "CustomerPhone"))
     = Some (VStr "555").
Proof. cbv zeta. repeat split; vm_compute; reflexivity. Qed.

(** A new customer: "Ada" typed, four moves forward, Ctrl+S and Enter
    create one record and show the Message screen. *)
Example new_customer_scenario :
  let typed :=
    run (keys [Key.cr; Key.ctrlN; "A"; "d"; "a"; Key.cr; Key.cr; Key.cr; Key.cr])
      Sample.fresh in
  let gate := deliver (KeyData Key.ctrlS) typed in
  let saved := deliver (KeyData Key.cr) gate in
  formData (tui typed) !! "CustomerName" = Some (VStr "Ada")
  /\ editingId (tui typed) = None
  /\ (currentView (tui gate), confirmAction (tui gate), confirmIndex (tui gate))
     = (ConfirmAction, Some Save, 1%nat)
  /\ length (storeWrites saved) = 1%nat
  /\ length (customers (db saved)) = 3%nat
  /\ (last (customers (db saved)) ≫= (fun r => r !! "CustomerName")) = Some (VStr "Ada")
  /\ last (log saved) = Some (Paint (MessageScreen CustomerCreated false))
  /\ currentView (tui (deliver (Elapse 2000) saved)) = CustomerList.
Proof. cbv zeta. repeat split; vm_compute; reflexivity. Qed.

(** A search without matches leaves an empty filtered list and the
    cursor on 0. *)
Example search_without_matches :
  let w := run (keys [Key.down; Key.cr; "z"; "z"; "9"]) Sample.fresh in
  currentView (tui w) = ProductList
  /\ searchFilter (tui w) = "zz9"
  /\ filteredCount w = 0%nat
  /\ selectedIndex (tui w) = 0.
Proof. cbv zeta. repeat split; vm_compute; reflexivity. Qed.

(** Escape from an edit form after a change leaves the Store as it was. *)
Example escape_discards_edits :
  let w := run (keys ["X"; Key.down; Key.esc]) Session.editingAda in
  currentView (tui w) = CustomerList
  /\ db w = db Session.editingAda.
Proof.
  cbv zeta. split; [vm_compute; reflexivity|].
  vm_cast_no_check (@eq_refl Db Sample.store).
Qed.

(** ** Create and read back *)

Lemma bind_Some v : bind (Some v) = v.
Proof. reflexivity. Qed.

Lemma find_snoc {A} (p : A -> bool) l x :
  List.find p l = None -> List.find p (l ++ [x]) = if p x then Some x else None.
Proof.
  induction l as [|a l IH]; cbn [List.find app]; [done|].
  destruct (p a); [discriminate|]. exact IH.
Qed.

Lemma find_app_Some {A} (p : A -> bool) l l' x :
  List.find p l = Some x -> List.find p (l ++ l') = Some x.
Proof.
  induction l as [|a l IH]; cbn [List.find app]; [discriminate|].
  destruct (p a); [done|]. exact IH.
Qed.

Lemma fresh_id_find id (row : Obj) rows :
  row !! "id" = Some (VStr id) ->
  existsb (fun r => bool_decide (r !! "id" = row !! "id")) rows = false ->
  List.find (hasId (Some id)) rows = None.
Proof.
  intros Hid. rewrite Hid. induction rows as [|r rows IH]; cbn [existsb List.find hasId]; [done|].
  intros H. apply orb_false_iff in H as [H1 H2]. rewrite H1. by apply IH.
Qed.

Lemma find_fresh_id id (row : Obj) rows :
  row !! "id" = Some (VStr id) ->
  List.find (hasId (Some id)) rows = None ->
  existsb (fun r => bool_decide (r !! "id" = row !! "id")) rows = false.
Proof.
  intros Hid. rewrite Hid. induction rows as [|r rows IH]; cbn [existsb List.find hasId]; [done|].
  destruct (bool_decide (r !! "id" = Some (VStr id))); [discriminate|]. exact IH.
Qed.

Lemma customerRow_keys_NoDup (f g : string -> value) :
  List.NoDup (map fst (("id", VStr "") :: map (fun c => (c, f c)) customerOps.cols
                        ++ map (fun c => (c, g c)) customerOps.jsonCols)).
Proof.
  cbn [map fst]. rewrite map_app, !keys_of_columns.
  apply NoDup_ListNoDup. apply (bool_decide_unpack _). by vm_compute.
Qed.

Lemma customerRow_id id customer : customerRow id customer !! "id" = Some (VStr id).
Proof.
  unfold customerRow. apply setCols_lookup_in; [|by left].
  cbn [map fst]. rewrite map_app, !keys_of_columns.
  apply NoDup_ListNoDup. apply (bool_decide_unpack _). by vm_compute.
Qed.

Lemma customerRow_col id customer c :
  In c customerOps.cols -> customerRow id customer !! c = Some (bind (customer !! c)).
Proof.
  intros Hc. unfold customerRow. apply setCols_lookup_in.
  - cbn [map fst]. rewrite map_app, !keys_of_columns.
    apply NoDup_ListNoDup. apply (bool_decide_unpack _). by vm_compute.
  - right. apply in_or_app. left. apply in_map_iff. by exists c.
Qed.

Lemma customerRow_json id customer c :
  In c customerOps.jsonCols -> customerRow id customer !! c = Some (jsonCell (customer !! c)).
Proof.
  intros Hc. unfold customerRow. apply setCols_lookup_in.
  - cbn [map fst]. rewrite map_app, !keys_of_columns.
    apply NoDup_ListNoDup. apply (bool_decide_unpack _). by vm_compute.
  - right. apply in_or_app. right. apply in_map_iff. by exists c.
Qed.

Lemma productRow_id id product : productRow id product !! "id" = Some (VStr id).
Proof.
  unfold productRow. apply setCols_lookup_in; [|by left].
  cbn [map fst]. rewrite keys_of_columns.
  apply NoDup_ListNoDup. apply (bool_decide_unpack _). by vm_compute.
Qed.

Lemma productRow_col id product c :
  In c productOps.cols -> productRow id product !! c = Some (bind (product !! c)).
Proof.
  intros Hc. unfold productRow. apply setCols_lookup_in.
  - cbn [map fst]. rewrite keys_of_columns.
    apply NoDup_ListNoDup. apply (bool_decide_unpack _). by vm_compute.
  - right. apply in_map_iff. by exists c.
Qed.

Lemma parseRow_id (r : Obj) : customerOps.parseRow r !! "id" = r !! "id".
Proof.
  unfold customerOps.parseRow. apply setCols_lookup_notin.
  rewrite keys_of_columns. unfold customerOps.jsonCols. cbn [In].
  intros [H|[H|[H|[]]]]; discriminate.
Qed.

(** What [create] does to the table, when it succeeds. *)
Lemma customer_create_inv customer seed db created db' :
  customerOps.create customer seed db = inr (created, db') ->
  created = customer ∪ {["id" := VStr (uuidOf seed)]}
  /\ db' = mkDb (customers db ++ [customerRow (uuidOf seed) customer])
             (products db) (orders db) (payments db)
  /\ List.find (hasId (Some (uuidOf seed))) (customers db) = None
  /\ isNull (bind (customer !! "CustomerName")) = false.
Proof.
  unfold customerOps.create. fold (customerRow (uuidOf seed) customer).
  pose proof (customerRow_id (uuidOf seed) customer) as Hid.
  pose proof (customerRow_col (uuidOf seed) customer "CustomerName") as Hname.
  remember (customerRow (uuidOf seed) customer) as row.
  unfold customerOps.insert, customerOps.violation.
  destruct (existsb _ _) eqn:Hex; [discriminate|].
  rewrite Hname by (by left). rewrite bind_Some.
  destruct (isNull (bind (customer !! "CustomerName"))) eqn:Hn; [discriminate|].
  intros [= <- <-]. split; [done|]. split; [done|]. split; [|done].
  by eapply fresh_id_find.
Qed.

Lemma product_create_inv product seed db created db' :
  productOps.create product seed db = inr (created, db') ->
  created = product ∪ {["id" := VStr (uuidOf seed)]}
  /\ db' = mkDb (customers db) (products db ++ [productRow (uuidOf seed) product])
             (orders db) (payments db)
  /\ List.find (hasId (Some (uuidOf seed))) (products db) = None
  /\ productOps.violation (productRow (uuidOf seed) product) (products db) = None.
Proof.
  unfold productOps.create. fold (productRow (uuidOf seed) product).
  pose proof (productRow_id (uuidOf seed) product) as Hid.
  remember (productRow (uuidOf seed) product) as row.
  unfold productOps.insert.
  destruct (existsb _ _) eqn:Hex; [discriminate|].
  destruct (productOps.violation row (products db)) eqn:Hv; [discriminate|].
  intros [= <- <-]. split; [done|]. split; [done|]. split; [|done].
  by eapply fresh_id_find.
Qed.

Lemma find_snoc_other (id : option string) (rows : list Obj) (row : Obj) i :
  row !! "id" = Some (VStr i) -> id <> Some i ->
  List.find (hasId id) (rows ++ [row]) = List.find (hasId id) rows.
Proof.
  intros Hrow Hne. induction rows as [|r rows IH]; cbn [List.find app].
  - destruct id as [j|]; cbn [hasId]; [|done].
    rewrite Hrow. rewrite bool_decide_eq_false_2; [done|]. intros [= ->]. by apply Hne.
  - destruct (hasId id r); [done|]. exact IH.
Qed.

(** What [create] leaves in the table. *)
Lemma create_found (t : Entity) (record : Obj) (seed : N) (db : Db)
    (created : Obj) (db' : Db) :
  createOf t record seed db = inr (created, db') ->
  exists row,
    getByIdOf t (Some (uuidOf seed)) db' = Some row
    /\ row !! "id" = Some (VStr (uuidOf seed))
    /\ (forall c, In c (columnsOf t) -> row !! c = Some (bind (record !! c)))
    /\ getAllOf t db' = getAllOf t db ++ [row]
    /\ (forall id, id <> Some (uuidOf seed) -> getByIdOf t id db' = getByIdOf t id db).
Proof.
  intros Hc. destruct t; cbn [createOf getByIdOf columnsOf getAllOf] in *.
  - apply customer_create_inv in Hc as (_ & -> & Hfresh & _).
    pose proof (customerRow_id (uuidOf seed) record) as Hid.
    exists (customerOps.parseRow (customerRow (uuidOf seed) record)).
    unfold customerOps.getById, customerOps.getAll. cbn [customers].
    split.
    { rewrite find_snoc by done. cbn [hasId]. by rewrite bool_decide_eq_true_2. }
    split; [by rewrite parseRow_id|].
    split; [intros c Hin; rewrite parseRow_lookup_col by done; by apply customerRow_col|].
    split; [by rewrite map_app|].
    intros id Hne. by rewrite (find_snoc_other id _ _ (uuidOf seed)).
  - apply product_create_inv in Hc as (_ & -> & Hfresh & _).
    pose proof (productRow_id (uuidOf seed) record) as Hid.
    exists (productRow (uuidOf seed) record).
    unfold productOps.getById, productOps.getAll. cbn [products].
    split.
    { rewrite find_snoc by done. cbn [hasId]. by rewrite bool_decide_eq_true_2. }
    split; [done|].
    split; [intros c Hin; by apply productRow_col|].
    split; [done|].
    intros id Hne. by rewrite (find_snoc_other id _ _ (uuidOf seed)).
Qed.

(** X1. A record that [create] accepts is found again under the
    identifier that was generated: with that [id], with every column as
    it was bound ([undefined] as NULL), as the last row of [getAll], and
    without disturbing what the other identifiers find. *)
Theorem create_then_getById (t : Entity) (record : Obj) (seed : N) (db : Db)
    (created : Obj) (db' : Db) :
  storedAsBound t record = true ->
  createOf t record seed db = inr (created, db') ->
  exists row,
    getByIdOf t (Some (uuidOf seed)) db' = Some row
    /\ row !! "id" = Some (VStr (uuidOf seed))
    /\ (forall c, In c (columnsOf t) -> row !! c = Some (bind (record !! c)))
    /\ getAllOf t db' = getAllOf t db ++ [row]
    /\ (forall id, id <> Some (uuidOf seed) -> getByIdOf t id db' = getByIdOf t id db).
Proof. intros _. apply create_found. Qed.

(** [create_then_getById] at a new customer with a name and a phone. *)
Lemma create_then_getById_witness :
  exists row,
    getByIdOf Customers (Some (uuidOf 7))
      (Fixture.createdBy Customers Fixture.cem 7 Sample.store).2 = Some row
    /\ row !! "id" = Some (VStr (uuidOf 7))
    /\ (forall c, In c (columnsOf Customers) -> row !! c = Some (bind (Fixture.cem !! c)))
    /\ getAllOf Customers (Fixture.createdBy Customers Fixture.cem 7 Sample.store).2
       = getAllOf Customers Sample.store ++ [row]
    /\ (forall id, id <> Some (uuidOf 7) ->
          getByIdOf Customers id (Fixture.createdBy Customers Fixture.cem 7 Sample.store).2
          = getByIdOf Customers id Sample.store).
Proof.
  apply (create_then_getById Customers Fixture.cem 7 Sample.store
           (Fixture.createdBy Customers Fixture.cem 7 Sample.store).1
           (Fixture.createdBy Customers Fixture.cem 7 Sample.store).2).
  - vm_compute. reflexivity.
  - vm_cast_no_check (@eq_refl _ (createOf Customers Fixture.cem 7 Sample.store)).
Defined.

Lemma create_returns_body t record seed db created db' :
  createOf t record seed db = inr (created, db') ->
  created = record ∪ {["id" := VStr (uuidOf seed)]}.
Proof.
  destruct t; cbn [createOf]; intros Hc.
  - by apply customer_create_inv in Hc as (-> & _).
  - by apply product_create_inv in Hc as (-> & _).
Qed.

(** X2. What [create] returns is the object it was given, with every key
    of it whether a column or not; it carries the generated [id] only when
    it has none of its own, while the row is always stored under the
    generated one. *)
Theorem create_returns_its_argument (t : Entity) (record : Obj) (seed : N) (db : Db)
    (created : Obj) (db' : Db) :
  createOf t record seed db = inr (created, db') ->
  (forall k, k <> "id" -> created !! k = record !! k)
  /\ created !! "id" = Some (default (VStr (uuidOf seed)) (record !! "id"))
  /\ exists row, tableOf t db' = tableOf t db ++ [row]
                 /\ row !! "id" = Some (VStr (uuidOf seed)).
Proof.
  intros Hc.
  assert (Hcreated : created = record ∪ {["id" := VStr (uuidOf seed)]}
          /\ exists row, tableOf t db' = tableOf t db ++ [row]
                         /\ row !! "id" = Some (VStr (uuidOf seed))).
  { destruct t; cbn [createOf tableOf] in *.
    - apply customer_create_inv in Hc as (-> & -> & _). split; [done|].
      eexists. split; [reflexivity|]. apply customerRow_id.
    - apply product_create_inv in Hc as (-> & -> & _). split; [done|].
      eexists. split; [reflexivity|]. apply productRow_id. }
  destruct Hcreated as [-> Hrow]. split; [|split; [|exact Hrow]].
  - intros k Hk. rewrite lookup_union, lookup_singleton_ne by done.
    by destruct (record !! k).
  - rewrite lookup_union, lookup_singleton_eq. by destruct (record !! "id").
Qed.

(** [create_returns_its_argument] at a customer that brings an [id] of its
    own and a key that is no column. *)
Lemma create_returns_its_argument_witness :
  (forall k, k <> "id" ->
     (Fixture.createdBy Customers Fixture.cemWithId 7 Sample.store).1 !! k
     = Fixture.cemWithId !! k)
  /\ (Fixture.createdBy Customers Fixture.cemWithId 7 Sample.store).1 !! "id"
     = Some (default (VStr (uuidOf 7)) (Fixture.cemWithId !! "id"))
  /\ exists row,
       tableOf Customers (Fixture.createdBy Customers Fixture.cemWithId 7 Sample.store).2
       = tableOf Customers Sample.store ++ [row]
       /\ row !! "id" = Some (VStr (uuidOf 7)).
Proof.
  apply (create_returns_its_argument Customers Fixture.cemWithId 7 Sample.store
           (Fixture.createdBy Customers Fixture.cemWithId 7 Sample.store).1
           (Fixture.createdBy Customers Fixture.cemWithId 7 Sample.store).2).
  vm_cast_no_check (@eq_refl _ (createOf Customers Fixture.cemWithId 7 Sample.store)).
Defined.

Lemma customer_create_ok customer seed db :
  List.find (hasId (Some (uuidOf seed))) (customers db) = None ->
  isNull (bind (customer !! "CustomerName")) = false ->
  customerOps.create customer seed db
  = inr (customer ∪ {["id" := VStr (uuidOf seed)]},
         mkDb (customers db ++ [customerRow (uuidOf seed) customer])
           (products db) (orders db) (payments db)).
Proof.
  intros Hfind Hn.
  unfold customerOps.create. fold (customerRow (uuidOf seed) customer).
  pose proof (customerRow_id (uuidOf seed) customer) as Hid.
  pose proof (customerRow_col (uuidOf seed) customer "CustomerName") as Hname.
  remember (customerRow (uuidOf seed) customer) as row.
  unfold customerOps.insert, customerOps.violation.
  rewrite (find_fresh_id (uuidOf seed)) by done.
  rewrite Hname by (by left). by rewrite bind_Some, Hn.
Qed.

Lemma product_create_without_price product seed db :
  List.find (hasId (Some (uuidOf seed))) (products db) = None ->
  isNull (bind (product !! "ProductCode")) = false ->
  isNull (bind (product !! "Price")) = true ->
  productOps.create product seed db = inl (NotNullViolation "Price").
Proof.
  intros Hfind Hc Hp.
  unfold productOps.create. fold (productRow (uuidOf seed) product).
  pose proof (productRow_id (uuidOf seed) product) as Hid.
  pose proof (productRow_col (uuidOf seed) product "ProductCode" ltac:(by left)) as Hcode.
  pose proof (productRow_col (uuidOf seed) product "Price"
                ltac:(unfold productOps.cols; cbn [In]; tauto)) as Hprice.
  remember (productRow (uuidOf seed) product) as row.
  unfold productOps.insert, productOps.violation.
  rewrite (find_fresh_id (uuidOf seed)) by done.
  by rewrite Hcode, Hprice, !bind_Some, Hc, Hp.
Qed.

Lemma existsb_false_Forall {A} (p : A -> bool) l :
  existsb p l = false <-> Forall (fun x => p x = false) l.
Proof.
  induction l as [|a l IH]; cbn [existsb].
  - split; [constructor|done].
  - rewrite orb_false_iff, Forall_cons, IH. done.
Qed.

Lemma product_violation_None (row : Obj) others :
  productOps.violation row others = None
  <-> isNull (bind (row !! "ProductCode")) = false
      /\ isNull (bind (row !! "Price")) = false
      /\ Forall (fun r => r !! "ProductCode" <> row !! "ProductCode") others.
Proof.
  unfold productOps.violation.
  destruct (isNull (bind (row !! "ProductCode"))); [split; [done|by intros [? _]]|].
  destruct (isNull (bind (row !! "Price"))); [split; [done|by intros (_ & ? & _)]|].
  destruct (existsb _ others) eqn:E.
  - split; [done|]. intros (_ & _ & H). apply existsb_exists in E as (r & Hr & Heq).
    apply bool_decide_eq_true in Heq. rewrite List.Forall_forall in H.
    by destruct (H r Hr).
  - split; [|done]. intros _. split; [done|]. split; [done|].
    apply existsb_false_Forall in E. eapply Forall_impl; [exact E|].
    intros r Hr. cbn beta in Hr. by apply bool_decide_eq_false in Hr.
Qed.

(** X3. For a record whose cells SQLite keeps as they are bound - text or
    NULL in the TEXT columns; a number other than NaN, the empty string or
    NULL in the numeric ones - and a generated identifier that is new to
    the table, [create] accepts the record exactly when the NOT NULL
    columns of the schema are bound to something other than NULL and, for
    a product, no row holds its [ProductCode] yet. *)
Theorem create_accepts_iff (t : Entity) (record : Obj) (seed : N) (db : Db) :
  keptAsBound t record = true ->
  getByIdOf t (Some (uuidOf seed)) db = None ->
  (exists created db', createOf t record seed db = inr (created, db'))
  <-> (Forall (fun c => isNull (bind (record !! c)) = false) (requiredColumns t)
       /\ (t = Products -> codeUnused record (products db))).
Proof.
  intros _ Hfresh. destruct t; cbn [createOf getByIdOf requiredColumns] in *.
  - unfold customerOps.getById in Hfresh.
    destruct (List.find _ (customers db)) eqn:Hfind; [discriminate|]. clear Hfresh.
    split.
    + intros (created & db' & Hc). apply customer_create_inv in Hc as (_ & _ & _ & Hn).
      split; [|done]. by repeat constructor.
    + intros [Hreq _]. apply Forall_cons in Hreq as [Hn _].
      unfold customerOps.create. fold (customerRow (uuidOf seed) record).
      pose proof (customerRow_id (uuidOf seed) record) as Hid.
      pose proof (customerRow_col (uuidOf seed) record "CustomerName") as Hname.
      remember (customerRow (uuidOf seed) record) as row.
      unfold customerOps.insert, customerOps.violation.
      rewrite (find_fresh_id (uuidOf seed)) by done.
      rewrite Hname by (by left). rewrite bind_Some, Hn. eauto.
  - unfold productOps.getById in Hfresh.
    pose proof (productRow_id (uuidOf seed) record) as Hid.
    pose proof (productRow_col (uuidOf seed) record "ProductCode") as Hcode.
    pose proof (productRow_col (uuidOf seed) record "Price") as Hprice.
    specialize (Hcode ltac:(by left)).
    specialize (Hprice ltac:(unfold productOps.cols; cbn [In]; tauto)).
    split.
    + intros (created & db' & Hc). apply product_create_inv in Hc as (_ & _ & _ & Hv).
      apply product_violation_None in Hv as (H1 & H2 & H3).
      rewrite Hcode, bind_Some in H1. rewrite Hprice, bind_Some in H2. rewrite Hcode in H3.
      split; [by repeat constructor|]. intros _. exact H3.
    + intros [Hreq Huniq]. specialize (Huniq eq_refl).
      apply Forall_cons in Hreq as [H1 Hreq]. apply Forall_cons in Hreq as [H2 _].
      unfold productOps.create. fold (productRow (uuidOf seed) record).
      remember (productRow (uuidOf seed) record) as row.
      unfold productOps.insert.
      rewrite (find_fresh_id (uuidOf seed)) by done.
      assert (Hv : productOps.violation row (products db) = None).
      { apply product_violation_None. rewrite Hcode, Hprice, !bind_Some. done. }
      rewrite Hv. eauto.
Qed.

(** [create_accepts_iff] at a new product with a code and a price. *)
Lemma create_accepts_iff_witness :
  (exists created db', createOf Products Fixture.nut 7 Sample.store = inr (created, db'))
  <-> (Forall (fun c => isNull (bind (Fixture.nut !! c)) = false) (requiredColumns Products)
       /\ (Products = Products -> codeUnused Fixture.nut (products Sample.store))).
Proof.
  apply (create_accepts_iff Products Fixture.nut 7 Sample.store).
  - vm_compute. reflexivity.
  - vm_compute. reflexivity.
Defined.

(** ** Update and read back *)

Lemma find_map_other (id id' : option string) params (rows : list Obj) :
  id' <> id ->
  Forall (fun kv => kv.1 <> "id") params ->
  List.find (hasId id') (map (fun r => if hasId id r then setCols params r else r) rows)
  = List.find (hasId id') rows.
Proof.
  intros Hne Hp. induction rows as [|r rows IH]; cbn [map List.find]; [done|].
  destruct (hasId id r) eqn:Hr.
  - rewrite hasId_setCols by done.
    assert (Hno : hasId id' r = false).
    { destruct id as [i|], id' as [j|]; cbn [hasId] in *; try done.
      apply bool_decide_eq_true in Hr. rewrite Hr.
      rewrite bool_decide_eq_false_2; [done|]. intros [= ->]. by apply Hne. }
    rewrite Hno. exact IH.
  - destruct (hasId id' r); [done|]. exact IH.
Qed.

Lemma merged_lookup_customer updates current c :
  In c customerOps.cols ->
  setCols (customerOps.merged updates current) current !! c
  = Some (bind (orElse (updates !! c) (current !! c))).
Proof.
  intros Hc. apply setCols_lookup_in.
  - unfold customerOps.merged. rewrite keys_of_columns. apply customer_cols_NoDup.
  - unfold customerOps.merged. apply in_map_iff. by exists c.
Qed.

Lemma merged_lookup_product updates current c :
  In c productOps.cols ->
  setCols (productOps.merged updates current) current !! c
  = Some (bind (orElse (updates !! c) (current !! c))).
Proof.
  intros Hc. apply setCols_lookup_in.
  - unfold productOps.merged. rewrite keys_of_columns. apply product_cols_NoDup.
  - unfold productOps.merged. apply in_map_iff. by exists c.
Qed.

Lemma setCols_frame cols (r r' : Obj) k :
  r !! k = r' !! k -> setCols cols r !! k = setCols cols r' !! k.
Proof.
  unfold setCols. revert r r'.
  induction cols as [|[k' v'] cols IH]; intros r r' H; [done|].
  cbn [fold_left fst snd]. apply IH.
  destruct (decide (k' = k)) as [->|Hne].
  - by rewrite !lookup_insert_eq.
  - by rewrite !lookup_insert_ne.
Qed.

Lemma parseRow_lookup_json (r : Obj) k :
  In k customerOps.jsonCols -> customerOps.parseRow r !! k = Some (parseJsonCell (r !! k)).
Proof.
  intros Hk. unfold customerOps.parseRow. apply setCols_lookup_in.
  - rewrite keys_of_columns. apply NoDup_ListNoDup. apply (bool_decide_unpack _). by vm_compute.
  - apply in_map_iff. by exists k.
Qed.

Lemma parseRow_lookup_other (r : Obj) k :
  ~ In k customerOps.jsonCols -> customerOps.parseRow r !! k = r !! k.
Proof.
  intros Hk. unfold customerOps.parseRow. apply setCols_lookup_notin.
  by rewrite keys_of_columns.
Qed.

Lemma cols_not_json c : In c customerOps.cols -> ~ In c customerOps.jsonCols.
Proof.
  unfold customerOps.cols, customerOps.textCols, customerOps.numCols, customerOps.jsonCols.
  cbn [app In]. intros Hc Hj.
  repeat (destruct Hc as [<-|Hc]; [repeat (destruct Hj as [Hj|Hj]; [discriminate|]); done|]).
  done.
Qed.

Lemma truthy_bind v : truthy v = true -> Some (bind v) = v.
Proof. destruct v as [[]|]; cbn; done. Qed.

(** The parsed row after an UPDATE, column by column. *)
Lemma parseRow_updated_col updates (r : Obj) k :
  let current := customerOps.parseRow r in
  In k customerOps.cols ->
  customerOps.parseRow (setCols (customerOps.merged updates current) r) !! k
  = Some (bind (orElse (updates !! k) (current !! k))).
Proof.
  intros current Hk. rewrite parseRow_lookup_col by done.
  apply setCols_lookup_in.
  - unfold customerOps.merged. rewrite keys_of_columns. apply customer_cols_NoDup.
  - unfold customerOps.merged. apply in_map_iff. by exists k.
Qed.

Lemma parseRow_updated_other updates (r : Obj) k :
  let current := customerOps.parseRow r in
  ~ In k customerOps.cols ->
  customerOps.parseRow (setCols (customerOps.merged updates current) r) !! k
  = current !! k.
Proof.
  intros current Hk. subst current.
  destruct (decide (k ∈ customerOps.jsonCols)) as [Hj|Hj]; rewrite list_elem_of_In in Hj.
  - rewrite !parseRow_lookup_json by done. f_equal. f_equal.
    apply setCols_lookup_notin. unfold customerOps.merged. by rewrite keys_of_columns.
  - rewrite !parseRow_lookup_other by done.
    apply setCols_lookup_notin. unfold customerOps.merged. by rewrite keys_of_columns.
Qed.

Lemma customer_update_inv id updates db current res db' :
  customerOps.getById id db = Some current ->
  customerOps.update id updates db = inr (res, db') ->
  exists r,
    List.find (hasId id) (customers db) = Some r
    /\ current = customerOps.parseRow r
    /\ res = Some (customerOps.parseRow (setCols (customerOps.merged updates current) r))
    /\ customerOps.getById id db' = res
    /\ db' = mkDb (map (fun r => if hasId id r
                                 then setCols (customerOps.merged updates current) r else r)
                      (customers db))
               (products db) (orders db) (payments db).
Proof.
  intros Hcur Hupd.
  unfold customerOps.update in Hupd. rewrite Hcur in Hupd.
  remember (customerOps.merged updates current) as params eqn:Hp.
  destruct (customerOps.violation _); [discriminate|].
  injection Hupd as <- <-.
  unfold customerOps.getById in Hcur |- *. cbn [customers].
  destruct (List.find (hasId id) (customers db)) as [r|] eqn:Hr; [|discriminate].
  injection Hcur as <-. exists r.
  rewrite (customer_find_updated _ _ _ r); [|subst params; apply merged_not_id_customer|done].
  done.
Qed.

Lemma product_update_inv id updates db current res db' :
  productOps.getById id db = Some current ->
  productOps.update id updates db = inr (res, db') ->
  res = Some (setCols (productOps.merged updates current) current)
  /\ productOps.getById id db' = res
  /\ db' = mkDb (customers db)
             (map (fun r => if hasId id r
                            then setCols (productOps.merged updates current) r else r)
                (products db))
             (orders db) (payments db).
Proof.
  intros Hcur Hupd.
  unfold productOps.update in Hupd. rewrite Hcur in Hupd.
  remember (productOps.merged updates current) as params eqn:Hp.
  destruct (productOps.violation _ _); [discriminate|].
  injection Hupd as <- <-.
  unfold productOps.getById in Hcur |- *. cbn [products].
  rewrite (customer_find_updated _ _ _ current); [|subst params; apply merged_not_id_product|done].
  done.
Qed.

(** X4. For updates whose cells SQLite keeps as they are bound - text or
    NULL in the TEXT columns; a number, the empty string or NULL in the
    numeric ones - an update that finds its record and is accepted returns
    what the Store then holds under that identifier: every column for
    which a truthy value was supplied holds that value; every other key of
    the record - its [id], the JSON columns of a customer - is as it was;
    the records under other identifiers and the number of rows are as
    they were. *)
Theorem update_then_getById (t : Entity) (id : option string) (updates : Obj) (db : Db)
    (current : Obj) (res : option Obj) (db' : Db) :
  storedAsBound t updates = true ->
  getByIdOf t id db = Some current ->
  updateOf t id updates db = inr (res, db') ->
  exists updated,
    res = Some updated /\ getByIdOf t id db' = Some updated
    /\ (forall c, In c (columnsOf t) -> truthy (updates !! c) = true ->
                  updated !! c = updates !! c)
    /\ (forall k, ~ In k (columnsOf t) -> updated !! k = current !! k)
    /\ (forall id', id' <> id -> getByIdOf t id' db' = getByIdOf t id' db)
    /\ length (getAllOf t db') = length (getAllOf t db).
Proof.
  intros _ Hcur Hupd. destruct t; cbn [getByIdOf updateOf columnsOf getAllOf] in *.
  - destruct (customer_update_inv _ _ _ _ _ _ Hcur Hupd) as (r & Hr & -> & -> & Hget & ->).
    eexists. split; [reflexivity|]. split; [exact Hget|].
    split; [|split; [|split]].
    + intros c Hc Ht. rewrite parseRow_updated_col by done.
      unfold orElse. rewrite Ht. by apply truthy_bind.
    + intros k Hk. by rewrite parseRow_updated_other.
    + intros id' Hne. unfold customerOps.getById. cbn [customers].
      rewrite find_map_other; [done|done|apply merged_not_id_customer].
    + unfold customerOps.getAll. cbn [customers]. by rewrite !length_map.
  - destruct (product_update_inv _ _ _ _ _ _ Hcur Hupd) as (-> & Hget & ->).
    eexists. split; [reflexivity|]. split; [exact Hget|].
    split; [|split; [|split]].
    + intros c Hc Ht. rewrite merged_lookup_product by done.
      unfold orElse. rewrite Ht. by apply truthy_bind.
    + intros k Hk. apply setCols_lookup_notin.
      unfold productOps.merged. by rewrite keys_of_columns.
    + intros id' Hne. unfold productOps.getById. cbn [products].
      rewrite find_map_other; [done|done|apply merged_not_id_product].
    + unfold productOps.getAll. cbn [products]. by rewrite length_map.
Qed.

(** [update_then_getById] at a new phone number for the first customer. *)
Lemma update_then_getById_witness :
  exists updated,
    (Fixture.updatedBy Customers (Some "c1") Fixture.newPhone Sample.store).1 = Some updated
    /\ getByIdOf Customers (Some "c1")
         (Fixture.updatedBy Customers (Some "c1") Fixture.newPhone Sample.store).2
       = Some updated
    /\ (forall c, In c (columnsOf Customers) -> truthy (Fixture.newPhone !! c) = true ->
                  updated !! c = Fixture.newPhone !! c)
    /\ (forall k, ~ In k (columnsOf Customers) -> updated !! k = Sample.ada !! k)
    /\ (forall id', id' <> Some "c1" ->
          getByIdOf Customers id'
            (Fixture.updatedBy Customers (Some "c1") Fixture.newPhone Sample.store).2
          = getByIdOf Customers id' Sample.store)
    /\ length (getAllOf Customers
                 (Fixture.updatedBy Customers (Some "c1") Fixture.newPhone Sample.store).2)
       = length (getAllOf Customers Sample.store).
Proof.
  apply (update_then_getById Customers (Some "c1") Fixture.newPhone Sample.store Sample.ada
           (Fixture.updatedBy Customers (Some "c1") Fixture.newPhone Sample.store).1
           (Fixture.updatedBy Customers (Some "c1") Fixture.newPhone Sample.store).2).
  - vm_compute. reflexivity.
  - vm_cast_no_check (@eq_refl _ (Some Sample.ada)).
  - vm_cast_no_check
      (@eq_refl _ (updateOf Customers (Some "c1") Fixture.newPhone Sample.store)).
Defined.

Lemma NoDup_map_inj {A B} (f : A -> B) (l : list A) x y :
  NoDup (map f l) -> In x l -> In y l -> f x = f y -> x = y.
Proof.
  induction l as [|a l IH]; cbn [map In]; [done|].
  intros Hnd Hx Hy Hf. apply NoDup_cons in Hnd as [Ha Hnd].
  destruct Hx as [->|Hx], Hy as [->|Hy]; [done| | |by apply IH].
  - exfalso. apply Ha. rewrite Hf. apply list_elem_of_In. by apply in_map.
  - exfalso. apply Ha. rewrite <- Hf. apply list_elem_of_In. by apply in_map.
Qed.

Lemma orElse_nonNull (a b : option value) :
  isNull (bind b) = false -> isNull (bind (orElse a b)) = false.
Proof.
  intros Hb. unfold orElse. destruct (truthy a) eqn:Ht; [|done].
  by destruct a as [[]|].
Qed.

(** X5. For updates whose cells SQLite keeps as they are bound - text or
    NULL in the TEXT columns; a number, the empty string or NULL in the
    numeric ones - on consistent tables an update is never refused for a
    customer, and for a product only because a truthy new [ProductCode] is
    the code of another product. *)
Theorem update_refuses_only_a_taken_code (t : Entity) (id : option string)
    (updates : Obj) (db : Db) (e : SqlError) :
  storedAsBound t updates = true ->
  Consistent db ->
  updateOf t id updates db = inl e ->
  t = Products
  /\ e = UniqueViolation "ProductCode"
  /\ truthy (updates !! "ProductCode") = true
  /\ exists other, In other (products db) /\ hasId id other = false
                   /\ other !! "ProductCode" = updates !! "ProductCode".
Proof.
  intros _ [(_ & _ & Hname) (_ & _ & Hcode & Hprice & Hcodes)] Hupd.
  destruct t; cbn [updateOf] in Hupd.
  - exfalso. unfold customerOps.update in Hupd.
    destruct (customerOps.getById id db) as [current|] eqn:Hcur; [|discriminate].
    unfold customerOps.violation in Hupd.
    rewrite merged_lookup_customer in Hupd by (by left). rewrite bind_Some in Hupd.
    rewrite orElse_nonNull in Hupd; [discriminate|].
    unfold customerOps.getById in Hcur.
    destruct (List.find (hasId id) (customers db)) as [r|] eqn:Hr; [|discriminate].
    injection Hcur as <-. rewrite parseRow_lookup_col by (by left).
    apply find_some in Hr as [Hin _]. rewrite List.Forall_forall in Hname.
    by apply Hname.
  - split; [done|]. unfold productOps.update in Hupd.
    destruct (productOps.getById id db) as [current|] eqn:Hcur; [|discriminate].
    unfold productOps.getById in Hcur. apply find_some in Hcur as [Hin Hid].
    rewrite List.Forall_forall in Hcode, Hprice.
    assert (Hin_price : In "Price" productOps.cols)
      by (unfold productOps.cols; cbn [In]; tauto).
    unfold productOps.violation in Hupd.
    rewrite !merged_lookup_product in Hupd by (done || by left).
    rewrite !bind_Some in Hupd.
    rewrite !orElse_nonNull in Hupd by (by apply Hcode || by apply Hprice).
    destruct (existsb _ _) eqn:Hex; [|discriminate].
    injection Hupd as <-. split; [done|].
    apply existsb_exists in Hex as (other & Hother & Heq).
    apply bool_decide_eq_true in Heq.
    apply filter_In in Hother as [Hother Hnot]. apply negb_true_iff in Hnot.
    unfold orElse in Heq.
    destruct (truthy (updates !! "ProductCode")) eqn:Ht.
    + split; [done|]. exists other. rewrite truthy_bind in Heq by done. done.
    + exfalso.
      assert (Hc : other !! "ProductCode" = current !! "ProductCode").
      { rewrite Heq. specialize (Hcode current Hin). unfold nonNull in Hcode.
        by destruct (current !! "ProductCode") as [[]|]. }
      assert (other = current) as -> by (by eapply (NoDup_map_inj _ (products db))).
      congruence.
Qed.

(** [update_refuses_only_a_taken_code] at the second product, given the
    code of the first. *)
Lemma update_refuses_only_a_taken_code_witness :
  Products = Products
  /\ UniqueViolation "ProductCode" = UniqueViolation "ProductCode"
  /\ truthy (Fixture.takenCode !! "ProductCode") = true
  /\ exists other, In other (products Fixture.twoProducts) /\ hasId (Some "p2") other = false
                   /\ other !! "ProductCode" = Fixture.takenCode !! "ProductCode".
Proof.
  apply (update_refuses_only_a_taken_code Products (Some "p2") Fixture.takenCode
           Fixture.twoProducts (UniqueViolation "ProductCode")).
  - vm_compute. reflexivity.
  - unfold Consistent, nonNull.
    repeat split; apply (bool_decide_unpack _); vm_compute; exact I.
  - vm_compute. reflexivity.
Defined.

(** ** Delete *)

Lemma find_filter_none id (rows : list Obj) :
  List.find (hasId id) (List.filter (fun r => negb (hasId id r)) rows) = None.
Proof.
  induction rows as [|r rows IH]; cbn [List.filter List.find]; [done|].
  destruct (hasId id r) eqn:E; cbn [negb List.find]; [done|]. by rewrite E.
Qed.

Lemma find_filter_other (id id' : option string) (rows : list Obj) :
  id' <> id ->
  List.find (hasId id') (List.filter (fun r => negb (hasId id r)) rows)
  = List.find (hasId id') rows.
Proof.
  intros Hne. induction rows as [|r rows IH]; cbn [List.filter List.find]; [done|].
  destruct (hasId id r) eqn:Hr; cbn [negb List.find].
  - assert (Hno : hasId id' r = false).
    { destruct id as [i|], id' as [j|]; cbn [hasId] in *; try done.
      apply bool_decide_eq_true in Hr. rewrite Hr.
      rewrite bool_decide_eq_false_2; [done|]. intros [= ->]. by apply Hne. }
    by rewrite Hno.
  - destruct (hasId id' r); [done|]. exact IH.
Qed.

Lemma existsb_find {A} (p : A -> bool) l :
  existsb p l = bool_decide (is_Some (List.find p l)).
Proof.
  induction l as [|a l IH]; cbn [existsb List.find]; [done|].
  destruct (p a); [done|]. exact IH.
Qed.

Lemma getById_is_Some_find t id db :
  is_Some (getByIdOf t id db) <-> is_Some (List.find (hasId id) (tableOf t db)).
Proof.
  destruct t; cbn [getByIdOf tableOf]; [|done].
  unfold customerOps.getById. by rewrite fmap_is_Some.
Qed.

(** What [delete] leaves in the table. *)
Lemma delete_found (t : Entity) (id : option string) (db : Db) :
  let db' := (deleteOf t id db).2 in
  ((deleteOf t id db).1 = true <-> is_Some (getByIdOf t id db))
  /\ getByIdOf t id db' = None
  /\ (forall id', id' <> id -> getByIdOf t id' db' = getByIdOf t id' db)
  /\ deleteOf t id db' = (false, db').
Proof.
  intros db'. split; [|split; [|split]].
  - rewrite getById_is_Some_find.
    destruct t; cbn [deleteOf tableOf]; unfold customerOps.delete, productOps.delete;
      cbn [fst]; rewrite existsb_find; apply bool_decide_eq_true.
  - subst db'. destruct t; cbn [deleteOf getByIdOf];
      unfold customerOps.delete, productOps.delete, customerOps.getById, productOps.getById;
      cbn [snd customers products]; by rewrite find_filter_none.
  - intros id' Hne. subst db'. destruct t; cbn [deleteOf getByIdOf];
      unfold customerOps.delete, productOps.delete, customerOps.getById, productOps.getById;
      cbn [snd customers products]; by rewrite find_filter_other.
  - apply delete_missing. subst db'. destruct t; cbn [deleteOf getByIdOf];
      unfold customerOps.delete, productOps.delete, customerOps.getById, productOps.getById;
      cbn [snd customers products]; by rewrite find_filter_none.
Qed.

(** X6. [delete] reports whether the record existed; afterwards nothing
    is found under the identifier, the records under every other
    identifier are found as before, and a second [delete] of the same
    identifier reports [false] and changes nothing. *)
Theorem delete_then_getById (t : Entity) (id : option string) (db : Db) :
  let db' := (deleteOf t id db).2 in
  ((deleteOf t id db).1 = true <-> is_Some (getByIdOf t id db))
  /\ getByIdOf t id db' = None
  /\ (forall id', id' <> id -> getByIdOf t id' db' = getByIdOf t id' db)
  /\ deleteOf t id db' = (false, db').
Proof. apply delete_found. Qed.

(** ** The constraints of the schema *)

Lemma Forall_List_filter {A} (P : A -> Prop) (p : A -> bool) (l : list A) :
  Forall P l -> Forall P (List.filter p l).
Proof.
  rewrite !List.Forall_forall. intros H x Hx. apply H. by apply filter_In in Hx as [? _].
Qed.

Lemma NoDup_map_filter {A B} (f : A -> B) (p : A -> bool) (l : list A) :
  NoDup (map f l) -> NoDup (map f (List.filter p l)).
Proof.
  induction l as [|a l IH]; cbn [map List.filter]; [done|].
  intros H. apply NoDup_cons in H as [Ha H]. destruct (p a); [|by apply IH].
  cbn [map]. apply NoDup_cons. split; [|by apply IH].
  intros Hin. apply Ha. apply list_elem_of_In in Hin. apply list_elem_of_In.
  apply in_map_iff in Hin as (x & Hx & Hin). apply in_map_iff.
  exists x. split; [done|]. by apply filter_In in Hin as [? _].
Qed.

Lemma fresh_id_not_in i (rows : list Obj) :
  List.find (hasId (Some i)) rows = None -> Some (VStr i) ∉ idsOf rows.
Proof.
  induction rows as [|r rows IH]; cbn [List.find idsOf map hasId].
  - intros _ H. by apply elem_of_nil in H.
  - case_bool_decide as Hr; [discriminate|]. intros Hf H.
    apply elem_of_cons in H as [H|H]; [by symmetry in H|]. by apply IH.
Qed.

Lemma NoDup_snoc {A} (l : list A) x : NoDup l -> x ∉ l -> NoDup (l ++ [x]).
Proof.
  intros Hl Hx. apply NoDup_app. split; [done|]. split; [|apply NoDup_singleton].
  intros y Hy Hyx. apply list_elem_of_singleton in Hyx as ->. by apply Hx.
Qed.

Lemma idOf_VStr (r : Obj) i : r !! "id" = Some (VStr i) -> is_Some (idOf r).
Proof. intros H. unfold idOf. rewrite H. by eexists. Qed.

Lemma hasId_same_id id (r r' : Obj) :
  r !! "id" = r' !! "id" -> hasId id r = hasId id r'.
Proof. intros H. destruct id; cbn [hasId]; [|done]. by rewrite H. Qed.

(** The rows an UPDATE rewrites keep their [id]. *)
Lemma idsOf_updated id params (rows : list Obj) :
  Forall (fun kv => kv.1 <> "id") params ->
  idsOf (map (fun r => if hasId id r then setCols params r else r) rows) = idsOf rows.
Proof.
  intros Hp. unfold idsOf. rewrite map_map. apply map_ext. intros r.
  destruct (hasId id r); [|done]. apply setCols_lookup_notin.
  intros Hin. apply in_map_iff in Hin as ([k v] & Hk & Hin). cbn in Hk. subst k.
  rewrite List.Forall_forall in Hp. by apply (Hp _ Hin).
Qed.

Lemma Forall_updated (P : Obj -> Prop) id params (rows : list Obj) :
  Forall P rows -> (forall r, P (setCols params r)) ->
  Forall P (map (fun r => if hasId id r then setCols params r else r) rows).
Proof.
  intros H Hp. apply Forall_map. eapply Forall_impl; [exact H|].
  intros r Hr. cbn beta. by destruct (hasId id r).
Qed.

Lemma idOf_updated id params (rows : list Obj) :
  Forall (fun kv => kv.1 <> "id") params ->
  Forall (fun r => is_Some (idOf r)) rows ->
  Forall (fun r => is_Some (idOf r))
    (map (fun r => if hasId id r then setCols params r else r) rows).
Proof.
  intros Hp H. apply Forall_map. eapply Forall_impl; [exact H|].
  intros r Hr. cbn beta. destruct (hasId id r); [|done].
  unfold idOf in *. rewrite setCols_lookup_notin; [done|].
  intros Hin. apply in_map_iff in Hin as ([k v] & Hk & Hin). cbn in Hk. subst k.
  rewrite List.Forall_forall in Hp. by apply (Hp _ Hin).
Qed.

(** With distinct identifiers the UPDATE rewrites one row. *)
Lemma updated_one_row id (f : Obj -> Obj) (rows : list Obj) current :
  NoDup (idsOf rows) ->
  Forall (fun r => is_Some (idOf r)) rows ->
  In current rows -> hasId id current = true ->
  exists l1 l2,
    rows = l1 ++ current :: l2
    /\ map (fun r => if hasId id r then f r else r) rows = l1 ++ f current :: l2
    /\ List.filter (fun r => negb (hasId id r)) rows = l1 ++ l2.
Proof.
  intros Hnd Hids Hin Hid.
  apply in_split in Hin as (l1 & l2 & ->). exists l1, l2. split; [done|].
  assert (Hno : forall r, In r (l1 ++ l2) -> hasId id r = false).
  { intros r Hr. destruct (hasId id r) eqn:E; [|done]. exfalso.
    destruct id as [i|]; cbn [hasId] in *; [|done].
    apply bool_decide_eq_true in Hid, E.
    unfold idsOf in Hnd. rewrite map_app in Hnd. cbn [map] in Hnd.
    apply NoDup_app in Hnd as (_ & Hd & Hnd2). apply NoDup_cons in Hnd2 as [Hc _].
    apply in_app_or in Hr as [Hr|Hr].
    - apply (Hd (Some (VStr i))).
      + rewrite <- E. apply list_elem_of_In. by apply in_map.
      + rewrite Hid. by left.
    - apply Hc. rewrite Hid, <- E. apply list_elem_of_In. by apply in_map. }
  assert (Hmap : forall l, (forall r, In r l -> hasId id r = false) ->
            map (fun r => if hasId id r then f r else r) l = l
            /\ List.filter (fun r => negb (hasId id r)) l = l).
  { induction l as [|a l IH]; intros H; [done|]. cbn [map List.filter].
    rewrite (H a) by (by left). cbn [negb].
    destruct IH as [-> ->]; [intros r Hr; apply H; by right|done]. }
  destruct (Hmap l1) as [H1 H1']; [intros r Hr; apply Hno, in_or_app; by left|].
  destruct (Hmap l2) as [H2 H2']; [intros r Hr; apply Hno, in_or_app; by right|].
  rewrite map_app, List.filter_app. cbn [map List.filter].
  rewrite Hid, H1, H2, H1', H2'. done.
Qed.

Lemma Consistent_create t record seed db created db' :
  Consistent db -> createOf t record seed db = inr (created, db') -> Consistent db'.
Proof.
  intros [(Ci & Cn & Cname) (Pi & Pn & Pcode & Pprice & Pcodes)] Hc.
  destruct t; cbn [createOf] in Hc.
  - apply customer_create_inv in Hc as (_ & -> & Hfresh & Hnull).
    pose proof (customerRow_id (uuidOf seed) record) as Hid.
    split; [|done]. cbn [customers]. split; [|split].
    + apply Forall_app. split; [done|]. constructor; [by eapply idOf_VStr|constructor].
    + unfold idsOf. rewrite map_app. cbn [map]. rewrite Hid.
      apply NoDup_snoc; [done|]. by apply fresh_id_not_in.
    + apply Forall_app. split; [done|]. constructor; [|constructor].
      unfold nonNull. by rewrite customerRow_col, bind_Some by (by left).
  - apply product_create_inv in Hc as (_ & -> & Hfresh & Hv).
    pose proof (productRow_id (uuidOf seed) record) as Hid.
    apply product_violation_None in Hv as (H1 & H2 & H3).
    split; [done|]. cbn [products]. split; [|split; [|split; [|split]]].
    + apply Forall_app. split; [done|]. constructor; [by eapply idOf_VStr|constructor].
    + unfold idsOf. rewrite map_app. cbn [map]. rewrite Hid.
      apply NoDup_snoc; [done|]. by apply fresh_id_not_in.
    + apply Forall_app. split; [done|]. by repeat constructor.
    + apply Forall_app. split; [done|]. by repeat constructor.
    + unfold codesOf. rewrite map_app. cbn [map]. apply NoDup_snoc; [done|].
      intros Hin. apply list_elem_of_In, in_map_iff in Hin as (r & Hr & Hin).
      rewrite List.Forall_forall in H3. by apply (H3 r Hin).
Qed.

Lemma Consistent_delete t id db : Consistent db -> Consistent (deleteOf t id db).2.
Proof.
  intros [(Ci & Cn & Cname) (Pi & Pn & Pcode & Pprice & Pcodes)].
  destruct t; cbn [deleteOf]; unfold customerOps.delete, productOps.delete; cbn [snd].
  - split; [|done]. cbn [customers].
    split; [by apply Forall_List_filter|]. split; [by apply NoDup_map_filter|].
    by apply Forall_List_filter.
  - split; [done|]. cbn [products].
    split; [by apply Forall_List_filter|]. split; [by apply NoDup_map_filter|].
    split; [by apply Forall_List_filter|]. split; [by apply Forall_List_filter|].
    by apply NoDup_map_filter.
Qed.

Lemma setCols_lookup_base cols (r r' : Obj) k :
  In k (map fst cols) -> setCols cols r !! k = setCols cols r' !! k.
Proof.
  unfold setCols. revert r r'.
  induction cols as [|[k' v'] cols IH]; intros r r' Hk; [done|].
  cbn [fold_left fst snd]. cbn [map fst In] in Hk.
  destruct (decide (k' = k)) as [->|Hne].
  - apply setCols_frame. by rewrite !lookup_insert_eq.
  - apply IH. by destruct Hk.
Qed.

Lemma Consistent_update t id updates db res db' :
  Consistent db -> updateOf t id updates db = inr (res, db') -> Consistent db'.
Proof.
  intros [(Ci & Cn & Cname) (Pi & Pn & Pcode & Pprice & Pcodes)] Hupd.
  destruct t; cbn [updateOf] in Hupd.
  - unfold customerOps.update in Hupd.
    destruct (customerOps.getById id db) as [current|] eqn:Hcur;
      [|injection Hupd as <- <-; done].
    remember (customerOps.merged updates current) as params eqn:Hp.
    assert (Hkeys : map fst params = customerOps.cols)
      by (subst params; unfold customerOps.merged; apply keys_of_columns).
    assert (Hnoid : Forall (fun kv => kv.1 <> "id") params)
      by (subst params; apply merged_not_id_customer).
    unfold customerOps.violation in Hupd.
    destruct (isNull (bind (setCols params current !! "CustomerName"))) eqn:Hn;
      [discriminate|].
    injection Hupd as <- <-. split; [|done]. cbn [customers].
    split; [by apply idOf_updated|]. split; [by rewrite idsOf_updated|].
    apply Forall_updated; [done|]. intros r. unfold nonNull.
    rewrite (setCols_lookup_base _ r current); [done|]. rewrite Hkeys. by left.
  - unfold productOps.update in Hupd.
    destruct (productOps.getById id db) as [current|] eqn:Hcur;
      [|injection Hupd as <- <-; done].
    remember (productOps.merged updates current) as params eqn:Hp.
    assert (Hkeys : map fst params = productOps.cols)
      by (subst params; unfold productOps.merged; apply keys_of_columns).
    assert (Hnoid : Forall (fun kv => kv.1 <> "id") params)
      by (subst params; apply merged_not_id_product).
    destruct (productOps.violation _ _) eqn:Hv; [discriminate|].
    injection Hupd as <- <-. split; [done|]. cbn [products].
    apply product_violation_None in Hv as (H1 & H2 & H3).
    unfold productOps.getById in Hcur. apply find_some in Hcur as [Hin Hid].
    split; [by apply idOf_updated|]. split; [by rewrite idsOf_updated|].
    split; [|split].
    + apply Forall_updated; [done|]. intros r. unfold nonNull.
      rewrite (setCols_lookup_base _ r current); [done|]. rewrite Hkeys. by left.
    + apply Forall_updated; [done|]. intros r. unfold nonNull.
      rewrite (setCols_lookup_base _ r current); [done|]. rewrite Hkeys.
      unfold productOps.cols. cbn [In]. tauto.
    + destruct (updated_one_row id (setCols params) (products db) current Pn Pi Hin Hid)
        as (l1 & l2 & Hrows & -> & Hothers).
      rewrite Hothers in H3. rewrite Hrows in Pcodes.
      unfold codesOf in *. rewrite map_app in *. cbn [map] in *.
      apply NoDup_app in Pcodes as (N1 & Hd & N2). apply NoDup_cons in N2 as [_ N2].
      apply Forall_app in H3 as [H31 H32]. rewrite List.Forall_forall in H31, H32.
      apply NoDup_app. split; [done|]. split.
      * intros c Hc1 Hc2. apply elem_of_cons in Hc2 as [->|Hc2].
        -- apply list_elem_of_In, in_map_iff in Hc1 as (r & Hr & Hr1).
           by apply (H31 r Hr1).
        -- apply (Hd c Hc1). by right.
      * apply NoDup_cons. split; [|done].
        intros Hc. apply list_elem_of_In, in_map_iff in Hc as (r & Hr & Hr2).
        by apply (H32 r Hr2).
Qed.

(** X7. The three writing operations keep the constraints of the schema:
    from consistent tables an accepted [create] or [update], and every
    [delete], lead to consistent tables. *)
Theorem operations_keep_the_constraints (t : Entity) (db : Db) :
  Consistent db ->
  (forall record seed created db',
      createOf t record seed db = inr (created, db') -> Consistent db')
  /\ (forall id updates res db',
         updateOf t id updates db = inr (res, db') -> Consistent db')
  /\ (forall id, Consistent (deleteOf t id db).2).
Proof.
  intros H. split; [|split].
  - intros record seed created db'. by apply Consistent_create.
  - intros id updates res db'. by apply Consistent_update.
  - intros id. by apply Consistent_delete.
Qed.

(** [operations_keep_the_constraints] at the products of a Store that
    holds two of them. *)
Lemma operations_keep_the_constraints_witness :
  (forall record seed created db',
      createOf Products record seed Fixture.twoProducts = inr (created, db') -> Consistent db')
  /\ (forall id updates res db',
         updateOf Products id updates Fixture.twoProducts = inr (res, db') -> Consistent db')
  /\ (forall id, Consistent (deleteOf Products id Fixture.twoProducts).2).
Proof.
  apply (operations_keep_the_constraints Products Fixture.twoProducts).
  unfold Consistent, nonNull.
  repeat split; apply (bool_decide_unpack _); vm_compute; exact I.
Defined.

(** ** Products by code *)

Lemma find_code_snoc code (rows : list Obj) (row : Obj) :
  Forall (fun r => r !! "ProductCode" <> Some (VStr code)) rows ->
  row !! "ProductCode" = Some (VStr code) ->
  List.find (fun r => bool_decide (r !! "ProductCode" = Some (VStr code))) (rows ++ [row])
  = Some row.
Proof.
  intros H Hrow. induction H as [|r rows Hr _ IH]; cbn [app List.find].
  - by rewrite bool_decide_eq_true_2.
  - by rewrite bool_decide_eq_false_2.
Qed.

(** X8. A product that [create] accepts with a text [ProductCode] is the
    one [getByCode] finds under that code, and it is the row [getById]
    finds under the generated identifier; on consistent tables the row
    [getByCode] returns is the only one with that code. *)
Theorem getByCode_finds_the_created (product : Obj) (seed : N) (db : Db)
    (created : Obj) (db' : Db) (code : string) :
  product !! "ProductCode" = Some (VStr code) ->
  productOps.create product seed db = inr (created, db') ->
  productOps.getByCode code db = None
  /\ productOps.getByCode code db' = productOps.getById (Some (uuidOf seed)) db'
  /\ (exists row, productOps.getByCode code db' = Some row
                  /\ row !! "ProductCode" = Some (VStr code))
  /\ (Consistent db ->
      forall r, In r (products db') -> r !! "ProductCode" = Some (VStr code) ->
                productOps.getByCode code db' = Some r).
Proof.
  intros Hcode Hc.
  assert (Hcons : Consistent db -> Consistent db')
    by (intros Hdb; exact (Consistent_create Products product seed db created db' Hdb Hc)).
  apply product_create_inv in Hc as (_ & -> & Hfresh & Hv).
  apply product_violation_None in Hv as (_ & _ & Huniq).
  pose proof (productRow_id (uuidOf seed) product) as Hid.
  pose proof (productRow_col (uuidOf seed) product "ProductCode" ltac:(by left)) as Hrow.
  rewrite Hcode, bind_Some in Hrow. rewrite Hrow in Huniq.
  unfold productOps.getByCode, productOps.getById in *. cbn [products] in *.
  assert (Hfound : List.find (fun r => bool_decide (r !! "ProductCode" = Some (VStr code)))
                     (products db ++ [productRow (uuidOf seed) product])
                   = Some (productRow (uuidOf seed) product))
    by (by apply find_code_snoc).
  split; [|split; [|split]].
  - clear Hfresh. destruct (List.find _ (products db)) as [r|] eqn:E; [|done]. exfalso.
    apply find_some in E as [Hin Hr]. apply bool_decide_eq_true in Hr.
    rewrite List.Forall_forall in Huniq. by apply (Huniq r Hin).
  - rewrite Hfound, find_snoc by done. cbn [hasId]. by rewrite bool_decide_eq_true_2.
  - eauto.
  - intros Hdb r Hr Hrc. rewrite Hfound. f_equal.
    destruct (Hcons Hdb) as [_ (_ & _ & _ & _ & Hcodes)]. cbn [products] in Hcodes.
    eapply (NoDup_map_inj _ _ _ _ Hcodes); [|done|by rewrite Hrow, Hrc].
    apply in_or_app. right. by left.
Qed.

(** [getByCode_finds_the_created] at a new product with the code N-8. *)
Lemma getByCode_finds_the_created_witness :
  productOps.getByCode "N-8" Sample.store = None
  /\ productOps.getByCode "N-8" (Fixture.createdBy Products Fixture.nut 7 Sample.store).2
     = productOps.getById (Some (uuidOf 7))
         (Fixture.createdBy Products Fixture.nut 7 Sample.store).2
  /\ (exists row,
         productOps.getByCode "N-8" (Fixture.createdBy Products Fixture.nut 7 Sample.store).2
         = Some row
         /\ row !! "ProductCode" = Some (VStr "N-8"))
  /\ (Consistent Sample.store ->
      forall r, In r (products (Fixture.createdBy Products Fixture.nut 7 Sample.store).2) ->
                r !! "ProductCode" = Some (VStr "N-8") ->
                productOps.getByCode "N-8"
                  (Fixture.createdBy Products Fixture.nut 7 Sample.store).2 = Some r).
Proof.
  apply (getByCode_finds_the_created Fixture.nut 7 Sample.store
           (Fixture.createdBy Products Fixture.nut 7 Sample.store).1
           (Fixture.createdBy Products Fixture.nut 7 Sample.store).2 "N-8").
  - vm_compute. reflexivity.
  - vm_cast_no_check (@eq_refl _ (createOf Products Fixture.nut 7 Sample.store)).
Defined.

(** ** Paths and their pieces *)

(** [split] undoes a join at a separator that the pieces do not contain. *)
Section split.

Variable sep : ascii.

Lemma split_nonempty s : Js.split sep s <> [].
Proof.
  destruct s as [|c r]; cbn [Js.split]; [done|].
  destruct (ascii_dec c sep); [done|]. by destruct (Js.split sep r).
Qed.

Lemma split_app_sep s t :
  Js.split sep (s +:+ String sep t) = Js.split sep s ++ Js.split sep t.
Proof.
  induction s as [|c r IH].
  - rewrite append_empty. cbn [Js.split app]. destruct (ascii_dec sep sep); done.
  - rewrite append_cons. cbn [Js.split]. rewrite IH.
    destruct (ascii_dec c sep); [done|].
    pose proof (split_nonempty r). by destruct (Js.split sep r).
Qed.

Lemma split_without_sep s :
  Js.includes s (String sep "") = false -> Js.split sep s = [s].
Proof.
  induction s as [|c r IH]; [done|].
  cbn [Js.includes Js.startsWith Js.split]. intros H.
  apply orb_false_iff in H as [H1 H2].
  destruct (ascii_dec sep c) as [->|Hne]; [discriminate|].
  destruct (ascii_dec c sep) as [->|_]; [done|]. by rewrite IH.
Qed.

Lemma split_joinWith parts :
  parts <> [] ->
  Forall (fun s => Js.includes s (String sep "") = false) parts ->
  Js.split sep (joinWith sep parts) = parts.
Proof.
  intros Hne H. induction H as [|s rest Hs Hrest IH]; [done|].
  destruct rest as [|s' rest'].
  - cbn [joinWith]. by apply split_without_sep.
  - change (joinWith sep (s :: s' :: rest'))
      with (s +:+ String sep (joinWith sep (s' :: rest'))).
    rewrite split_app_sep, split_without_sep by done. rewrite IH by done. done.
Qed.

End split.

(** ** The handlers, method by method *)

Ltac hsimpl :=
  unfold mbind, mret, Http.handler_bind, Http.handler_ret, Http.read, Http.throw in *;
  cbn beta iota zeta delta
      [Http.method Http.pathname Http.body Http.status Http.headers Http.payload
       Http.apiResponse Http.getAll Http.getById Http.create Http.update Http.delete
       Http.notFound] in *.

Lemma handle_GET ops req parts w :
  Http.method req = "GET" ->
  Http.handle ops req parts w
  = (inr (if truthyId (parts !! 3%nat)
          then foundOr404 ops (Http.getById ops (parts !! 3%nat) (db w))
          else Http.apiResponse (Http.Rows (Http.getAll ops (db w))) 200), w).
Proof.
  intros Hm. unfold Http.handle, Http.tryCatch. rewrite Hm.
  rewrite bool_decide_eq_true_2 by done.
  destruct (truthyId (parts !! 3%nat)); hsimpl; reflexivity.
Qed.

Lemma handle_POST ops req parts w :
  Http.method req = "POST" ->
  Http.handle ops req parts w
  = match Http.body req with
    | Http.JsonObject o =>
        match Http.create ops o (uuidSeed w) (db w) with
        | inr (created, db') =>
            (inr (Http.apiResponse (Http.Row created) 201),
             set_db db' (set_uuidSeed (uuidSeed w + 1) w))
        | inl _ =>
            (inr (Http.apiResponse (Http.ErrorMessage "Internal server error") 500),
             set_uuidSeed (uuidSeed w + 1) w)
        end
    | Http.JsonNull =>
        (inr (Http.apiResponse (Http.ErrorMessage "Internal server error") 500),
         set_uuidSeed (uuidSeed w + 1) w)
    | Http.NotJson =>
        (inr (Http.apiResponse (Http.ErrorMessage "Internal server error") 500), w)
    end.
Proof.
  intros Hm. unfold Http.handle, Http.tryCatch. rewrite Hm.
  rewrite bool_decide_eq_false_2 by discriminate.
  rewrite bool_decide_eq_true_2 by done.
  unfold Http.json, Http.callCreate. destruct (Http.body req) as [| |o]; hsimpl; try reflexivity.
  destruct (Http.create ops o (uuidSeed w) (db w)) as [e|[created db']]; reflexivity.
Qed.

Lemma handle_PUT ops req parts w :
  Http.method req = "PUT" ->
  Http.handle ops req parts w
  = if truthyId (parts !! 3%nat) then
      match Http.body req with
      | Http.JsonObject u =>
          match Http.update ops (parts !! 3%nat) u (db w) with
          | inr (updated, db') => (inr (foundOr404 ops updated), set_db db' w)
          | inl _ =>
              (inr (Http.apiResponse (Http.ErrorMessage "Internal server error") 500), w)
          end
      | Http.JsonNull =>
          match Http.getById ops (parts !! 3%nat) (db w) with
          | None => (inr (foundOr404 ops None), w)
          | Some _ =>
              (inr (Http.apiResponse (Http.ErrorMessage "Internal server error") 500), w)
          end
      | Http.NotJson =>
          (inr (Http.apiResponse (Http.ErrorMessage "Internal server error") 500), w)
      end
    else (inr (Http.apiResponse (Http.ErrorMessage "ID required") 400), w).
Proof.
  intros Hm. unfold Http.handle, Http.tryCatch. rewrite Hm.
  rewrite !(bool_decide_eq_false_2 ("PUT" = _)) by discriminate.
  rewrite bool_decide_eq_true_2 by done.
  destruct (truthyId (parts !! 3%nat)); cbn [negb]; [|reflexivity].
  unfold Http.json, Http.callUpdate. destruct (Http.body req) as [| |u]; hsimpl; try reflexivity.
  - by destruct (Http.getById ops (parts !! 3%nat) (db w)).
  - by destruct (Http.update ops (parts !! 3%nat) u (db w)) as [e|[updated db']].
Qed.

Lemma handle_DELETE ops req parts w :
  Http.method req = "DELETE" ->
  Http.handle ops req parts w
  = if truthyId (parts !! 3%nat) then
      let '(deleted, db') := Http.delete ops (parts !! 3%nat) (db w) in
      (inr (if deleted : bool then Http.apiResponse Http.Success 200
            else Http.apiResponse (Http.ErrorMessage (Http.notFound ops)) 404),
       set_db db' w)
    else (inr (Http.apiResponse (Http.ErrorMessage "ID required") 400), w).
Proof.
  intros Hm. unfold Http.handle, Http.tryCatch. rewrite Hm.
  rewrite !(bool_decide_eq_false_2 ("DELETE" = _)) by discriminate.
  rewrite bool_decide_eq_true_2 by done.
  destruct (truthyId (parts !! 3%nat)); cbn [negb]; [|reflexivity].
  unfold Http.callDelete. hsimpl.
  by destruct (Http.delete ops (parts !! 3%nat) (db w)) as [deleted db'].
Qed.

Lemma handle_other ops req parts w :
  Http.method req <> "GET" -> Http.method req <> "POST" ->
  Http.method req <> "PUT" -> Http.method req <> "DELETE" ->
  Http.handle ops req parts w
  = (inr (Http.apiResponse (Http.ErrorMessage "Method not allowed") 405), w).
Proof.
  intros H1 H2 H3 H4. unfold Http.handle, Http.tryCatch.
  by rewrite !bool_decide_eq_false_2.
Qed.

Lemma apiPath_cons t segs :
  apiPath t segs = String "/" (joinWith "/" ("api" :: resourceName t :: segs)).
Proof. reflexivity. Qed.

Lemma resourceName_noSlash t : noSlash (resourceName t).
Proof. by destruct t. Qed.

Lemma split_apiPath t segs :
  Forall noSlash segs ->
  Js.split "/" (apiPath t segs) = "" :: "api" :: resourceName t :: segs.
Proof.
  intros H. unfold apiPath. apply split_joinWith; [done|].
  repeat (constructor; [done || apply resourceName_noSlash|]). exact H.
Qed.

(** The API paths reach the handler of their resource. *)
Lemma fetch_api t m segs b w :
  m <> "OPTIONS" -> Forall noSlash segs ->
  Http.fetch (Http.mkRequest m (apiPath t segs) b) w
  = Http.handle (storeOf t) (Http.mkRequest m (apiPath t segs) b)
      ("" :: "api" :: resourceName t :: segs) w.
Proof.
  intros Hm Hsegs. unfold Http.fetch. cbn [Http.method Http.pathname].
  rewrite split_apiPath by done.
  rewrite (bool_decide_eq_false_2 (m = _)) by done.
  rewrite apiPath_cons.
  rewrite !(bool_decide_eq_false_2 (String "/" _ = _))
    by (cbn [joinWith]; rewrite append_cons; discriminate).
  cbn [orb lookup list_lookup]. rewrite bool_decide_eq_true_2 by done.
  destruct t; cbn [resourceName storeOf].
  - by rewrite bool_decide_eq_true_2.
  - rewrite bool_decide_eq_false_2 by discriminate. by rewrite bool_decide_eq_true_2.
Qed.

Lemma storeOf_create t : Http.create (storeOf t) = createOf t.
Proof. by destruct t. Qed.

Lemma storeOf_update t : Http.update (storeOf t) = updateOf t.
Proof. by destruct t. Qed.

Lemma storeOf_delete t : Http.delete (storeOf t) = deleteOf t.
Proof. by destruct t. Qed.

Lemma storeOf_getById t : Http.getById (storeOf t) = getByIdOf t.
Proof. by destruct t. Qed.

Lemma storeOf_getAll t : Http.getAll (storeOf t) = getAllOf t.
Proof. by destruct t. Qed.

Lemma create_elsewhere t record seed db created db' :
  createOf t record seed db = inr (created, db') -> SameElsewhere t db db'.
Proof.
  destruct t; cbn [createOf]; intros H.
  - by apply customer_create_inv in H as (_ & -> & _).
  - by apply product_create_inv in H as (_ & -> & _).
Qed.

Lemma update_elsewhere t id updates db res db' :
  updateOf t id updates db = inr (res, db') ->
  SameElsewhere t db db' /\ (res = None -> db' = db).
Proof.
  destruct t; cbn [updateOf]; intros H.
  - destruct (customerOps.getById id db) as [current|] eqn:Hcur.
    + destruct (customer_update_inv _ _ _ _ _ _ Hcur H) as (r & _ & _ & -> & _ & ->).
      by split.
    + unfold customerOps.update in H. rewrite Hcur in H. by injection H as <- <-.
  - destruct (productOps.getById id db) as [current|] eqn:Hcur.
    + destruct (product_update_inv _ _ _ _ _ _ Hcur H) as (-> & _ & ->). by split.
    + unfold productOps.update in H. rewrite Hcur in H. by injection H as <- <-.
Qed.

Lemma delete_elsewhere t id db :
  SameElsewhere t db (deleteOf t id db).2
  /\ ((deleteOf t id db).1 = false -> (deleteOf t id db).2 = db).
Proof.
  split; [by destruct t|].
  intros H. destruct (getByIdOf t id db) as [r|] eqn:E.
  - exfalso. destruct (delete_found t id db) as [[_ Hd] _].
    rewrite Hd in H by (by eexists). discriminate.
  - by rewrite delete_missing.
Qed.

Lemma set_db_same w : set_db (db w) w = w.
Proof. by destruct w. Qed.

Ltac answered :=
  eexists; split; [reflexivity|]; cbn [fst snd Http.status Http.apiResponse foundOr404];
  split; [unfold statuses; cbn [In]; tauto|];
  split; [by repeat split|]; try (split; [done|]); try done.

Lemma handle_answers t req parts w :
  Answered (Some t) w (Http.handle (storeOf t) req parts w).
Proof.
  destruct (decide (Http.method req = "GET")) as [Hg|Hg].
  { rewrite handle_GET by done. destruct (truthyId _); [|answered].
    destruct (Http.getById _ _ _); answered. }
  destruct (decide (Http.method req = "POST")) as [Hp|Hp].
  { rewrite handle_POST by done. destruct (Http.body req) as [| |o]; try answered.
    rewrite storeOf_create.
    destruct (createOf t o (uuidSeed w) (db w)) as [e|[created db']] eqn:E; [answered|].
    destruct (create_elsewhere _ _ _ _ _ _ E) as (H1 & H2 & H3).
    eexists. split; [reflexivity|]. cbn [fst snd Http.status Http.apiResponse db].
    split; [unfold statuses; cbn [In]; tauto|]. split; [by repeat split|].
    split; [done|]. done. }
  destruct (decide (Http.method req = "PUT")) as [Hu|Hu].
  { rewrite handle_PUT by done. destruct (truthyId _); [|answered].
    destruct (Http.body req) as [| |u]; try answered.
    - destruct (Http.getById _ _ _); answered.
    - rewrite storeOf_update.
      destruct (updateOf t (parts !! 3%nat) u (db w)) as [e|[updated db']] eqn:E; [answered|].
      destruct (update_elsewhere _ _ _ _ _ _ E) as ((H1 & H2 & H3) & H4).
      eexists. split; [reflexivity|]. cbn [fst snd db].
      split; [destruct updated; unfold statuses; cbn; tauto|].
      split; [by repeat split|]. split; [done|].
      destruct updated; cbn; [done|]. intros _ _. by apply H4. }
  destruct (decide (Http.method req = "DELETE")) as [Hd|Hd].
  { rewrite handle_DELETE by done. destruct (truthyId _); [|answered].
    rewrite storeOf_delete.
    destruct (delete_elsewhere t (parts !! 3%nat) (db w)) as ((H1 & H2 & H3) & H4).
    destruct (deleteOf t (parts !! 3%nat) (db w)) as [deleted db'] eqn:E.
    cbn [fst snd] in *.
    eexists. split; [reflexivity|]. cbn [fst snd db].
    split; [destruct deleted; unfold statuses; cbn; tauto|].
    split; [by repeat split|]. split; [done|].
    destruct deleted; cbn; [done|]. intros _ _. by apply H4. }
  rewrite handle_other by done. answered.
Qed.

(** X9. [fetch] answers every request: no exception leaves it, the status
    is one of 200, 201, 400, 404, 405 and 500, the terminal session, the
    timers and the tables [orders] and [payments] are as they were, and
    the Store is changed by no answer other than a 200 or a 201. *)
Theorem fetch_always_answers (req : Http.Request) (w : World) :
  exists r w',
    Http.fetch req w = (inr r, w')
    /\ In (Http.status r) [200; 201; 400; 404; 405; 500]
    /\ SameSession w w'
    /\ (Http.status r <> 200 -> Http.status r <> 201 -> db w' = db w).
Proof.
  assert (H : exists t, Answered t w (Http.fetch req w)).
  { unfold Http.fetch.
    repeat match goal with
           | |- context [if ?b then _ else _] => destruct b
           end;
      try (exists None; unfold Answered; hsimpl; answered).
    - exists (Some Customers). apply (handle_answers Customers).
    - exists (Some Products). apply (handle_answers Products). }
  destruct H as (t & r & Hr & Hs & Hsame & _ & Hdb).
  destruct (Http.fetch req w) as [out w'] eqn:E. cbn [fst snd] in *. subst out.
  exists r, w'. done.
Qed.

(** ** Routing *)

Lemma handle_reads_fourth_part ops m p p' b parts parts' w :
  parts !! 3%nat = parts' !! 3%nat ->
  Http.handle ops (Http.mkRequest m p b) parts w
  = Http.handle ops (Http.mkRequest m p' b) parts' w.
Proof. intros H. unfold Http.handle, Http.json. cbn [Http.method Http.body]. by rewrite H. Qed.

Lemma handle_without_id ops m p p' b parts parts' w :
  truthyId (parts !! 3%nat) = false -> truthyId (parts' !! 3%nat) = false ->
  Http.handle ops (Http.mkRequest m p b) parts w
  = Http.handle ops (Http.mkRequest m p' b) parts' w.
Proof.
  intros H H'. unfold Http.handle, Http.json. cbn [Http.method Http.body].
  by rewrite H, H'.
Qed.

(** X10. Routing.  OPTIONS is answered before the path is looked at.  For
    every other method the path is split at its slashes: its second piece
    must be [api] and its third names the resource; the fourth piece is
    the identifier and further pieces are ignored, a trailing slash is the
    same as no identifier, and any other third piece is answered 404. *)
Theorem fetch_routes_by_path_pieces (m : string) (b : Http.Body) (w : World) :
  (forall path,
      Http.fetch (Http.mkRequest "OPTIONS" path b) w
      = (inr (Http.mkResponse 200 Http.corsHeaders Http.NoContent), w))
  /\ (m <> "OPTIONS" ->
      (forall t id, noSlash id ->
          Http.fetch (Http.mkRequest m (apiPath t [id]) b) w
          = Http.handle (storeOf t) (Http.mkRequest m (apiPath t [id]) b)
              [""; "api"; resourceName t; id] w)
      /\ (forall t id rest, noSlash id -> Forall noSlash rest ->
             Http.fetch (Http.mkRequest m (apiPath t (id :: rest)) b) w
             = Http.fetch (Http.mkRequest m (apiPath t [id]) b) w)
      /\ (forall t,
             Http.fetch (Http.mkRequest m (apiPath t [""]) b) w
             = Http.fetch (Http.mkRequest m (apiPath t []) b) w)
      /\ (forall other rest,
             other <> "customers" -> other <> "products" ->
             noSlash other -> Forall noSlash rest ->
             Http.fetch (Http.mkRequest m (joinWith "/" ("" :: "api" :: other :: rest)) b) w
             = (inr (Http.apiResponse (Http.ErrorMessage "Resource not found") 404), w))).
Proof.
  split; [done|]. intros Hm. split; [|split; [|split]].
  - intros t id Hid. apply fetch_api; [done|]. by constructor.
  - intros t id rest Hid Hrest.
    rewrite !fetch_api by (done || by constructor).
    by apply handle_reads_fourth_part.
  - intros t. rewrite !fetch_api by (done || by repeat constructor).
    by apply handle_without_id.
  - intros other rest H1 H2 Ho Hrest. unfold Http.fetch. cbn [Http.method Http.pathname].
    rewrite split_joinWith by (done || by repeat (constructor; [done|])).
    rewrite (bool_decide_eq_false_2 (m = _)) by done.
    change (joinWith "/" ("" :: "api" :: other :: rest))
      with (String "/" (joinWith "/" ("api" :: other :: rest))).
    rewrite !(bool_decide_eq_false_2 (String "/" _ = _))
      by (cbn [joinWith]; rewrite append_cons; discriminate).
    cbn [orb lookup list_lookup]. rewrite bool_decide_eq_true_2 by done.
    rewrite !bool_decide_eq_false_2; [done| |]; intros [= ?]; done.
Qed.

(** X11. PUT and DELETE on the collection path, with or without a
    trailing slash, are answered 400 before anything is read: whatever
    the body and the Store, and nothing is changed. *)
Theorem write_without_id_is_refused (t : Entity) (m : string) (segments : list string)
    (b : Http.Body) (w : World) :
  m = "PUT" \/ m = "DELETE" ->
  segments = [] \/ segments = [""] ->
  Http.fetch (Http.mkRequest m (apiPath t segments) b) w
  = (inr (Http.apiResponse (Http.ErrorMessage "ID required") 400), w).
Proof.
  intros Hm Hs.
  rewrite fetch_api;
    [|by destruct Hm as [-> | ->]|by destruct Hs as [-> | ->]; repeat constructor].
  destruct Hm as [-> | ->]; [rewrite handle_PUT by done|rewrite handle_DELETE by done];
    by destruct Hs as [-> | ->].
Qed.

(** [write_without_id_is_refused] at a PUT on the customers path with a
    trailing slash and a body that is not JSON. *)
Lemma write_without_id_is_refused_witness :
  Http.fetch (Http.mkRequest "PUT" (apiPath Customers [""]) Http.NotJson) Sample.fresh
  = (inr (Http.apiResponse (Http.ErrorMessage "ID required") 400), Sample.fresh).
Proof.
  apply (write_without_id_is_refused Customers "PUT" [""] Http.NotJson Sample.fresh).
  - left. reflexivity.
  - right. reflexivity.
Defined.

Lemma truthyId_Some id : id <> "" -> truthyId (Some id) = true.
Proof. intros H. unfold truthyId. by rewrite bool_decide_eq_false_2. Qed.

(** Requests for an identifier that the table does not hold. *)
Lemma fetch_unknown_id (t : Entity) (id : string) (w : World) :
  id <> "" -> noSlash id ->
  getByIdOf t (Some id) (db w) = None ->
  let notFound := Http.apiResponse (Http.ErrorMessage (Http.notFound (storeOf t))) 404 in
  (forall b, Http.fetch (Http.mkRequest "GET" (apiPath t [id]) b) w = (inr notFound, w))
  /\ (forall b, Http.fetch (Http.mkRequest "DELETE" (apiPath t [id]) b) w = (inr notFound, w))
  /\ (forall b, b <> Http.NotJson ->
         Http.fetch (Http.mkRequest "PUT" (apiPath t [id]) b) w = (inr notFound, w))
  /\ Http.fetch (Http.mkRequest "PUT" (apiPath t [id]) Http.NotJson) w
     = (inr (Http.apiResponse (Http.ErrorMessage "Internal server error") 500), w).
Proof.
  intros Hne Hid Hgone notFound. pose proof (truthyId_Some id Hne) as Ht.
  split; [|split; [|split]]; intros; rewrite fetch_api by (done || by constructor).
  - rewrite handle_GET by done. cbn [lookup list_lookup]. rewrite Ht.
    by rewrite storeOf_getById, Hgone.
  - rewrite handle_DELETE by done. cbn [lookup list_lookup]. rewrite Ht.
    rewrite storeOf_delete, delete_missing by done. by rewrite set_db_same.
  - rewrite handle_PUT by done. cbn [lookup list_lookup]. rewrite Ht.
    cbn [Http.body]. destruct b as [| |u]; [done| |].
    + by rewrite storeOf_getById, Hgone.
    + rewrite storeOf_update, update_missing by done. by rewrite set_db_same.
  - rewrite handle_PUT by done. cbn [lookup list_lookup]. by rewrite Ht.
Qed.

(** X12. A request for an identifier under which the table holds nothing
    is answered 404 with the resource's "not found" message, by GET, by
    DELETE and by PUT with a body that is JSON, and leaves the world as it
    was; PUT with a body that is not JSON is answered 500 instead. *)
Theorem unknown_id_is_answered_404 (t : Entity) (id : string) (w : World) :
  id <> "" -> noSlash id ->
  getByIdOf t (Some id) (db w) = None ->
  let notFound := Http.apiResponse (Http.ErrorMessage (Http.notFound (storeOf t))) 404 in
  (forall b, Http.fetch (Http.mkRequest "GET" (apiPath t [id]) b) w = (inr notFound, w))
  /\ (forall b, Http.fetch (Http.mkRequest "DELETE" (apiPath t [id]) b) w = (inr notFound, w))
  /\ (forall b, b <> Http.NotJson ->
         Http.fetch (Http.mkRequest "PUT" (apiPath t [id]) b) w = (inr notFound, w))
  /\ Http.fetch (Http.mkRequest "PUT" (apiPath t [id]) Http.NotJson) w
     = (inr (Http.apiResponse (Http.ErrorMessage "Internal server error") 500), w).
Proof. apply fetch_unknown_id. Qed.

(** [unknown_id_is_answered_404] at a product identifier that the sample
    Store does not hold. *)
Lemma unknown_id_is_answered_404_witness :
  let notFound :=
    Http.apiResponse (Http.ErrorMessage (Http.notFound (storeOf Products))) 404 in
  (forall b, Http.fetch (Http.mkRequest "GET" (apiPath Products ["p9"]) b) Sample.fresh
             = (inr notFound, Sample.fresh))
  /\ (forall b, Http.fetch (Http.mkRequest "DELETE" (apiPath Products ["p9"]) b) Sample.fresh
                = (inr notFound, Sample.fresh))
  /\ (forall b, b <> Http.NotJson ->
         Http.fetch (Http.mkRequest "PUT" (apiPath Products ["p9"]) b) Sample.fresh
         = (inr notFound, Sample.fresh))
  /\ Http.fetch (Http.mkRequest "PUT" (apiPath Products ["p9"]) Http.NotJson) Sample.fresh
     = (inr (Http.apiResponse (Http.ErrorMessage "Internal server error") 500), Sample.fresh).
Proof.
  apply (unknown_id_is_answered_404 Products "p9" Sample.fresh).
  - discriminate.
  - vm_compute. reflexivity.
  - vm_compute. reflexivity.
Defined.

(** ** Requests in sequence *)

Lemma digits_noSlash ds : isDigits ds -> noSlash (digitString ds).
Proof.
  unfold noSlash. induction 1 as [|d ds Hd _ IH]; [done|].
  cbn [digitString Js.includes Js.startsWith]. rewrite IH.
  each_digit Hd; reflexivity.
Qed.

Lemma uuidOf_noSlash n : noSlash (uuidOf n).
Proof.
  unfold uuidOf. rewrite decimal_digits.
  pose proof (digits_noSlash _ (digitsOf_isDigits n)) as H. unfold noSlash in *.
  rewrite !append_cons, append_empty. cbn [Js.includes Js.startsWith].
  by rewrite H.
Qed.

Lemma uuidOf_nonempty n : uuidOf n <> "".
Proof. unfold uuidOf. by rewrite append_cons. Qed.

(** X13. For an object whose cells SQLite keeps as they are bound - text
    or NULL in the TEXT columns; a number other than NaN, the empty string
    or NULL in the numeric ones - a POST that is answered 201 carries the
    object with the generated [id]; a GET of that identifier then answers
    200 with the stored row, which holds that [id] and every column as it
    was bound, and the GET of the collection lists it last. *)
Theorem post_then_get (t : Entity) (record : Obj) (w : World)
    (r : Http.Response) (w' : World) :
  keptAsBound t record = true ->
  Http.fetch (Http.mkRequest "POST" (apiPath t []) (Http.JsonObject record)) w
  = (inr r, w') ->
  Http.status r = 201 ->
  let id := uuidOf (uuidSeed w) in
  r = Http.apiResponse (Http.Row (record ∪ {["id" := VStr id]})) 201
  /\ exists row,
       row !! "id" = Some (VStr id)
       /\ (forall c, In c (columnsOf t) -> row !! c = Some (bind (record !! c)))
       /\ (forall b, Http.fetch (Http.mkRequest "GET" (apiPath t [id]) b) w'
                     = (inr (Http.apiResponse (Http.Row row) 200), w'))
       /\ (forall b, Http.fetch (Http.mkRequest "GET" (apiPath t []) b) w'
                     = (inr (Http.apiResponse (Http.Rows (getAllOf t (db w) ++ [row])) 200),
                        w')).
Proof.
  intros _ Hpost H201 id. subst id.
  rewrite fetch_api in Hpost by (done || constructor).
  rewrite handle_POST in Hpost by done. cbn [Http.body] in Hpost.
  rewrite storeOf_create in Hpost.
  destruct (createOf t record (uuidSeed w) (db w)) as [e|[created db']] eqn:Hc;
    injection Hpost as <- <-; [discriminate|].
  destruct (create_found _ _ _ _ _ _ Hc) as (row & Hget & Hid & Hcols & Hall & _).
  rewrite (create_returns_body t _ _ _ _ _ Hc).
  split; [done|]. exists row. split; [done|]. split; [done|]. split.
  - intros b. rewrite fetch_api by (done || (constructor; [apply uuidOf_noSlash|constructor])).
    rewrite handle_GET by done. cbn [lookup list_lookup].
    rewrite truthyId_Some by apply uuidOf_nonempty.
    rewrite storeOf_getById. cbn [db set_db set_uuidSeed]. by rewrite Hget.
  - intros b. rewrite fetch_api by (done || constructor).
    rewrite handle_GET by done. cbn [lookup list_lookup truthyId].
    rewrite storeOf_getAll. cbn [db set_db set_uuidSeed]. by rewrite Hall.
Qed.

(** [post_then_get] at the POST of a new customer to a fresh session. *)
Lemma post_then_get_witness :
  let id := uuidOf (uuidSeed Sample.fresh) in
  Posted.response = Http.apiResponse (Http.Row (Fixture.cem ∪ {["id" := VStr id]})) 201
  /\ exists row,
       row !! "id" = Some (VStr id)
       /\ (forall c, In c (columnsOf Customers) -> row !! c = Some (bind (Fixture.cem !! c)))
       /\ (forall b, Http.fetch (Http.mkRequest "GET" (apiPath Customers [id]) b) Posted.world
                     = (inr (Http.apiResponse (Http.Row row) 200), Posted.world))
       /\ (forall b, Http.fetch (Http.mkRequest "GET" (apiPath Customers []) b) Posted.world
                     = (inr (Http.apiResponse
                               (Http.Rows (getAllOf Customers (db Sample.fresh) ++ [row])) 200),
                        Posted.world)).
Proof.
  apply (post_then_get Customers Fixture.cem Sample.fresh Posted.response Posted.world).
  - vm_compute. reflexivity.
  - vm_cast_no_check (@eq_refl _ (Http.fetch Posted.request Sample.fresh)).
  - vm_compute. reflexivity.
Defined.

(** X14. A DELETE of a record that exists is answered 200; afterwards a
    GET and a second DELETE of the same identifier are answered 404, and
    the records under the other identifiers are found as before. *)
Theorem delete_then_get (t : Entity) (id : string) (w : World) :
  id <> "" -> noSlash id ->
  is_Some (getByIdOf t (Some id) (db w)) ->
  let notFound := Http.apiResponse (Http.ErrorMessage (Http.notFound (storeOf t))) 404 in
  exists w',
    (forall b, Http.fetch (Http.mkRequest "DELETE" (apiPath t [id]) b) w
               = (inr (Http.apiResponse Http.Success 200), w'))
    /\ (forall b, Http.fetch (Http.mkRequest "GET" (apiPath t [id]) b) w' = (inr notFound, w'))
    /\ (forall b, Http.fetch (Http.mkRequest "DELETE" (apiPath t [id]) b) w'
                  = (inr notFound, w'))
    /\ (forall id', id' <> id ->
           getByIdOf t (Some id') (db w') = getByIdOf t (Some id') (db w)).
Proof.
  intros Hne Hid Hsome notFound.
  destruct (delete_found t (Some id) (db w)) as (Hflag & Hgone & Hothers & _).
  apply Hflag in Hsome.
  exists (set_db (deleteOf t (Some id) (db w)).2 w).
  destruct (fetch_unknown_id t id (set_db (deleteOf t (Some id) (db w)).2 w) Hne Hid Hgone)
    as (Hget & Hdel & _).
  split; [|split; [exact Hget|split; [exact Hdel|]]].
  - intros b. rewrite fetch_api by (done || by constructor).
    rewrite handle_DELETE by done. cbn [lookup list_lookup].
    rewrite truthyId_Some by done. rewrite storeOf_delete.
    destruct (deleteOf t (Some id) (db w)) as [deleted db'']. cbn [fst snd] in *.
    by subst deleted.
  - intros id' Hne'. cbn [db set_db]. apply Hothers. by intros [= ->].
Qed.

(** [delete_then_get] at the first customer of the sample Store. *)
Lemma delete_then_get_witness :
  let notFound :=
    Http.apiResponse (Http.ErrorMessage (Http.notFound (storeOf Customers))) 404 in
  exists w',
    (forall b, Http.fetch (Http.mkRequest "DELETE" (apiPath Customers ["c1"]) b) Sample.fresh
               = (inr (Http.apiResponse Http.Success 200), w'))
    /\ (forall b, Http.fetch (Http.mkRequest "GET" (apiPath Customers ["c1"]) b) w'
                  = (inr notFound, w'))
    /\ (forall b, Http.fetch (Http.mkRequest "DELETE" (apiPath Customers ["c1"]) b) w'
                  = (inr notFound, w'))
    /\ (forall id', id' <> "c1" ->
           getByIdOf Customers (Some id') (db w')
           = getByIdOf Customers (Some id') (db Sample.fresh)).
Proof.
  apply (delete_then_get Customers "c1" Sample.fresh).
  - discriminate.
  - vm_compute. reflexivity.
  - exists Sample.ada. vm_cast_no_check (@eq_refl _ (Some Sample.ada)).
Defined.

(** ** The session invariant *)

Lemma key_writes_at_gate k w :
  db (handleKeyPress k w) = db w \/ (Key.isEnter k = true /\ Confirming w).
Proof.
  unfold Confirming.
  destruct w as [s d u c ts l st]; destruct s as [v sel flt srch fd fs eid buf ci pv ca cm].
  wsimpl.
  crush_handlers.
  all: try (left; reflexivity).
  all: right.
  all: repeat match goal with
         | H : bool_decide _ = true |- _ => apply bool_decide_eq_true in H
         end.
  all: subst; try done.
Qed.

Lemma at_index_in_range {A} (l : list A) (i : Z) :
  0 <= i <= Z.max 0 (Z.of_nat (length l) - 1) -> (0 < length l)%nat ->
  at_index l i <> None.
Proof.
  intros Hi Hl. unfold at_index.
  destruct (Z.ltb_spec i 0); [lia|]. intros Hn. apply lookup_ge_None in Hn. lia.
Qed.

Lemma customer_steps : length customerFormSteps = 7%nat.
Proof. reflexivity. Qed.

Lemma product_steps : length productFormSteps = 8%nat.
Proof. reflexivity. Qed.

Lemma stepsOf_customer : stepsOf CustomerForm = customerFormSteps.
Proof. reflexivity. Qed.

Lemma stepsOf_product : stepsOf ProductForm = productFormSteps.
Proof. reflexivity. Qed.

(** The unfolding of [handleKeyPress] once the view is known. *)
Ltac open_handlers :=
  unfold handleKeyPress, dispatch, handleEscape; cbv zeta; wsimpl;
  cbn [endsWithForm endsWithList]; rewrite ?andb_false_r; decide_eqs; cbn [andb orb];
  crush_handlers.

Ltac unpack_tests :=
  repeat match goal with
    | H : bool_decide _ = true |- _ => apply bool_decide_eq_true in H
    | H : bool_decide _ = false |- _ => apply bool_decide_eq_false in H
    | H : (_ <? _)%nat = true |- _ => apply Nat.ltb_lt in H
    | H : (_ <? _)%nat = false |- _ => apply Nat.ltb_ge in H
    | H : _ && _ = true |- _ => apply andb_true_iff in H as [? ?]
    end.

Ltac count_steps :=
  rewrite ?stepsOf_customer, ?stepsOf_product, ?customer_steps, ?product_steps in *.

Ltac decide_eqs_in_hyps :=
  repeat match goal with
    | H : context [bool_decide (?a = ?a)] |- _ =>
        rewrite (bool_decide_eq_true_2 (a = a) eq_refl) in H
    | H : context [bool_decide (?a = ?b)] |- _ =>
        rewrite (bool_decide_eq_false_2 (a = b)) in H by discriminate
    end.

Ltac finish_sound :=
  unfold getAll in *; wsimpl; decide_eqs; decide_eqs_in_hyps; unpack_tests; count_steps;
  first
    [ split; [first [done | lia | solve [eauto 6]] | done]
    | exfalso;
      match goal with
      | H : at_index ?l ?i = None |- _ => by apply (at_index_in_range l i)
      | H : ?l !! ?i = None |- _ => apply lookup_ge_None in H; count_steps; lia
      end ].

Lemma sound_main k w :
  status w = Running -> currentView (tui w) = Main ->
  Sound (handleKeyPress k w) /\ status (handleKeyPress k w) <> Crashed.
Proof.
  unfold Sound, inRange, filteredCount.
  destruct w as [s d u c ts l st]; destruct s as [v sel flt srch fd fs eid buf ci pv ca cm].
  wsimpl. intros -> ->.
  open_handlers. all: finish_sound.
Qed.

Lemma sound_list k w :
  status w = Running -> endsWithList (currentView (tui w)) = true -> Sound w ->
  Sound (handleKeyPress k w) /\ status (handleKeyPress k w) <> Crashed.
Proof.
  unfold Sound, inRange, filteredCount.
  destruct w as [s d u c ts l st]; destruct s as [v sel flt srch fd fs eid buf ci pv ca cm].
  wsimpl. intros -> Hv Hs.
  destruct v; try discriminate; clear Hv.
  - assert (Hs' : 0 <= sel <= Z.max 0 (Z.of_nat (length
              (filterRecords (customerOps.getAll d) flt true)) - 1)) by exact Hs.
    clear Hs. open_handlers. all: finish_sound.
  - assert (Hs' : 0 <= sel <= Z.max 0 (Z.of_nat (length
              (filterRecords (productOps.getAll d) flt false)) - 1)) by exact Hs.
    clear Hs. open_handlers. all: finish_sound.
Qed.

Lemma sound_form k w :
  status w = Running -> endsWithForm (currentView (tui w)) = true -> Sound w ->
  Sound (handleKeyPress k w) /\ status (handleKeyPress k w) <> Crashed.
Proof.
  unfold Sound, inRange, filteredCount.
  destruct w as [s d u c ts l st]; destruct s as [v sel flt srch fd fs eid buf ci pv ca cm].
  wsimpl. intros -> Hv Hs.
  destruct v; try discriminate; clear Hv; count_steps.
  - open_handlers. all: finish_sound.
  - open_handlers. all: finish_sound.
Qed.

Lemma sound_execute a w :
  currentView (tui w) = ConfirmAction -> confirmAction (tui w) = Some a ->
  status w = Running -> Sound w ->
  Sound (execute a w) /\ status (execute a w) <> Crashed.
Proof.
  intros Hv Ha Hrun Hs. unfold Sound in Hs. rewrite Hv in Hs.
  destruct Hs as (f & Hpv & Hf & Hfs).
  destruct (execute_shows_message w a f Ha Hpv Hf) as (_ & _ & Hv' & _ & _ & Hpv' & Hfs' & Hst & _).
  split; [|congruence]. unfold Sound. rewrite Hv', Hv. exists f. by rewrite Hfs'.
Qed.

Lemma sound_confirm k w :
  status w = Running -> currentView (tui w) = ConfirmAction -> Sound w ->
  Sound (handleKeyPress k w) /\ status (handleKeyPress k w) <> Crashed.
Proof.
  intros Hrun Hv Hs.
  pose proof (fun a => sound_execute a w Hv) as Hexec.
  unfold execute in Hexec.
  pose proof (Hexec Save) as Hsave. pose proof (Hexec Delete) as Hdelete. clear Hexec.
  cbv beta iota in Hsave, Hdelete.
  specialize (fun H => Hsave H Hrun Hs). specialize (fun H => Hdelete H Hrun Hs).
  set (saved := executeFormSave w) in *. set (deleted := executeFormDelete w) in *.
  unfold handleKeyPress, dispatch, handleEscape, handleConfirmation. cbv zeta.
  rewrite Hv. cbn [endsWithForm endsWithList]. rewrite ?andb_false_r. decide_eqs. cbn [andb].
  fold saved deleted.
  clearbody saved deleted.
  unfold Sound in Hs. rewrite Hv in Hs. destruct Hs as (f & Hpv & Hf & Hfs).
  destruct w as [s d u c ts l st]; destruct s as [v sel flt srch fd fs eid buf ci pv ca cm].
  wsimpl. subst.
  destruct f; try discriminate; clear Hf; count_steps.
  - unfold returnToForm, reopenForm, isCustomerForm, isProductForm, stepAt, seedBuffer,
      redrawConfirmation, processExit, cleanup;
      cbv zeta; wsimpl; decide_eqs; count_steps.
    repeat (split_branch; wsimpl).
    all: first [ by apply Hsave | by apply Hdelete
               | unfold Sound, inRange, filteredCount; finish_sound ].
  - unfold returnToForm, reopenForm, isCustomerForm, isProductForm, stepAt, seedBuffer,
      redrawConfirmation, processExit, cleanup;
      cbv zeta; wsimpl; decide_eqs; count_steps.
    repeat (split_branch; wsimpl).
    all: first [ by apply Hsave | by apply Hdelete
               | unfold Sound, inRange, filteredCount; finish_sound ].
Qed.

Lemma sound_key k w :
  status w = Running -> Sound w ->
  Sound (handleKeyPress k w) /\ status (handleKeyPress k w) <> Crashed.
Proof.
  intros Hrun Hs. destruct (currentView (tui w)) eqn:Hv.
  - by apply sound_main.
  - apply sound_list; [done|by rewrite Hv|done].
  - apply sound_list; [done|by rewrite Hv|done].
  - apply sound_form; [done|by rewrite Hv|done].
  - apply sound_form; [done|by rewrite Hv|done].
  - by apply sound_confirm.
Qed.

Lemma sound_callback cb w :
  Sound (runCallback cb w) /\ status (runCallback cb w) = status w.
Proof.
  unfold Sound, inRange, filteredCount.
  destruct w as [s d u c ts l st]; destruct s as [v sel flt srch fd fs eid buf ci pv ca cm].
  destruct cb; unfold runCallback, messageReturn, statsReturn, drawFreshList, enterList;
    cbv zeta; wsimpl; [|done].
  destruct (bool_decide (pv = Some CustomerForm)); wsimpl; split; (done || lia).
Qed.

Lemma sound_fireDue fuel : forall w,
  status w <> Crashed -> Sound w ->
  Sound (fireDue fuel w) /\ status (fireDue fuel w) <> Crashed.
Proof.
  induction fuel as [|fuel IH]; intros w Hst Hs; [done|].
  cbn [fireDue]. destruct (earliest (timers w)) as [t|]; [|done].
  destruct (_ && _); [|done].
  set (w1 := emit (Fired (callback t)) (set_timers (removeFirst t (timers w)) w)).
  destruct (sound_callback (callback t) w1) as [H1 H2].
  apply IH; [|done]. rewrite H2. by destruct w.
Qed.

Lemma sound_deliver ev w :
  status w <> Crashed -> Sound w ->
  Sound (deliver ev w) /\ status (deliver ev w) <> Crashed.
Proof.
  intros Hst Hs. unfold deliver. case_bool_decide as Hrun; [|done].
  destruct ev as [k|ms].
  - by apply sound_key.
  - apply sound_fireDue; [by destruct w|].
    unfold Sound, inRange, filteredCount in *. by destruct w.
Qed.

Lemma sound_run evs : forall w,
  status w <> Crashed -> Sound w ->
  Sound (run evs w) /\ status (run evs w) <> Crashed.
Proof.
  induction evs as [|ev evs IH]; intros w Hst Hs; [done|].
  change (run (ev :: evs) w) with (run evs (deliver ev w)).
  destruct (sound_deliver ev w Hst Hs). by apply IH.
Qed.

(** X15. From the start of the terminal, after any sequence of keys and
    of elapsed times, [formStep] names a step of the form on the screen
    (or of the form the confirmation came from) and [selectedIndex] lies
    within the filtered list; so [steps[formStep]] and
    [filteredRecords[selectedIndex]] are always there, and the reads of
    their [field] and [id] in the handlers never end the process.  What
    a draw function may throw while it formats a row is not part of the
    model. *)
Theorem cursor_and_step_stay_in_range (d : Db) (evs : list Event) :
  let w := run evs (startRawTui d) in
  Sound w /\ status w <> Crashed.
Proof. by apply sound_run. Qed.

(** ** Where the terminal writes the Store *)

Lemma callback_db cb w : db (runCallback cb w) = db w.
Proof. by destruct cb. Qed.

Lemma fireDue_db fuel : forall w, db (fireDue fuel w) = db w.
Proof.
  induction fuel as [|fuel IH]; intros w; [done|].
  cbn [fireDue]. destruct (earliest (timers w)) as [t|]; [|done].
  destruct (_ && _); [|done]. by rewrite IH, callback_db.
Qed.

(** X16. The terminal writes the Store at one place only: an event that
    changes the Store is an Enter received in the confirmation view with
    the choice on "yes" and an action pending.  No other key, in no view,
    and no timer changes it. *)
Theorem store_written_only_at_the_gate (ev : Event) (w : World) :
  db (deliver ev w) <> db w ->
  exists enter, ev = KeyData enter /\ Key.isEnter enter = true /\ Confirming w.
Proof.
  intros Hdb. unfold deliver in Hdb. case_bool_decide; [|done].
  destruct ev as [k|ms].
  - destruct (key_writes_at_gate k w) as [H'|[He Hc]]; [done|]. by exists k.
  - rewrite fireDue_db in Hdb. by destruct w.
Qed.

(** [store_written_only_at_the_gate] at Enter on the gate that saves the
    new customer. *)
Lemma store_written_only_at_the_gate_witness :
  exists enter,
    KeyData Key.cr = KeyData enter /\ Key.isEnter enter = true
    /\ Confirming Gate.savingAda.
Proof.
  apply (store_written_only_at_the_gate (KeyData Key.cr) Gate.savingAda).
  intros H. apply (f_equal (fun d => length (customers d))) in H.
  vm_compute in H. discriminate H.
Defined.

(** ** The main menu *)

Lemma menu_arrow k w :
  status w = Running -> currentView (tui w) = Main ->
  0 <= selectedIndex (tui w) <= 3 ->
  k = Key.up \/ k = Key.down ->
  let w' := deliver (KeyData k) w in
  status w' = Running /\ currentView (tui w') = Main
  /\ 0 <= selectedIndex (tui w') <= 3 /\ db w' = db w
  /\ selectedIndex (tui w')
     = (if bool_decide (k = Key.up) then Z.max 0 (selectedIndex (tui w) - 1)
        else Z.min 3 (selectedIndex (tui w) + 1)).
Proof.
  intros Hrun Hv Hsel Hk. cbv zeta. rewrite deliver_key by done.
  destruct w as [s d u c ts l st]; destruct s as [v sel flt srch fd fs eid buf ci pv ca cm].
  wsimpl. subst.
  destruct Hk as [-> | ->]; unfold handleKeyPress, dispatch, handleMainMenu;
    cbv zeta; wsimpl; decide_keys; wsimpl; repeat split; try done; lia.
Qed.

(** X17. In the main menu the cursor stays on the four entries under any
    sequence of Up and Down keys, which change nothing else; Enter then
    acts on the entry under the cursor: the customer list, the product
    list, the statistics with their return scheduled three seconds ahead,
    or the end of the process. *)
Theorem menu_cursor_and_choice (w : World) (ks : list string) (enter : string) :
  status w = Running ->
  currentView (tui w) = Main ->
  0 <= selectedIndex (tui w) <= 3 ->
  Forall (fun k => k = Key.up \/ k = Key.down) ks ->
  Key.isEnter enter = true ->
  let w1 := run (keys ks) w in
  let w2 := deliver (KeyData enter) w1 in
  (status w1 = Running /\ currentView (tui w1) = Main
   /\ 0 <= selectedIndex (tui w1) <= 3 /\ db w1 = db w)
  /\ db w2 = db w
  /\ match selectedIndex (tui w1) with
     | 0 => tui w2 = enterList true (tui w1)
     | 1 => tui w2 = enterList false (tui w1)
     | 2 => tui w2 = tui w1
            /\ timers w2 = timers w1 ++ [mkTimer (clock w1 + 3000) StatsReturn]
     | _ => status w2 = Exited
     end.
Proof.
  intros Hrun Hv Hsel Hks He. cbv zeta.
  assert (H1 : status (run (keys ks) w) = Running /\ currentView (tui (run (keys ks) w)) = Main
               /\ 0 <= selectedIndex (tui (run (keys ks) w)) <= 3
               /\ db (run (keys ks) w) = db w).
  { revert w Hrun Hv Hsel. induction Hks as [|k ks Hk _ IH]; intros w Hrun Hv Hsel; [done|].
    change (run (keys (k :: ks)) w) with (run (keys ks) (deliver (KeyData k) w)).
    destruct (menu_arrow k w Hrun Hv Hsel Hk) as (A & B & C & D & _).
    destruct (IH _ A B C) as (A' & B' & C' & D').
    split; [done|]. split; [done|]. split; [done|]. congruence. }
  split; [exact H1|].
  destruct H1 as (A & B & C & D). set (w1 := run (keys ks) w) in *. clearbody w1.
  rewrite deliver_key by done. rewrite <- D.
  destruct w1 as [s d u c ts l st]; destruct s as [v sel flt srch fd fs eid buf ci pv ca cm].
  wsimpl. subst.
  destruct (isEnter_cases _ He) as [-> | ->];
    unfold handleKeyPress, dispatch, handleMainMenu; cbv zeta; wsimpl; decide_keys; wsimpl;
    (destruct sel as [|[[|[]|]|[]|]|]; try lia; done).
Qed.

(** [menu_cursor_and_choice] at Down, Down, Up and Enter in a fresh
    session. *)
Lemma menu_cursor_and_choice_witness :
  let w := Sample.fresh in
  let w1 := run (keys [Key.down; Key.down; Key.up]) w in
  let w2 := deliver (KeyData Key.cr) w1 in
  (status w1 = Running /\ currentView (tui w1) = Main
   /\ 0 <= selectedIndex (tui w1) <= 3 /\ db w1 = db w)
  /\ db w2 = db w
  /\ match selectedIndex (tui w1) with
     | 0 => tui w2 = enterList true (tui w1)
     | 1 => tui w2 = enterList false (tui w1)
     | 2 => tui w2 = tui w1
            /\ timers w2 = timers w1 ++ [mkTimer (clock w1 + 3000) StatsReturn]
     | _ => status w2 = Exited
     end.
Proof.
  apply (menu_cursor_and_choice Sample.fresh [Key.down; Key.down; Key.up] Key.cr).
  - vm_compute. reflexivity.
  - vm_compute. reflexivity.
  - vm_compute. split; discriminate.
  - repeat first [ apply Forall_nil_2
                 | apply Forall_cons_2; [first [left; reflexivity | right; reflexivity]|] ].
  - vm_compute. reflexivity.
Defined.

(** ** Searching a list *)

Lemma typable_key c :
  typable c = true ->
  let k := String c "" in
  Key.isPrintable k = true /\ Key.isBackspace k = false /\ Key.isEnter k = false
  /\ k <> Key.ctrlC /\ k <> Key.ctrlS /\ k <> Key.ctrlD /\ k <> Key.ctrlN
  /\ k <> Key.esc /\ k <> Key.up /\ k <> Key.down /\ k <> Key.left /\ k <> Key.right
  /\ k <> Key.tab.
Proof.
  unfold typable. intros H. apply andb_true_iff in H as [H1 H2]. cbv zeta.
  split; [exact H1|].
  split.
  { unfold Key.isBackspace. rewrite !bool_decide_eq_false_2; [done| |];
      intros [= ->]; by vm_compute in H1, H2. }
  split.
  { unfold Key.isEnter. rewrite !bool_decide_eq_false_2; [done| |];
      intros [= ->]; by vm_compute in H1. }
  repeat split; intros [= ->]; by vm_compute in H1.
Qed.

(** A typable key, in any view, goes to the handler of the view. *)
Lemma typable_dispatch c w :
  typable c = true ->
  handleKeyPress (String c "") w = uncaught (dispatch (String c "") w).
Proof.
  intros H. destruct (typable_key c H) as (_ & _ & _ & H1 & H2 & H3 & H4 & H5 & _).
  unfold handleKeyPress. cbv zeta.
  by rewrite !(bool_decide_eq_false_2 (String c "" = _)) by done.
Qed.

Lemma search_first_key c w :
  status w = Running -> inListView w = true -> isSearching (tui w) = false ->
  typable c = true ->
  Searching (currentView (tui w)) (db w) (String c "") (deliver (KeyData (String c "")) w).
Proof.
  intros Hrun Hv Hs Hc. rewrite deliver_key, typable_dispatch by done.
  destruct (typable_key c Hc) as (Hp & _ & He & _ & _ & _ & _ & _ & Hu & Hd & _).
  unfold Searching, inListView in *.
  destruct w as [s d u c0 ts l st]; destruct s as [v sel flt srch fd fs eid buf ci pv ca cm].
  wsimpl. subst.
  unfold dispatch. wsimpl.
  destruct v; try discriminate; unfold handleListView; cbv zeta; wsimpl;
    cbv zeta in He, Hp; rewrite He, Hp;
    rewrite (bool_decide_eq_false_2 (String c "" = Key.up)) by done;
    rewrite (bool_decide_eq_false_2 (String c "" = Key.down)) by done;
    by wsimpl.
Qed.

Lemma search_next_key v d text c w :
  Searching v d text w -> typable c = true ->
  Searching v d (text +:+ String c "") (deliver (KeyData (String c "")) w).
Proof.
  intros (Hrun & Hv & Hl & Hs & Hb & Hf & Hi & Hd) Hc.
  rewrite deliver_key, typable_dispatch by done.
  destruct (typable_key c Hc) as (Hp & Hbs & He & _).
  unfold Searching.
  destruct w as [s d0 u c0 ts l st]; destruct s as [v0 sel flt srch fd fs eid buf ci pv ca cm].
  wsimpl. subst v0 srch buf flt sel d0 st.
  unfold dispatch. wsimpl.
  destruct v; try discriminate; unfold handleListView; cbv zeta; wsimpl;
    cbv zeta in He, Hbs, Hp; rewrite He, Hbs, Hp; by wsimpl.
Qed.

Lemma search_typed v d rest : forall text w,
  Searching v d text w -> allTypable rest = true ->
  Searching v d (text +:+ rest) (run (keys (typed rest)) w).
Proof.
  induction rest as [|c rest IH]; intros text w Hs Hall.
  - by rewrite append_nil_r.
  - cbn [allTypable] in Hall. apply andb_true_iff in Hall as [Hc Hall].
    change (run (keys (typed (String c rest))) w)
      with (run (keys (typed rest)) (deliver (KeyData (String c "")) w)).
    replace (text +:+ String c rest) with ((text +:+ String c "") +:+ rest).
    + apply IH; [|done]. by apply search_next_key.
    + clear. induction text as [|a text IH]; [done|]. by rewrite !append_cons, IH.
Qed.

(** X18. Typing in a list view searches it: after the characters of a
    text, the list is in search mode with the text in the buffer and in
    the filter and the cursor on the first row, and the Store is as it
    was.  Enter then keeps the filter and leaves search mode with an empty
    buffer; Backspace drops the last character of buffer and filter;
    Escape clears both and leaves search mode. *)
Theorem typing_searches_the_list (w : World) (c : ascii) (rest : string) :
  status w = Running -> inListView w = true -> isSearching (tui w) = false ->
  typable c = true -> allTypable rest = true ->
  let text := String c rest in
  let v := currentView (tui w) in
  let w1 := run (keys (typed text)) w in
  Searching v (db w) text w1
  /\ (forall enter, Key.isEnter enter = true ->
        let w2 := deliver (KeyData enter) w1 in
        isSearching (tui w2) = false /\ searchFilter (tui w2) = text
        /\ inputBuffer (tui w2) = "" /\ selectedIndex (tui w2) = 0
        /\ currentView (tui w2) = v /\ db w2 = db w)
  /\ Searching v (db w) (Js.dropLast text) (deliver (KeyData Key.del) w1)
  /\ (let w4 := deliver (KeyData Key.esc) w1 in
      isSearching (tui w4) = false /\ searchFilter (tui w4) = ""
      /\ inputBuffer (tui w4) = "" /\ currentView (tui w4) = v /\ db w4 = db w).
Proof.
  intros Hrun Hv Hs Hc Hrest text v w1.
  assert (H1 : Searching v (db w) text w1).
  { subst w1 text.
    change (run (keys (typed (String c rest))) w)
      with (run (keys (typed rest)) (deliver (KeyData (String c "")) w)).
    change (String c rest) with (String c "" +:+ rest).
    apply search_typed; [|done]. by apply search_first_key. }
  split; [exact H1|].
  destruct H1 as (Hrun1 & Hv1 & Hl & Hs1 & Hb & Hf & Hi & Hd).
  clearbody w1 v. subst text.
  destruct w1 as [s d u c0 ts l st]; destruct s as [v0 sel flt srch fd fs eid buf ci pv ca cm].
  wsimpl. subst v0 srch buf flt sel st. rewrite <- Hd. clear Hd.
  split; [|split].
  - intros enter He. cbv zeta. rewrite deliver_key by done.
    destruct (isEnter_cases _ He) as [-> | ->];
      (destruct v; try discriminate; unfold handleKeyPress, dispatch, handleListView;
       cbv zeta; wsimpl; cbn [endsWithForm endsWithList]; decide_keys; by wsimpl).
  - rewrite deliver_key by done. unfold Searching.
    destruct v; try discriminate; unfold handleKeyPress, dispatch, handleListView;
      cbv zeta; wsimpl; cbn [endsWithForm endsWithList]; decide_keys;
      cbn [String.length Nat.ltb Nat.leb]; by wsimpl.
  - cbv zeta. rewrite deliver_key by done.
    destruct v; try discriminate; unfold handleKeyPress, dispatch, handleEscape, drawFreshList;
      cbv zeta; wsimpl; cbn [endsWithForm endsWithList]; decide_keys; decide_eqs; by wsimpl.
Qed.

(** [typing_searches_the_list] at the text "Ad" typed in the customer
    list. *)
Lemma typing_searches_the_list_witness :
  let w := Sample.customerList in
  let text := "Ad" in
  let v := currentView (tui w) in
  let w1 := run (keys (typed text)) w in
  Searching v (db w) text w1
  /\ (forall enter, Key.isEnter enter = true ->
        let w2 := deliver (KeyData enter) w1 in
        isSearching (tui w2) = false /\ searchFilter (tui w2) = text
        /\ inputBuffer (tui w2) = "" /\ selectedIndex (tui w2) = 0
        /\ currentView (tui w2) = v /\ db w2 = db w)
  /\ Searching v (db w) (Js.dropLast text) (deliver (KeyData Key.del) w1)
  /\ (let w4 := deliver (KeyData Key.esc) w1 in
      isSearching (tui w4) = false /\ searchFilter (tui w4) = ""
      /\ inputBuffer (tui w4) = "" /\ currentView (tui w4) = v /\ db w4 = db w).
Proof.
  apply (typing_searches_the_list Sample.customerList "A"%char "d").
  - vm_compute. reflexivity.
  - vm_compute. reflexivity.
  - vm_compute. reflexivity.
  - vm_compute. reflexivity.
  - vm_compute. reflexivity.
Defined.

Lemma backspace_in_navigation (w : World) :
  inListView w = true -> isSearching (tui w) = false ->
  exists w1, handleKeyPress Key.del w = w1
    /\ isSearching (tui w1) = true /\ searchFilter (tui w1) = Key.del
    /\ inputBuffer (tui w1) = Key.del /\ selectedIndex (tui w1) = 0
    /\ currentView (tui w1) = currentView (tui w) /\ db w1 = db w /\ status w1 = status w.
Proof.
  intros Hv Hs. unfold inListView in Hv.
  destruct w as [s d u c ts l st]; destruct s as [v sel flt srch fd fs eid buf ci pv ca cm].
  wsimpl. subst. eexists. split; [reflexivity|].
  destruct v; try discriminate;
    unfold handleKeyPress, dispatch, handleListView;
    cbv zeta; wsimpl; cbn [endsWithForm endsWithList]; decide_keys; wsimpl;
    decide_eqs; wsimpl; done.
Qed.

Lemma backspace_in_search (w : World) :
  inListView w = true -> isSearching (tui w) = true ->
  (String.length (inputBuffer (tui w)) <= 1)%nat ->
  exists w2, handleKeyPress Key.del w = w2
    /\ isSearching (tui w2) = true
    /\ (inputBuffer (tui w) <> "" -> searchFilter (tui w2) = "" /\ inputBuffer (tui w2) = "")
    /\ (inputBuffer (tui w) = "" ->
        w2 = emit (Store (GetAll (entityOf (bool_decide (currentView (tui w) = CustomerList))))) w)
    /\ currentView (tui w2) = currentView (tui w) /\ db w2 = db w /\ status w2 = status w.
Proof.
  intros Hv Hs Hlen. unfold inListView in Hv.
  destruct w as [s d u c ts l st]; destruct s as [v sel flt srch fd fs eid buf ci pv ca cm].
  wsimpl. subst. eexists. split; [reflexivity|].
  destruct buf as [|b [|b' buf]]; cbn [String.length] in Hlen; try lia;
  (destruct v; try discriminate;
    unfold handleKeyPress, dispatch, handleListView;
    cbv zeta; wsimpl; cbn [endsWithForm endsWithList]; decide_keys; wsimpl;
    decide_eqs; wsimpl; cbn [String.length Nat.ltb Nat.leb Js.dropLast]; wsimpl; done).
Qed.

(** X19. Backspace in a list that is not being searched is taken for
    text: the DEL character it sends is printable, so the list enters
    search mode with DEL as its filter; a second Backspace then empties
    buffer and filter and leaves the list in search mode, where a third
    one changes nothing. *)
Theorem backspace_starts_a_search (w : World) :
  status w = Running -> inListView w = true -> isSearching (tui w) = false ->
  let w1 := deliver (KeyData Key.del) w in
  let w2 := deliver (KeyData Key.del) w1 in
  let w3 := deliver (KeyData Key.del) w2 in
  (isSearching (tui w1) = true /\ searchFilter (tui w1) = Key.del
   /\ inputBuffer (tui w1) = Key.del /\ selectedIndex (tui w1) = 0)
  /\ (isSearching (tui w2) = true /\ searchFilter (tui w2) = ""
      /\ inputBuffer (tui w2) = "" /\ currentView (tui w2) = currentView (tui w))
  /\ tui w3 = tui w2
  /\ db w3 = db w.
Proof.
  intros Hrun Hv Hs. cbv zeta.
  rewrite (deliver_key _ w) by done.
  destruct (backspace_in_navigation w Hv Hs) as (w1 & -> & Hs1 & Hf1 & Hb1 & Hsel1 & Hv1 & Hd1 & Hst1).
  assert (Hl1 : inListView w1 = true) by (unfold inListView in *; by rewrite Hv1).
  rewrite (deliver_key _ w1) by congruence.
  destruct (backspace_in_search w1 Hl1 Hs1) as (w2 & -> & Hs2 & Hne & _ & Hv2 & Hd2 & Hst2).
  { rewrite Hb1. cbn. lia. }
  destruct Hne as [Hf2 Hb2]; [by rewrite Hb1|].
  assert (Hl2 : inListView w2 = true) by (unfold inListView in *; by rewrite Hv2).
  rewrite (deliver_key _ w2) by congruence.
  destruct (backspace_in_search w2 Hl2 Hs2) as (w3 & -> & Hs3 & _ & He & Hv3 & Hd3 & Hst3).
  { rewrite Hb2. cbn. lia. }
  rewrite (He Hb2). cbn [emit tui db].
  repeat split; try done; congruence.
Qed.

(** [backspace_starts_a_search] at the customer list. *)
Lemma backspace_starts_a_search_witness :
  let w := Sample.customerList in
  let w1 := deliver (KeyData Key.del) w in
  let w2 := deliver (KeyData Key.del) w1 in
  let w3 := deliver (KeyData Key.del) w2 in
  (isSearching (tui w1) = true /\ searchFilter (tui w1) = Key.del
   /\ inputBuffer (tui w1) = Key.del /\ selectedIndex (tui w1) = 0)
  /\ (isSearching (tui w2) = true /\ searchFilter (tui w2) = ""
      /\ inputBuffer (tui w2) = "" /\ currentView (tui w2) = currentView (tui w))
  /\ tui w3 = tui w2
  /\ db w3 = db w.
Proof.
  apply (backspace_starts_a_search Sample.customerList).
  - vm_compute. reflexivity.
  - vm_compute. reflexivity.
  - vm_compute. reflexivity.
Defined.

(** ** Opening a record *)

(** X20. Enter in a list that is not being searched opens the edit form
    of the record under the cursor - its [id] in [editingId], a copy of it
    in [formData], the first field in the buffer - and leaves the Store
    alone; with a cursor at or past the end of a list that is not empty
    (rows were deleted through the REST interface meanwhile) it ends the
    process with a TypeError. *)
Theorem enter_opens_the_record_under_the_cursor (w : World) (enter : string) :
  status w = Running ->
  inListView w = true ->
  isSearching (tui w) = false ->
  Key.isEnter enter = true ->
  (0 < filteredCount w)%nat ->
  0 <= selectedIndex (tui w) ->
  let isCustomer := bool_decide (currentView (tui w) = CustomerList) in
  let filtered := filterRecords (getAll isCustomer w) (searchFilter (tui w)) isCustomer in
  let w' := handleKeyPress enter w in
  match filtered !! Z.to_nat (selectedIndex (tui w)) with
  | Some record =>
      currentView (tui w') = (if isCustomer then CustomerForm else ProductForm)
      /\ editingId (tui w') = idOf record
      /\ formData (tui w') = record
      /\ formStep (tui w') = 0%nat
      /\ inputBuffer (tui w')
         = stringOrEmpty (record !! (if isCustomer then "CustomerName" else "ProductCode"))
      /\ db w' = db w /\ status w' = Running
  | None => status w' = Crashed
  end.
Proof.
  unfold inListView, filteredCount.
  destruct w as [s d u c ts l st]; destruct s as [v sel flt srch fd fs eid buf ci pv ca cm].
  wsimpl. intros -> Hv -> He Hn Hsel.
  destruct (isEnter_cases _ He) as [-> | ->];
    (destruct v; try discriminate; clear Hv; cbv zeta; decide_eqs;
     unfold handleKeyPress, dispatch, handleListView; cbv zeta; wsimpl;
     cbn [endsWithForm endsWithList]; decide_keys; decide_eqs; wsimpl;
     unfold getAll in *; wsimpl; decide_eqs_in_hyps;
     apply Nat.ltb_lt in Hn; rewrite Hn;
     unfold at_index; (destruct (Z.ltb_spec sel 0); [lia|]);
     destruct (_ !! Z.to_nat sel); by wsimpl).
Qed.

(** [enter_opens_the_record_under_the_cursor] at the customer list with
    the cursor on its first row. *)
Lemma enter_opens_the_record_under_the_cursor_witness :
  let w := Sample.customerList in
  let isCustomer := bool_decide (currentView (tui w) = CustomerList) in
  let filtered := filterRecords (getAll isCustomer w) (searchFilter (tui w)) isCustomer in
  let w' := handleKeyPress Key.cr w in
  match filtered !! Z.to_nat (selectedIndex (tui w)) with
  | Some record =>
      currentView (tui w') = (if isCustomer then CustomerForm else ProductForm)
      /\ editingId (tui w') = idOf record
      /\ formData (tui w') = record
      /\ formStep (tui w') = 0%nat
      /\ inputBuffer (tui w')
         = stringOrEmpty (record !! (if isCustomer then "CustomerName" else "ProductCode"))
      /\ db w' = db w /\ status w' = Running
  | None => status w' = Crashed
  end.
Proof.
  apply (enter_opens_the_record_under_the_cursor Sample.customerList Key.cr).
  - vm_compute. reflexivity.
  - vm_compute. reflexivity.
  - vm_compute. reflexivity.
  - vm_compute. reflexivity.
  - vm_compute. lia.
  - vm_compute. discriminate.
Defined.

(** ** Typing in a form *)

Lemma edit_next_key v base text c w :
  Editing v base text w -> typable c = true ->
  Editing v base (text +:+ String c "") (deliver (KeyData (String c "")) w).
Proof.
  intros (Hrun & Hv & Hl & Hb & Hfd & Hfs & Hid & Hd & Hseed & Hts & Hclock) Hc.
  rewrite deliver_key, typable_dispatch by done.
  destruct (typable_key c Hc) as (Hp & Hbs & He & _ & _ & _ & _ & _ & Hu & Hdn & _ & _ & Ht).
  unfold Editing.
  destruct w as [s d0 u c0 ts l st]; destruct s as [v0 sel flt srch fd fs eid buf ci pv ca cm].
  wsimpl. subst v0 buf st.
  unfold dispatch. wsimpl.
  destruct v; try discriminate; unfold handleFormView, redrawForm; cbv zeta; wsimpl;
    cbv zeta in He, Hbs, Hp; rewrite He, Hbs, Hp;
    rewrite !(bool_decide_eq_false_2 (String c "" = _)) by done; by wsimpl.
Qed.

Lemma edit_typed v base rest : forall text w,
  Editing v base text w -> allTypable rest = true ->
  Editing v base (text +:+ rest) (run (keys (typed rest)) w).
Proof.
  induction rest as [|c rest IH]; intros text w Hs Hall.
  - by rewrite append_nil_r.
  - cbn [allTypable] in Hall. apply andb_true_iff in Hall as [Hc Hall].
    change (run (keys (typed (String c rest))) w)
      with (run (keys (typed rest)) (deliver (KeyData (String c "")) w)).
    replace (text +:+ String c rest) with ((text +:+ String c "") +:+ rest).
    + apply IH; [|done]. by apply edit_next_key.
    + clear. induction text as [|a text IH]; [done|]. by rewrite !append_cons, IH.
Qed.

Lemma advance_key k w :
  isAdvance k ->
  handleFormView k w
  = moveToNextField w >>> fun w1 => Done (redrawForm (stepsOf (currentView (tui w))) w1).
Proof.
  intros Hk. unfold handleFormView. cbv zeta.
  destruct Hk as [-> | [-> | [-> | ->]]]; decide_keys; reflexivity.
Qed.

Lemma advance_commits st w k :
  status w = Running -> endsWithForm (currentView (tui w)) = true ->
  stepsOf (currentView (tui w)) !! formStep (tui w) = Some st ->
  isAdvance k ->
  let steps := stepsOf (currentView (tui w)) in
  let w2 := deliver (KeyData k) w in
  formData (tui w2) = <[field st := committed st (inputBuffer (tui w))]> (formData (tui w))
  /\ formStep (tui w2) = Nat.min (formStep (tui w) + 1) (length steps - 1)
  /\ (formStep (tui w2) <> formStep (tui w) ->
      exists next, steps !! formStep (tui w2) = Some next
        /\ inputBuffer (tui w2) = stringOrEmpty (formData (tui w2) !! field next))
  /\ (formStep (tui w2) = formStep (tui w) -> inputBuffer (tui w2) = inputBuffer (tui w))
  /\ db w2 = db w /\ currentView (tui w2) = currentView (tui w)
  /\ editingId (tui w2) = editingId (tui w) /\ status w2 = Running.
Proof.
  intros Hrun Hv Hst Hk. cbv zeta.
  rewrite deliver_key, form_key_dispatch by (done || by left).
  rewrite advance_key by done.
  unfold moveToNextField, stepAt, redrawForm. cbv zeta. rewrite Hst.
  pose proof (commitField_formData st (tui w)) as Hfd.
  destruct (Nat.ltb_spec (formStep (tui (modify (commitField st) w)))
              (length (stepsOf (currentView (tui w))) - 1)) as [Hlt|Hge];
    wsimpl; autorewrite with commit in *.
  - destruct (lookup_lt_is_Some_2 (stepsOf (currentView (tui w))) (formStep (tui w) + 1))
      as [next Hnext]; [lia|].
    rewrite Hnext. unfold seedBuffer. wsimpl. autorewrite with commit.
    rewrite Hfd. repeat split; try done; try lia.
    all: try (intros _; exists next; by rewrite Hnext).
  - rewrite Hfd. apply lookup_lt_Some in Hst. repeat split; try done; try lia.
Qed.

(** X21. In a form, typing a text appends it to the buffer and changes
    neither [formData] nor the step; the next Down, Tab or Enter commits
    the buffer into the field of the current step - as text, or as
    [parseFloat(buffer) || 0] on a numeric step - moves to the next step
    and reads its field into the buffer, or stays on the last step; the
    Store is not touched. *)
Theorem typing_then_advance_commits (w : World) (text : string) (st : Step) (k : string) :
  status w = Running -> endsWithForm (currentView (tui w)) = true ->
  stepsOf (currentView (tui w)) !! formStep (tui w) = Some st ->
  allTypable text = true -> isAdvance k ->
  let steps := stepsOf (currentView (tui w)) in
  let buffer := inputBuffer (tui w) +:+ text in
  let w1 := run (keys (typed text)) w in
  let w2 := deliver (KeyData k) w1 in
  Editing (currentView (tui w)) w buffer w1
  /\ formData (tui w2) = <[field st := committed st buffer]> (formData (tui w))
  /\ formStep (tui w2) = Nat.min (formStep (tui w) + 1) (length steps - 1)
  /\ (formStep (tui w2) <> formStep (tui w) ->
      exists next, steps !! formStep (tui w2) = Some next
        /\ inputBuffer (tui w2) = stringOrEmpty (formData (tui w2) !! field next))
  /\ db w2 = db w /\ currentView (tui w2) = currentView (tui w).
Proof.
  intros Hrun Hv Hst Htext Hk steps buffer w1 w2.
  assert (H1 : Editing (currentView (tui w)) w buffer w1).
  { subst w1 buffer. apply edit_typed; [|done]. by repeat split. }
  split; [exact H1|].
  destruct H1 as (Hrun1 & Hv1 & _ & Hb & Hfd & Hfs & Hid & Hd & _).
  destruct (advance_commits st w1 k) as (A & B & C & _ & D & E & _); try done.
  { by rewrite Hv1. }
  { by rewrite Hv1, Hfs. }
  fold w2 in A, B, C, D, E. rewrite Hv1, Hfs in *. fold steps in B, C.
  rewrite Hb, Hfd in A. rewrite Hd in D. done.
Qed.

(** [typing_then_advance_commits] at the form with "Ada" typed, three
    more characters and Tab. *)
Lemma typing_then_advance_commits_witness :
  let w := Session.typingAda in
  let st := mkStep "CustomerName" true false in
  let steps := stepsOf (currentView (tui w)) in
  let buffer := inputBuffer (tui w) +:+ " L." in
  let w1 := run (keys (typed " L.")) w in
  let w2 := deliver (KeyData Key.tab) w1 in
  Editing (currentView (tui w)) w buffer w1
  /\ formData (tui w2) = <[field st := committed st buffer]> (formData (tui w))
  /\ formStep (tui w2) = Nat.min (formStep (tui w) + 1) (length steps - 1)
  /\ (formStep (tui w2) <> formStep (tui w) ->
      exists next, steps !! formStep (tui w2) = Some next
        /\ inputBuffer (tui w2) = stringOrEmpty (formData (tui w2) !! field next))
  /\ db w2 = db w /\ currentView (tui w2) = currentView (tui w).
Proof.
  apply (typing_then_advance_commits Session.typingAda " L."
           (mkStep "CustomerName" true false) Key.tab).
  - vm_compute. reflexivity.
  - vm_compute. reflexivity.
  - vm_compute. reflexivity.
  - vm_compute. reflexivity.
  - right. left. reflexivity.
Defined.

(** ** Shortcuts outside their views *)

Ltac ignore_key :=
  unfold handleKeyPress, dispatch, handleMainMenu, handleListView, handleFormView,
    handleConfirmation;
  cbv zeta; wsimpl; cbn [endsWithForm endsWithList]; decide_keys; wsimpl; decide_eqs; wsimpl;
  rewrite ?andb_false_r; wsimpl;
  first [ left; reflexivity | right; eexists; reflexivity ].

Lemma shortcut_ignored (k : string) (w : World) :
  (k = Key.ctrlS /\ endsWithForm (currentView (tui w)) = false)
  \/ (k = Key.ctrlD
      /\ (endsWithForm (currentView (tui w)) = false \/ truthyId (editingId (tui w)) = false))
  \/ (k = Key.ctrlN /\ endsWithList (currentView (tui w)) = false) ->
  handleKeyPress k w = w \/ exists e, handleKeyPress k w = emit (Store (GetAll e)) w.
Proof.
  intros Hk.
  destruct w as [s d u c ts l st]; destruct s as [v sel flt srch fd fs eid buf ci pv ca cm].
  wsimpl.
  destruct Hk as [[-> Hv] | [[-> Hv] | [-> Hv]]].
  - destruct v; try discriminate; try (destruct srch); ignore_key.
  - destruct Hv as [Hv|Hv].
    + destruct v; try discriminate; try (destruct srch); ignore_key.
    + destruct v; try (destruct srch);
        unfold handleKeyPress; cbv zeta; wsimpl; rewrite Hv; ignore_key.
  - destruct v; try discriminate; ignore_key.
Qed.

(** X22. The shortcuts act in their own views only: Ctrl+S outside a
    form, Ctrl+D outside the form of a saved record - so also in the form
    of a new one - and Ctrl+N outside a list change neither the session
    state nor the Store, paint nothing and schedule nothing. *)
Theorem shortcuts_act_in_their_views_only (k : string) (w : World) :
  status w = Running ->
  (k = Key.ctrlS /\ endsWithForm (currentView (tui w)) = false)
  \/ (k = Key.ctrlD
      /\ (endsWithForm (currentView (tui w)) = false \/ truthyId (editingId (tui w)) = false))
  \/ (k = Key.ctrlN /\ endsWithList (currentView (tui w)) = false) ->
  let w' := deliver (KeyData k) w in
  tui w' = tui w /\ db w' = db w /\ timers w' = timers w /\ repaints w' = repaints w
  /\ status w' = Running.
Proof.
  intros Hrun Hk. cbv zeta. rewrite deliver_key by done.
  destruct (shortcut_ignored k w Hk) as [-> | [e ->]]; [done|].
  rewrite repaints_emit. cbn [isPaint emit tui db timers status]. rewrite Nat.add_0_r. done.
Qed.

(** [shortcuts_act_in_their_views_only] at Ctrl+D in the form of a new
    customer. *)
Lemma shortcuts_act_in_their_views_only_witness :
  let w' := deliver (KeyData Key.ctrlD) Session.typingAda in
  tui w' = tui Session.typingAda /\ db w' = db Session.typingAda
  /\ timers w' = timers Session.typingAda /\ repaints w' = repaints Session.typingAda
  /\ status w' = Running.
Proof.
  apply (shortcuts_act_in_their_views_only Key.ctrlD Session.typingAda).
  - vm_compute. reflexivity.
  - right. left. split; [reflexivity|]. right. vm_compute. reflexivity.
Defined.

(** ** Escape *)

Lemma escape_step w :
  status w = Running -> Sound w ->
  let w' := deliver (KeyData Key.esc) w in
  db w' = db w
  /\ (status w' = Exited
      \/ (status w' = Running /\ (escapesLeft w' < escapesLeft w)%nat)).
Proof.
  intros Hrun Hs. cbv zeta. rewrite deliver_key by done.
  unfold Sound, escapesLeft in *.
  destruct w as [s d u c ts l st]; destruct s as [v sel flt srch fd fs eid buf ci pv ca cm].
  wsimpl. subst.
  destruct v;
    try (unfold handleKeyPress, dispatch, handleEscape, openList, drawFreshList, enterList,
           processExit, cleanup;
         cbv zeta; wsimpl; cbn [endsWithForm endsWithList]; decide_keys; decide_eqs;
         wsimpl; try (destruct srch; wsimpl);
         (split; [done|]); first [by left | right; split; [done|lia]]).
  destruct Hs as (f & -> & Hf & Hfs).
  unfold handleKeyPress, dispatch, handleEscape, reopenForm, stepAt, seedBuffer,
    isCustomerForm, isProductForm.
  cbv zeta. wsimpl. cbn [endsWithForm endsWithList]. decide_keys. decide_eqs. wsimpl.
  destruct f; try discriminate; decide_eqs; count_steps.
  - destruct (lookup_lt_is_Some_2 customerFormSteps fs) as [st Hst]; [by rewrite customer_steps|].
    rewrite Hst. wsimpl. split; [done|]. right. split; [done|lia].
  - destruct (lookup_lt_is_Some_2 productFormSteps fs) as [st Hst]; [by rewrite product_steps|].
    rewrite Hst. wsimpl. split; [done|]. right. split; [done|lia].
Qed.

Lemma escapes_exit n : forall w,
  status w = Running -> Sound w -> (escapesLeft w <= n)%nat ->
  exists m, (m <= n)%nat
    /\ status (run (keys (replicate m Key.esc)) w) = Exited
    /\ db (run (keys (replicate m Key.esc)) w) = db w.
Proof.
  induction n as [|n IH]; intros w Hrun Hs Hn.
  - exfalso. unfold escapesLeft in Hn. destruct (currentView (tui w)); try lia.
    all: destruct (isSearching (tui w)); lia.
  - destruct (escape_step w Hrun Hs) as [Hdb [Hexit|[Hrun' Hless]]].
    + exists 1%nat. split; [lia|]. done.
    + destruct (sound_deliver (KeyData Key.esc) w) as [Hs' _]; [congruence|done|].
      destruct (IH _ Hrun' Hs') as (m & Hm & Hexit & Hdb'); [lia|].
      exists (S m). split; [lia|].
      change (run (keys (replicate (S m) Key.esc)) w)
        with (run (keys (replicate m Key.esc)) (deliver (KeyData Key.esc) w)).
      split; [done|congruence].
Qed.

(** X23. Escape always leads out: from every state the terminal can be
    in, at most four presses of Escape - one from the menu, two from a
    list, three from a search or a form, four from a confirmation - end
    the process, and none of them writes the Store. *)
Theorem escape_leads_out (d : Db) (evs : list Event) :
  let w := run evs (startRawTui d) in
  status w = Running ->
  exists n, (n <= 4)%nat
    /\ status (run (keys (replicate n Key.esc)) w) = Exited
    /\ db (run (keys (replicate n Key.esc)) w) = db w.
Proof.
  intros w Hrun. destruct (sound_run evs (startRawTui d)) as [Hs _]; [done|done|].
  apply escapes_exit; [done|done|].
  unfold escapesLeft. destruct (currentView (tui w)); try lia.
  all: destruct (isSearching (tui w)); lia.
Qed.

(** [escape_leads_out] at the gate of a new customer. *)
Lemma escape_leads_out_witness :
  let w := run (keys [Key.cr; Key.ctrlN; "A"; Key.ctrlS]) (startRawTui Sample.store) in
  exists n, (n <= 4)%nat
    /\ status (run (keys (replicate n Key.esc)) w) = Exited
    /\ db (run (keys (replicate n Key.esc)) w) = db w.
Proof.
  apply (escape_leads_out Sample.store (keys [Key.cr; Key.ctrlN; "A"; Key.ctrlS])).
  vm_compute. reflexivity.
Defined.

(** ** New records *)

Lemma ctrlN_opens_form w :
  status w = Running -> endsWithList (currentView (tui w)) = true ->
  deliver (KeyData Key.ctrlN) w
  = newForm (bool_decide (currentView (tui w) = CustomerList)) w.
Proof.
  intros Hrun Hv. rewrite deliver_key by done. unfold handleKeyPress. cbv zeta.
  decide_keys. destruct (currentView (tui w)); try discriminate; reflexivity.
Qed.

Lemma ctrlS_opens_gate w :
  status w = Running -> endsWithForm (currentView (tui w)) = true ->
  deliver (KeyData Key.ctrlS) w
  = openConfirmation Save (AskSave (recordName (tui w)) (truthyId (editingId (tui w)))) 1 w.
Proof.
  intros Hrun Hv. rewrite deliver_key by done. unfold handleKeyPress. cbv zeta.
  decide_keys. by rewrite Hv.
Qed.

Lemma new_record_gate (w : World) (text : string) :
  status w = Running -> endsWithList (currentView (tui w)) = true ->
  allTypable text = true ->
  NewRecordGate (bool_decide (currentView (tui w) = CustomerList)) text w
    (run (keys (Key.ctrlN :: typed text ++ [Key.ctrlS])) w).
Proof.
  intros Hrun Hv Htext. set (isCustomer := bool_decide _).
  change (Key.ctrlN :: typed text ++ [Key.ctrlS])
    with ([Key.ctrlN] ++ typed text ++ [Key.ctrlS]).
  rewrite !keys_app, !run_app.
  change (run (keys [Key.ctrlN]) w) with (deliver (KeyData Key.ctrlN) w).
  rewrite ctrlN_opens_form by done. fold isCustomer.
  set (w1 := newForm isCustomer w).
  assert (H1 : Editing (if isCustomer then CustomerForm else ProductForm) w1 "" w1).
  { subst w1. unfold Editing, newForm. wsimpl. by destruct isCustomer. }
  pose proof (edit_typed _ _ text _ _ H1 Htext) as H2.
  change ("" +:+ text) with text in H2.
  set (w2 := run (keys (typed text)) w1) in *.
  destruct H2 as (Hrun2 & Hv2 & Hf2 & Hb2 & Hfd2 & Hfs2 & Hid2 & Hd2 & Hs2 & Ht2 & Hc2).
  change (run (keys [Key.ctrlS]) w2) with (deliver (KeyData Key.ctrlS) w2).
  rewrite ctrlS_opens_gate by (done || by rewrite Hv2).
  unfold NewRecordGate, openConfirmation. wsimpl.
  rewrite Hv2, Hfd2, Hfs2, Hid2, Hb2, Hd2, Hs2, Ht2, Hc2. subst w1. unfold newForm. wsimpl.
  done.
Qed.

Lemma run_snoc ks k w : run (keys (ks ++ [k])) w = deliver (KeyData k) (run (keys ks) w).
Proof. by rewrite keys_app, run_app. Qed.

(** X24. A new customer is saved whatever was typed: Ctrl+N, a text (or
    none), Ctrl+S and Enter add one row whose [CustomerName] is the text -
    the empty string if nothing was typed, the form's [required] mark
    being checked nowhere - with every other column NULL, and the success
    message is shown. *)
Theorem new_customer_is_saved_unchecked (w : World) (name : string) :
  status w = Running -> currentView (tui w) = CustomerList ->
  allTypable name = true ->
  customerOps.getById (Some (uuidOf (uuidSeed w))) (db w) = None ->
  let w' := run (keys (Key.ctrlN :: typed name ++ [Key.ctrlS; Key.cr])) w in
  let row := customerRow (uuidOf (uuidSeed w)) (<["CustomerName" := VStr name]> ∅) in
  customers (db w') = customers (db w) ++ [row]
  /\ row !! "CustomerName" = Some (VStr name)
  /\ (forall c, In c customerOps.cols -> c <> "CustomerName" -> row !! c = Some VNull)
  /\ products (db w') = products (db w)
  /\ last (log w') = Some (Paint (MessageScreen CustomerCreated false))
  /\ currentView (tui w') = ConfirmAction /\ status w' = Running.
Proof.
  intros Hrun Hv Hname Hfresh. cbv zeta.
  replace (Key.ctrlN :: typed name ++ [Key.ctrlS; Key.cr])
    with ((Key.ctrlN :: typed name ++ [Key.ctrlS]) ++ [Key.cr])
    by (cbn [app]; by rewrite <- app_assoc).
  rewrite run_snoc.
  destruct (new_record_gate w name) as
    (Gv & Gpv & Ga & Gi & Gfd & Gfs & Gid & Gb & Gd & Gs & Gt & Gc & Grun);
    [done|by rewrite Hv|done|].
  rewrite Hv in Gpv. rewrite bool_decide_eq_true_2 in Gpv by done.
  set (g := run _ w) in *. clearbody g.
  rewrite deliver_key, enter_on_yes by done. rewrite Ga.
  assert (Hfind : List.find (hasId (Some (uuidOf (uuidSeed w)))) (customers (db w)) = None).
  { unfold customerOps.getById in Hfresh. by destruct (List.find _ _). }
  destruct g as [s d u c ts l st]; destruct s as [v sel flt srch fd fs eid buf ci pv ca cm].
  wsimpl. subst.
  unfold executeFormSave, saveBody, stepAt, isCustomerForm, isProductForm. cbv zeta. wsimpl.
  decide_eqs. cbn [lookup list_lookup customerFormSteps].
  unfold commitField. cbn [isNumber field andb]. wsimpl. decide_eqs. cbn [truthyId].
  rewrite customer_create_ok;
    [|done|by rewrite lookup_insert_eq].
  unfold showMessage. wsimpl.
  split; [done|]. split; [by rewrite customerRow_col, lookup_insert_eq by (by left)|].
  split; [|split; [done|split; [by rewrite last_snoc|done]]].
  intros c0 Hc0 Hne. rewrite customerRow_col by done.
  by rewrite lookup_insert_ne, lookup_empty.
Qed.

(** [new_customer_is_saved_unchecked] at a form in which nothing was
    typed. *)
Lemma new_customer_is_saved_unchecked_witness :
  let w := Sample.customerList in
  let w' := run (keys (Key.ctrlN :: typed "" ++ [Key.ctrlS; Key.cr])) w in
  let row := customerRow (uuidOf (uuidSeed w)) (<["CustomerName" := VStr ""]> ∅) in
  customers (db w') = customers (db w) ++ [row]
  /\ row !! "CustomerName" = Some (VStr "")
  /\ (forall c, In c customerOps.cols -> c <> "CustomerName" -> row !! c = Some VNull)
  /\ products (db w') = products (db w)
  /\ last (log w') = Some (Paint (MessageScreen CustomerCreated false))
  /\ currentView (tui w') = ConfirmAction /\ status w' = Running.
Proof.
  apply (new_customer_is_saved_unchecked Sample.customerList "").
  - vm_compute. reflexivity.
  - vm_compute. reflexivity.
  - vm_compute. reflexivity.
  - vm_compute. reflexivity.
Defined.

(** X25. A new product cannot be saved from its first step: Ctrl+N, a
    code, Ctrl+S and Enter leave [Price] unbound, the INSERT is refused by
    its NOT NULL constraint, the Store is as it was and the error message
    is shown; two seconds later the list is back and what was typed is
    gone. *)
Theorem new_product_needs_a_price (w : World) (code : string) :
  status w = Running -> currentView (tui w) = ProductList ->
  allTypable code = true ->
  productOps.getById (Some (uuidOf (uuidSeed w))) (db w) = None ->
  timers w = [] ->
  let w' := run (keys (Key.ctrlN :: typed code ++ [Key.ctrlS; Key.cr])) w in
  let w'' := deliver (Elapse 2000) w' in
  db w' = db w
  /\ last (log w')
     = Some (Paint (MessageScreen (SaveFailed (SqliteError (NotNullViolation "Price"))) true))
  /\ formData (tui w') = <["ProductCode" := VStr code]> ∅
  /\ currentView (tui w') = ConfirmAction
  /\ currentView (tui w'') = ProductList /\ formData (tui w'') = ∅ /\ db w'' = db w.
Proof.
  intros Hrun Hv Hcode Hfresh Hts. cbv zeta.
  replace (Key.ctrlN :: typed code ++ [Key.ctrlS; Key.cr])
    with ((Key.ctrlN :: typed code ++ [Key.ctrlS]) ++ [Key.cr])
    by (cbn [app]; by rewrite <- app_assoc).
  rewrite run_snoc.
  destruct (new_record_gate w code) as
    (Gv & Gpv & Ga & Gi & Gfd & Gfs & Gid & Gb & Gd & Gs & Gt & Gc & Grun);
    [done|by rewrite Hv|done|].
  rewrite Hv in Gpv. rewrite bool_decide_eq_false_2 in Gpv by done.
  set (g := run _ w) in *. clearbody g.
  rewrite deliver_key, enter_on_yes by done. rewrite Ga.
  unfold productOps.getById in Hfresh.
  destruct g as [s d u c ts l st]; destruct s as [v sel flt srch fd fs eid buf ci pv ca cm].
  wsimpl. subst. rewrite Hts.
  unfold executeFormSave, saveBody, stepAt, isCustomerForm, isProductForm. cbv zeta. wsimpl.
  decide_eqs. cbn [lookup list_lookup productFormSteps].
  unfold commitField. cbn [isNumber field andb]. wsimpl. decide_eqs. cbn [truthyId].
  rewrite product_create_without_price;
    [|done|by rewrite lookup_insert_eq|by rewrite lookup_insert_ne, lookup_empty].
  unfold showMessage. wsimpl.
  split; [done|]. split; [by rewrite last_snoc|]. split; [done|]. split; [done|].
  unfold deliver. wsimpl. decide_eqs. cbn [app length fireDue]. wsimpl.
  cbn [app earliest due]. rewrite N.leb_refl. decide_eqs. cbn [andb removeFirst].
  decide_eqs. cbn [callback runCallback].
  unfold messageReturn, enterList, drawFreshList. cbv zeta. wsimpl. decide_eqs.
  cbn [earliest fireDue]. by wsimpl.
Qed.

(** [new_product_needs_a_price] at the code N-8 typed in a new product
    form. *)
Lemma new_product_needs_a_price_witness :
  let w := Screens.productList in
  let w' := run (keys (Key.ctrlN :: typed "N-8" ++ [Key.ctrlS; Key.cr])) w in
  let w'' := deliver (Elapse 2000) w' in
  db w' = db w
  /\ last (log w')
     = Some (Paint (MessageScreen (SaveFailed (SqliteError (NotNullViolation "Price"))) true))
  /\ formData (tui w') = <["ProductCode" := VStr "N-8"]> ∅
  /\ currentView (tui w') = ConfirmAction
  /\ currentView (tui w'') = ProductList /\ formData (tui w'') = ∅ /\ db w'' = db w.
Proof.
  apply (new_product_needs_a_price Screens.productList "N-8").
  - vm_compute. reflexivity.
  - vm_compute. reflexivity.
  - vm_compute. reflexivity.
  - vm_compute. reflexivity.
  - vm_compute. reflexivity.
Defined.

(** ** The window of a list *)

Lemma slice_inside {A} (l : list A) (first count : Z) :
  0 <= first <= Z.of_nat (length l) -> 0 <= count ->
  Js.slice l first (first + count) = take (Z.to_nat count) (drop (Z.to_nat first) l).
Proof.
  intros Hf Hc. unfold Js.slice, Js.relativeIndex.
  destruct (Z.ltb_spec first 0); [lia|].
  destruct (Z.ltb_spec (first + count) 0); [lia|].
  rewrite (Z.min_l first) by lia.
  destruct (Z.le_ge_cases (first + count) (Z.of_nat (length l))) as [Hle|Hge].
  - rewrite Z.min_l by lia. f_equal. lia.
  - rewrite Z.min_r by lia.
    rewrite !take_ge; [done| |]; rewrite length_drop; lia.
Qed.

(** X26. When the terminal has room for at least one row of the list
    (seven lines or more), the rows drawn are consecutive records of the
    filtered list, at most [rows - 6] of them, the record under the cursor
    is one of them, and it is the one highlighted unless the list is being
    searched. *)
Theorem cursor_row_is_on_screen (rows : Z) (s : TuiState) (filtered : list Obj) :
  7 <= rows ->
  0 <= selectedIndex s < Z.of_nat (length filtered) ->
  let first := startIndex rows (selectedIndex s) in
  let visible := visibleRecords rows (selectedIndex s) filtered in
  let cursorRow := Z.to_nat (selectedIndex s - first) in
  0 <= first <= selectedIndex s
  /\ Z.of_nat (length visible) <= rows - 6
  /\ (forall i, visible !! i = filtered !! (Z.to_nat first + i)%nat
                \/ (visible !! i = None /\ rows - 6 <= Z.of_nat i))
  /\ visible !! cursorRow = filtered !! Z.to_nat (selectedIndex s)
  /\ is_Some (visible !! cursorRow)
  /\ (forall i, isSelected rows s i = true <-> i = cursorRow /\ isSearching s = false).
Proof.
  intros Hrows Hsel first visible cursorRow.
  set (sel := selectedIndex s) in *.
  assert (Hfirst : first = Z.max 0 (sel - (rows - 6) / 2)) by reflexivity.
  assert (Hhalf : 0 <= (rows - 6) / 2 < rows - 6).
  { split; [apply Z.div_pos; lia|]. apply Z.div_lt_upper_bound; lia. }
  assert (Hvis : visible = take (Z.to_nat (rows - 6)) (drop (Z.to_nat first) filtered)).
  { subst visible. unfold visibleRecords. cbv zeta. fold first.
    apply slice_inside; lia. }
  assert (Hcur : visible !! cursorRow = filtered !! Z.to_nat sel).
  { rewrite Hvis. subst cursorRow. rewrite lookup_take_lt by lia. rewrite lookup_drop.
    f_equal. lia. }
  split; [lia|]. split.
  { rewrite Hvis, length_take. lia. }
  split.
  { intros i. rewrite Hvis. destruct (Nat.lt_ge_cases i (Z.to_nat (rows - 6))) as [Hi|Hi].
    - left. by rewrite lookup_take_lt, lookup_drop by done.
    - right. split; [|lia]. apply lookup_ge_None. rewrite length_take. lia. }
  split; [exact Hcur|]. split.
  { rewrite Hcur. apply lookup_lt_is_Some. lia. }
  intros i. unfold isSelected. cbv zeta. fold sel. fold first.
  rewrite andb_true_iff, bool_decide_eq_true, negb_true_iff.
  subst cursorRow. split; intros [H1 H2]; (split; [lia|done]).
Qed.

(** [cursor_row_is_on_screen] at a terminal of nine lines with the cursor
    on the second of two customers. *)
Lemma cursor_row_is_on_screen_witness :
  let rows := 9 in
  let s := set_selectedIndex 1 (tui Sample.customerList) in
  let filtered := customers Sample.store in
  let first := startIndex rows (selectedIndex s) in
  let visible := visibleRecords rows (selectedIndex s) filtered in
  let cursorRow := Z.to_nat (selectedIndex s - first) in
  0 <= first <= selectedIndex s
  /\ Z.of_nat (length visible) <= rows - 6
  /\ (forall i, visible !! i = filtered !! (Z.to_nat first + i)%nat
                \/ (visible !! i = None /\ rows - 6 <= Z.of_nat i))
  /\ visible !! cursorRow = filtered !! Z.to_nat (selectedIndex s)
  /\ is_Some (visible !! cursorRow)
  /\ (forall i, isSelected rows s i = true <-> i = cursorRow /\ isSearching s = false).
Proof.
  apply (cursor_row_is_on_screen 9 (set_selectedIndex 1 (tui Sample.customerList))
           (customers Sample.store)).
  - lia.
  - vm_compute. split; [discriminate | reflexivity].
Defined.
